(** * A shallow embedding of the message review bot (predlozhka_bot)

    The bot is one TypeScript class, [MessageReviewBot].  Its state is the
    record [BotState]; every handler is an [async] method that mutates the
    state and calls the Telegram API.  The embedding below keeps that shape:

    - JavaScript values are Rocq values: numbers that are identifiers or
      lengths are [Z] or [nat], a string is the sequence of bytes of its
      UTF-8 encoding, [string | undefined] is [option string], [parseInt]
      returns [None] for [NaN];
    - [Map<number | string, PendingMessage>] is a [gmap string PendingMessage]
      (every key the code uses is a string), the queue array is a [list];
    - handlers live in a state + trace + exception monad [M]: each Telegram
      call is recorded in the trace together with the state at the moment of
      the call and with what the transport answered; a rejected call throws,
      and [try_catch] is the source's [try { } catch { }];
    - handlers run to completion one after another (single-flight dispatch).

    What lies outside the repository is a parameter of the model: the
    environment variables, the locale formatting of dates, and the answers of
    the transport ([Config]). *)

From Stdlib Require Import ZArith Ascii String List Bool Lia.
From stdpp Require Import base option list strings pretty gmap fin_maps sorting.

Local Open Scope string_scope.
Local Open Scope list_scope.
Local Open Scope Z_scope.

(** ** JavaScript helpers *)

Module JS.

(** The line feed and the double quote, written by their codes. *)
Definition LF : string := String "010"%char "".
Definition DQ : string := String "034"%char "".

(** Truthiness of [string | undefined]: the empty string is falsy. *)
Definition truthy (o : option string) : bool :=
  match o with
  | Some s => negb (String.eqb s "")
  | None => false
  end.

(** [`${n}`] and [n.toString()] for an integer, [`${x}`] for [NaN]. *)
Definition numToString (n : Z) : string := pretty n.

Definition numOrNaNToString (n : option Z) : string :=
  match n with
  | Some z => numToString z
  | None => "NaN"
  end.

(** [`${s}`] for [string | undefined]. *)
Definition strOrUndefined (o : option string) : string :=
  match o with
  | Some s => s
  | None => "undefined"
  end.

(** [s.split(sep)] for a one-character separator. *)
Fixpoint split (sep : ascii) (s : string) : list string :=
  match s with
  | EmptyString => [EmptyString]
  | String c r =>
      if Ascii.eqb c sep then EmptyString :: split sep r
      else match split sep r with
           | h :: t => String c h :: t
           | [] => [String c EmptyString]
           end
  end.

(** [s.startsWith(p)]. *)
Definition startsWith (p s : string) : bool := String.prefix p s.

(** [s.replace(/c/g, rep)]: every occurrence of the character [c]. *)
Fixpoint replaceAll (c : ascii) (rep : string) (s : string) : string :=
  match s with
  | EmptyString => EmptyString
  | String a r =>
      if Ascii.eqb a c then rep +:+ replaceAll c rep r
      else String a (replaceAll c rep r)
  end.


(** [parseInt(s)] with no radix: leading white space, a sign, a [0x]
    prefix, then the longest run of digits; [None] is [NaN].  Integers are
    exact.

    A string is the sequence of bytes of its UTF-8 encoding (the literals of
    the source are written that way below).  The white space and the line
    terminators that [parseInt] skips are the codes 9 to 13 and 32, which
    are one byte each, U+00A0, which is two bytes, and U+1680, U+2000 to
    U+200A, U+2028, U+2029, U+202F, U+205F, U+3000 and U+FEFF, which are
    three. *)
Definition isWhite (c : ascii) : bool :=
  let n := nat_of_ascii c in
  ((9 <=? n) && (n <=? 13))%nat || (n =? 32)%nat.

Definition isWhite2 (c1 c2 : ascii) : bool :=
  ((nat_of_ascii c1 =? 194) && (nat_of_ascii c2 =? 160))%nat.

Definition isWhite3 (c1 c2 c3 : ascii) : bool :=
  let a := nat_of_ascii c1 in
  let b := nat_of_ascii c2 in
  let c := nat_of_ascii c3 in
  (((a =? 225) && (b =? 154) && (c =? 128))
   || ((a =? 226) && (b =? 128)
       && (((128 <=? c) && (c <=? 138)) || (c =? 168) || (c =? 169) || (c =? 175)))
   || ((a =? 226) && (b =? 129) && (c =? 159))
   || ((a =? 227) && (b =? 128) && (c =? 128))
   || ((a =? 239) && (b =? 187) && (c =? 191)))%nat.

Fixpoint skipWhite (s : string) : string :=
  match s with
  | EmptyString => s
  | String c1 r1 =>
      if isWhite c1 then skipWhite r1
      else if (nat_of_ascii c1 <? 128)%nat then s
      else
        match r1 with
        | String c2 r2 =>
            if isWhite2 c1 c2 then skipWhite r2
            else
              match r2 with
              | String c3 r3 => if isWhite3 c1 c2 c3 then skipWhite r3 else s
              | EmptyString => s
              end
        | EmptyString => s
        end
  end.

Definition digitVal (c : ascii) : option Z :=
  let n := Z.of_nat (nat_of_ascii c) in
  if (48 <=? n) && (n <=? 57) then Some (n - 48)
  else if (97 <=? n) && (n <=? 122) then Some (n - 87)
  else if (65 <=? n) && (n <=? 90) then Some (n - 55)
  else None.

Fixpoint parseDigits (radix : Z) (s : string) (acc : option Z) : option Z :=
  match s with
  | EmptyString => acc
  | String c r =>
      match digitVal c with
      | Some d =>
          if d <? radix
          then parseDigits radix r (Some (radix * default 0 acc + d))
          else acc
      | None => acc
      end
  end.

Definition parseInt (s : string) : option Z :=
  let s1 := skipWhite s in
  let '(sign, s2) :=
    match s1 with
    | String "-"%char r => (-1, r)
    | String "+"%char r => (1, r)
    | _ => (1, s1)
    end in
  let '(radix, s3) :=
    match s2 with
    | String "0"%char (String x r) =>
        if Ascii.eqb x "x"%char || Ascii.eqb x "X"%char then (16, r) else (10, s2)
    | _ => (10, s2)
    end in
  Z.mul sign <$> parseDigits radix s3 None.

(** [parseInt(process.env.X!)]: an unset variable reads [undefined]. *)
Definition parseIntEnv (o : option string) : option Z :=
  match o with
  | Some s => parseInt s
  | None => None
  end.

End JS.

Arguments JS.numToString : simpl never.

(** ** The data model ([types.ts]) *)

Inductive MediaType := photo_t | video_t | document_t | audio_t.

Record Media := mkMedia {
  fileId : string;
  type : MediaType;
  caption : option string
}.

Inductive PublishType := with_name | anonymous | pending.

Record PendingMessage := mkPending {
  userId : Z;
  userName : string;
  username : option string;
  messageId : Z;
  chatId : Z;
  text : option string;
  contentType : string;
  media : option Media;
  timestamp : Z;
  publishType : PublishType;
  choiceMessageId : option Z
}.

Record BotState := mkState {
  currentMessageIndex : nat;
  pendingMessages : gmap string PendingMessage;
  messageQueue : list PendingMessage
}.

#[global] Instance MediaType_eq_dec : EqDecision MediaType.
Proof. solve_decision. Defined.
#[global] Instance Media_eq_dec : EqDecision Media.
Proof. solve_decision. Defined.
#[global] Instance PublishType_eq_dec : EqDecision PublishType.
Proof. solve_decision. Defined.
#[global] Instance PendingMessage_eq_dec : EqDecision PendingMessage.
Proof. solve_decision. Defined.

(** ** What arrives from Telegram *)

Record User := mkUser {
  id : Z;
  first_name : string;
  tg_username : option string
}.

(** A message: [photo] lists the file ids of the sizes of a photo, the
    other media fields hold the file id. *)
Record Message := mkMessage {
  message_id : Z;
  msg_text : option string;
  msg_caption : option string;
  photo : option (list string);
  video : option string;
  document : option string;
  audio : option string
}.

Inductive Update :=
| UpdStart (from : option User)
    (* a message the [start] filter accepts *)
| UpdMessage (from : option User) (chat : option Z) (message : Message) (now : Z)
    (* any other message; [chat] is [ctx.chat.id], [now] is [Date.now()] *)
| UpdCallback (from : option User) (data : option string) (hasMessage : bool).
    (* a callback query; [hasMessage] is [ctx.callbackQuery.message] *)

(** ** Telegram calls and the trace *)

Inductive ChatId := ChatNum (n : option Z) | ChatStr (s : string).

Definition Button : Type := string * string.
Definition Keyboard : Type := list (list Button).

Record Extra := mkExtra {
  extra_caption : option string;
  parse_mode : option string;
  reply_markup : option Keyboard
}.

Inductive SendKind := KMessage | KPhoto | KVideo | KDocument | KAudio.

Inductive Call :=
| Reply (body : string) (markup : option Keyboard)
| AnswerCbQuery (body : option string)
| EditMessageText (body : string)
| DeleteMessage
| Send (kind : SendKind) (chat : ChatId) (payload : string) (extra : Extra).

Record Config := mkConfig {
  BOT_USERNAME : string;
  ADMIN_ID : option string;
  CHANNEL_ID : option string;
  toLocaleString : Z -> string;
  transport : Call -> option Z
    (* [Some k]: the call succeeds and the sent message has id [k];
       [None]: the call is rejected *)
}.

Record Event := mkEvent {
  ev_state : BotState;
  ev_call : Call;
  ev_result : option Z
}.

Inductive Error :=
| ConfigurationError (msg : string)
| TransportError (c : Call)
| TypeError (msg : string).

Inductive Outcome (A : Type) :=
| Ok (a : A)
| Throw (e : Error).
Arguments Ok {A} a.
Arguments Throw {A} e.

(** ** The handler monad *)

Definition M (A : Type) : Type := BotState -> Outcome A * BotState * list Event.

Definition ret {A} (a : A) : M A := fun s => (Ok a, s, []).

Definition bind {A B} (m : M A) (f : A -> M B) : M B :=
  fun s =>
    match m s with
    | (Ok a, s1, t1) =>
        match f a s1 with
        | (r, s2, t2) => (r, s2, t1 ++ t2)
        end
    | (Throw e, s1, t1) => (Throw e, s1, t1)
    end.

Definition throw {A} (e : Error) : M A := fun s => (Throw e, s, []).

Definition try_catch {A} (m : M A) (h : Error -> M A) : M A :=
  fun s =>
    match m s with
    | (Ok a, s1, t1) => (Ok a, s1, t1)
    | (Throw e, s1, t1) =>
        match h e s1 with
        | (r, s2, t2) => (r, s2, t1 ++ t2)
        end
    end.

Definition gets {A} (f : BotState -> A) : M A := fun s => (Ok (f s), s, []).

Definition modify (f : BotState -> BotState) : M unit := fun s => (Ok tt, f s, []).

#[global] Instance M_ret : MRet M := @ret.
#[global] Instance M_bind : MBind M := fun A B f m => bind m f.

(** State updates, one per mutation the source performs. *)
Definition map_set (k : string) (v : PendingMessage) : M unit :=
  modify (fun s => mkState (currentMessageIndex s)
                           (<[k := v]> (pendingMessages s)) (messageQueue s)).

Definition map_delete (k : string) : M unit :=
  modify (fun s => mkState (currentMessageIndex s)
                           (delete k (pendingMessages s)) (messageQueue s)).

Definition queue_push (m : PendingMessage) : M unit :=
  modify (fun s => mkState (currentMessageIndex s)
                           (pendingMessages s) (messageQueue s ++ [m])).

(** [queue.splice(i, 1)] *)
Definition queue_splice (i : nat) : M unit :=
  modify (fun s => mkState (currentMessageIndex s)
                           (pendingMessages s) (delete i (messageQueue s))).

Definition set_index (i : nat) : M unit :=
  modify (fun s => mkState i (pendingMessages s) (messageQueue s)).

(** ** The bot *)

Definition initialState : BotState := mkState 0%nat ∅ [].

Definition withPublishType (m : PendingMessage) (p : PublishType) : PendingMessage :=
  mkPending (userId m) (userName m) (username m) (messageId m) (chatId m)
            (text m) (contentType m) (media m) (timestamp m) p (choiceMessageId m).

Definition withChoiceMessageId (m : PendingMessage) (c : Z) : PendingMessage :=
  mkPending (userId m) (userName m) (username m) (messageId m) (chatId m)
            (text m) (contentType m) (media m) (timestamp m) (publishType m) (Some c).

Definition noExtra : Extra := mkExtra None None None.

Definition sendKind (t : MediaType) : SendKind :=
  match t with
  | photo_t => KPhoto
  | video_t => KVideo
  | document_t => KDocument
  | audio_t => KAudio
  end.

(** [choice === lit] for [choice = parts[1]]. *)
Definition choiceIs (choice : option string) (lit : string) : bool :=
  match choice with
  | Some c => String.eqb c lit
  | None => false
  end.

(** The arrow function [escapeHTML] of [publishToChannel]. *)
Definition escapeHTML (s : string) : string :=
  JS.replaceAll ">" "&gt;" (JS.replaceAll "<" "&lt;" (JS.replaceAll "&" "&amp;" s)).

Definition getMessageText (message : Message) : option string :=
  match msg_text message with
  | Some t => Some t
  | None => msg_caption message
  end.

Definition getMessageType (message : Message) : string :=
  if bool_decide (is_Some (msg_text message)) then "text"
  else if bool_decide (is_Some (photo message)) then "photo"
  else if bool_decide (is_Some (video message)) then "video"
  else if bool_decide (is_Some (document message)) then "document"
  else if bool_decide (is_Some (audio message)) then "audio"
  else "unknown".

(** [message.photo[message.photo.length - 1].file_id] throws on an empty
    array of sizes. *)
Definition getMediaData (message : Message) : M (option Media) :=
  match photo message, video message, document message, audio message with
  | Some sizes, _, _, _ =>
      match last sizes with
      | Some f => mret (Some (mkMedia f photo_t (msg_caption message)))
      | None => throw (TypeError "Cannot read properties of undefined (reading 'file_id')")
      end
  | None, Some f, _, _ => mret (Some (mkMedia f video_t (msg_caption message)))
  | None, None, Some f, _ => mret (Some (mkMedia f document_t (msg_caption message)))
  | None, None, None, Some f => mret (Some (mkMedia f audio_t (msg_caption message)))
  | None, None, None, None => mret None
  end.

Definition adminActionButtons : Keyboard :=
  [ [("✅ Опубликовать", "admin_approve")];
    [("❌ Отклонить", "admin_reject")];
    [("⏭️ Пропустить", "admin_skip")] ].

Definition choiceButtons (message_id : Z) : Keyboard :=
  [ [("📝 С моим именем", "user_choice:with_name:" +:+ JS.numToString message_id);
     ("👤 Анонимно", "user_choice:anonymous:" +:+ JS.numToString message_id)];
    [("❌ Отменить отправку", "user_choice:cancel:" +:+ JS.numToString message_id)] ].

(** The keys of the staging entries: [`temp_${user.id}_${messageId}`] and
    [`choice_${messageId}`]; the message id of a callback is a [parseInt]
    result and may be [NaN]. *)
Definition tempKeyOf (userId : Z) (messageId : option Z) : string :=
  "temp_" +:+ JS.numToString userId +:+ "_" +:+ JS.numOrNaNToString messageId.

Definition choiceKeyOf (messageId : option Z) : string :=
  "choice_" +:+ JS.numOrNaNToString messageId.

(** [parts[1]] and [parseInt(parts[2])] of [callbackData.split(':')]. *)
Definition choiceOf (callbackData : string) : option string :=
  JS.split ":" callbackData !! 1%nat.

Definition originalMessageIdOf (callbackData : string) : option Z :=
  JS.parseInt (JS.strOrUndefined (JS.split ":" callbackData !! 2%nat)).

Section Bot.

Context (cfg : Config).

(** One Telegram call: recorded with the state it is made in; a rejected
    call throws. *)
Definition call (c : Call) : M Z :=
  fun s =>
    match transport cfg c with
    | Some k => (Ok k, s, [mkEvent s c (Some k)])
    | None => (Throw (TransportError c), s, [mkEvent s c None])
    end.

Definition adminId : option Z := JS.parseIntEnv (ADMIN_ID cfg).

Definition handleStart (from : option User) : M unit :=
  call (Reply ("Привет, " +:+ JS.strOrUndefined (first_name <$> from)
               +:+ "! Отправь мне сообщение, и я перешлю его администратору на рассмотрение.")
              None);;
  mret tt.

Definition handleUserMessage (from : option User) (chat : option Z)
    (message : option Message) (now : Z) : M unit :=
  match from, message with
  | Some user, Some message =>
      let tempKey := tempKeyOf (id user) (Some (message_id message)) in
      chat_id ← match chat with
                | Some c => mret c
                | None => throw (TypeError "Cannot read properties of undefined (reading 'id')")
                end;
      mediaData ← getMediaData message;
      let tempMessage :=
        mkPending (id user) (first_name user) (tg_username user)
                  (message_id message) chat_id
                  (getMessageText message) (getMessageType message)
                  mediaData now pending None in
      map_set tempKey tempMessage;;
      choiceMessage ← call (Reply "Как вы хотите опубликовать сообщение?"
                                  (Some (choiceButtons (message_id message))));
      map_set (choiceKeyOf (Some (message_id message)))
              (withChoiceMessageId tempMessage choiceMessage)
  | _, _ => mret tt
  end.

Definition formatMessageCaption (message : PendingMessage) : string :=
  let cap := "<b>📨 Новое сообщение от пользователя:</b>" +:+ JS.LF +:+ JS.LF in
  let cap := cap +:+ "<b>👤 Имя:</b> " +:+ userName message +:+ JS.LF in
  let cap :=
    if JS.truthy (username message)
    then cap +:+ "<b>📱 Username:</b> @"
                 +:+ JS.strOrUndefined (username message) +:+ JS.LF
    else cap in
  let cap := cap +:+ "<b>🆔 ID:</b> " +:+ JS.numToString (userId message) +:+ JS.LF in
  let cap :=
    cap +:+ "<b>📢 Тип публикации:</b> "
            +:+ (if decide (publishType message = with_name)
                 then "С именем автора" else "Анонимно")
            +:+ JS.LF +:+ JS.LF in
  let cap :=
    if JS.truthy (text message)
    then cap +:+ "<b>📝 Текст сообщения:</b>" +:+ JS.LF
                 +:+ JS.strOrUndefined (text message) +:+ JS.LF +:+ JS.LF
    else if JS.truthy (media message ≫= caption)
    then cap +:+ "<b>📝 Подпись:</b>" +:+ JS.LF
                 +:+ JS.strOrUndefined (media message ≫= caption) +:+ JS.LF +:+ JS.LF
    else cap in
  cap +:+ "<b>⏰ Время:</b> " +:+ toLocaleString cfg (timestamp message).

Definition notifyUser (userId : Z) (body : string) : M unit :=
  try_catch (call (Send KMessage (ChatNum (Some userId)) body noExtra);; mret tt)
            (fun _ => mret tt).

Definition sendToAdmin (body : string) : M unit :=
  try_catch (call (Send KMessage (ChatNum adminId) body noExtra);; mret tt)
            (fun _ => mret tt).

Definition sendMessageToAdmin (message : PendingMessage) : M unit :=
  let cap := formatMessageCaption message in
  try_catch
    (match media message with
     | Some md =>
         call (Send (sendKind (type md)) (ChatNum adminId) (fileId md)
                    (mkExtra (Some cap) (Some "HTML") (Some adminActionButtons)));;
         mret tt
     | None =>
         if JS.truthy (text message)
         then call (Send KMessage (ChatNum adminId) cap
                         (mkExtra None (Some "HTML") (Some adminActionButtons)));;
              mret tt
         else mret tt
     end)
    (fun _ => mret tt).

(** [messageQueue[currentMessageIndex]] is [undefined] out of range, and
    [formatMessageCaption(undefined)] throws. *)
Definition showNextMessageToAdmin : M unit :=
  len ← gets (fun s => length (messageQueue s));
  if (len =? 0)%nat then sendToAdmin "Очередь сообщений пуста."
  else
    currentMessage ← gets (fun s => messageQueue s !! currentMessageIndex s);
    match currentMessage with
    | Some m => sendMessageToAdmin m
    | None => throw (TypeError "Cannot read properties of undefined (reading 'userName')")
    end.

Definition moveToNextMessage : M unit :=
  i ← gets currentMessageIndex;
  map_delete (JS.numToString (Z.of_nat i));;
  j ← gets currentMessageIndex;
  queue_splice j;;
  len ← gets (fun s => length (messageQueue s));
  if (len =? 0)%nat
  then set_index 0%nat;; sendToAdmin "✅ Все сообщения обработаны!"
  else showNextMessageToAdmin.

Definition signature : string :=
  JS.LF +:+ JS.LF +:+ "<a href=" +:+ JS.DQ +:+ "https://t.me/" +:+ BOT_USERNAME cfg
        +:+ JS.DQ +:+ ">Предложка</a>".

(** [authorInfo] of [publishToChannel] *)
Definition authorInfo (message : PendingMessage) : string :=
  "От: " +:+ userName message
         +:+ (if JS.truthy (username message)
              then " (@" +:+ JS.strOrUndefined (username message) +:+ ")"
              else "").

(** [finalCaption] and [finalText] as the two branches on [publishType]
    leave them: the text composed from what the submitter sent. *)
Definition composeContent (message : PendingMessage) : string * string :=
  if decide (publishType message = with_name) then
    match media message with
    | Some md =>
        ((if JS.truthy (caption md)
          then authorInfo message +:+ JS.LF +:+ JS.LF +:+ JS.strOrUndefined (caption md)
          else authorInfo message), "")
    | None =>
        if JS.truthy (text message)
        then ("", authorInfo message +:+ JS.LF +:+ JS.LF +:+ JS.strOrUndefined (text message))
        else ("", "")
    end
  else
    if JS.truthy (media message ≫= caption)
    then (JS.strOrUndefined (media message ≫= caption), "")
    else if JS.truthy (text message)
    then ("", JS.strOrUndefined (text message))
    else ("", "").

(** [finalCaption] and [finalText] once the signature has been added. *)
Definition finalCaptionText (message : PendingMessage) : string * string :=
  let '(finalCaption, finalText) := composeContent message in
  match media message with
  | Some _ =>
      ((if JS.truthy (Some finalCaption) then finalCaption +:+ signature else signature),
       finalText)
  | None =>
      (finalCaption,
       (if JS.truthy (Some finalText) then finalText +:+ signature else signature))
  end.

Definition publishToChannel (message : PendingMessage) : M unit :=
  if JS.truthy (CHANNEL_ID cfg) then
    let channelId := JS.strOrUndefined (CHANNEL_ID cfg) in
    try_catch
      (let '(finalCaption, finalText) := finalCaptionText message in
       match media message with
       | Some md =>
           let options :=
             mkExtra (if JS.truthy (Some finalCaption)
                      then Some (escapeHTML finalCaption) else None)
                     (Some "HTML") None in
           call (Send (sendKind (type md)) (ChatStr channelId) (fileId md) options);;
           mret tt
       | None =>
           if JS.truthy (text message)
           then call (Send KMessage (ChatStr channelId) (escapeHTML finalText)
                           (mkExtra None (Some "HTML") None));;
                mret tt
           else mret tt
       end)
      (fun e => throw e)
  else throw (ConfigurationError "CHANNEL_ID is not configured").

Definition handleApprove : M unit :=
  currentMessage ← gets (fun s => messageQueue s !! currentMessageIndex s);
  match currentMessage with
  | None => call (AnswerCbQuery (Some "Сообщение не найдено."));; mret tt
  | Some m =>
      try_catch
        (publishToChannel m;;
         notifyUser (userId m)
           ("✅ Ваше сообщение было одобрено и опубликовано!"
            +:+ (if decide (publishType m = with_name)
                 then " (с вашим именем)" else " (анонимно)"));;
         moveToNextMessage)
        (fun e => throw e)
  end.

Definition handleReject : M unit :=
  currentMessage ← gets (fun s => messageQueue s !! currentMessageIndex s);
  match currentMessage with
  | None => call (AnswerCbQuery (Some "Сообщение не найдено."));; mret tt
  | Some m =>
      notifyUser (userId m) "❌ Ваше сообщение было отклонено.";;
      moveToNextMessage
  end.

Definition handleSkip : M unit := moveToNextMessage.

Definition handleUserChoice (upd : Update) (next : M unit) : M unit :=
  match upd with
  | UpdCallback (Some user) (Some callbackData) _ =>
      if JS.startsWith "user_choice:" callbackData then
        let choice := choiceOf callbackData in
        let originalMessageId := originalMessageIdOf callbackData in
        let tempKey := tempKeyOf (id user) originalMessageId in
        let choiceKey := choiceKeyOf originalMessageId in
        tempMessage ← gets (fun s => pendingMessages s !! tempKey);
        match tempMessage with
        | None =>
            call (AnswerCbQuery (Some "Сообщение не найдено или время ожидания истекло."));;
            mret tt
        | Some tempMessage =>
            try_catch
              ((if choiceIs choice "cancel" then
                  call (EditMessageText "❌ Отправка отменена.");;
                  map_delete tempKey;;
                  map_delete choiceKey
                else if choiceIs choice "with_name" || choiceIs choice "anonymous" then
                  let finalMessage :=
                    withPublishType tempMessage
                      (if choiceIs choice "with_name" then with_name else anonymous) in
                  queue_push finalMessage;;
                  messageIndex ← gets (fun s => (length (messageQueue s) - 1)%nat);
                  map_set (JS.numToString (Z.of_nat messageIndex)) finalMessage;;
                  map_delete tempKey;;
                  map_delete choiceKey;;
                  call (EditMessageText
                          (if choiceIs choice "with_name"
                           then "✅ Сообщение отправлено администратору на рассмотрение (будет опубликовано с вашим именем)!"
                           else "✅ Сообщение отправлено администратору на рассмотрение (будет опубликовано анонимно)!"));;
                  len ← gets (fun s => length (messageQueue s));
                  if (len =? 1)%nat then showNextMessageToAdmin else mret tt
                else mret tt);;
               call (AnswerCbQuery None);;
               mret tt)
              (fun _ => call (AnswerCbQuery (Some "Произошла ошибка."));; mret tt)
        end
      else next
  | _ => next
  end.

(** [ctx.from?.id !== adminId] is false only for a sender whose id is the
    parsed [ADMIN_ID]; [NaN] differs from everything. *)
Definition isAdmin (from : option User) : bool :=
  match from, adminId with
  | Some u, Some a => id u =? a
  | _, _ => false
  end.

Definition handleAdminCallback (upd : Update) : M unit :=
  match upd with
  | UpdCallback from (Some callbackData) hasMessage =>
      if negb (isAdmin from) then
        call (AnswerCbQuery (Some "У вас нет прав для этого действия."));;
        mret tt
      else
        try_catch
          (known ←
             (if String.eqb callbackData "admin_approve" then handleApprove;; mret true
              else if String.eqb callbackData "admin_reject" then handleReject;; mret true
              else if String.eqb callbackData "admin_skip" then handleSkip;; mret true
              else call (AnswerCbQuery (Some "Неизвестное действие."));; mret false);
           if known : bool then
             (if hasMessage
              then try_catch (call DeleteMessage;; mret tt) (fun _ => mret tt)
              else mret tt);;
             call (AnswerCbQuery None);;
             mret tt
           else mret tt)
          (fun _ => call (AnswerCbQuery (Some "Произошла ошибка."));; mret tt)
  | _ => mret tt
  end.

(** [handleError] only logs. *)
Definition handleError (e : Error) : M unit := mret tt.

(** *** [setupHandlers]: the middleware chain *)

(** The filters [text], [photo], [video], [document], [audio]. *)
Definition isContent (message : Message) : bool :=
  bool_decide (is_Some (msg_text message))
  || bool_decide (is_Some (photo message))
  || bool_decide (is_Some (video message))
  || bool_decide (is_Some (document message))
  || bool_decide (is_Some (audio message)).

Definition isAdminAction (callbackData : string) : bool :=
  String.eqb callbackData "admin_approve"
  || String.eqb callbackData "admin_reject"
  || String.eqb callbackData "admin_skip".

(** The three [bot.action] registrations. *)
Definition adminActions (upd : Update) : M unit :=
  match upd with
  | UpdCallback _ (Some callbackData) _ =>
      if isAdminAction callbackData then handleAdminCallback upd else mret tt
  | _ => mret tt
  end.

Definition middleware (upd : Update) : M unit :=
  match upd with
  | UpdStart from => handleStart from
  | UpdMessage from chat message now =>
      if isContent message
      then handleUserMessage from chat (Some message) now
      else handleUserChoice upd (adminActions upd)
  | UpdCallback _ _ _ => handleUserChoice upd (adminActions upd)
  end.

(** One update handled to completion; [bot.catch] swallows what escapes. *)
Definition dispatch (upd : Update) (s : BotState) : BotState * list Event :=
  match try_catch (middleware upd) handleError s with
  | (_, s', t) => (s', t)
  end.

(** The state after a sequence of updates, and the whole trace. *)
Fixpoint exec (upds : list Update) (s : BotState) : BotState * list Event :=
  match upds with
  | [] => (s, [])
  | u :: rest =>
      let '(s1, t1) := dispatch u s in
      let '(s2, t2) := exec rest s1 in
      (s2, t1 ++ t2)
  end.

Inductive reachable : BotState -> Prop :=
| reachable_init : reachable initialState
| reachable_step s u : reachable s -> reachable (dispatch u s).1.

End Bot.

(** ** Vocabulary of the statements

    The calls the handlers make, named so that the statements below can
    speak of them; the lemmas of the next part show that the handlers make
    exactly these calls. *)

(** The record that an update appends to the queue, if any: a
    [user_choice] callback for a staged submission whose choice is
    [with_name] or [anonymous]. *)
Definition resolution (upd : Update) (s : BotState) : option PendingMessage :=
  match upd with
  | UpdCallback (Some user) (Some callbackData) _ =>
      if JS.startsWith "user_choice:" callbackData then
        match pendingMessages s !! tempKeyOf (id user) (originalMessageIdOf callbackData) with
        | Some tempMessage =>
            if choiceIs (choiceOf callbackData) "with_name"
            then Some (withPublishType tempMessage with_name)
            else if choiceIs (choiceOf callbackData) "anonymous"
            then Some (withPublishType tempMessage anonymous)
            else None
        | None => None
        end
      else None
  | _ => None
  end.

(** A transport that accepts every call. *)
Definition accepting (cfg : Config) : Prop := ∀ c, is_Some (transport cfg c).

(** The first character of a printed number is a digit or a minus sign, so a
    printed queue position is never a [temp_] or [choice_] key. *)
Definition numericHead (s : string) : Prop :=
  match s with
  | String c _ => c ≠ "t"%char ∧ c ≠ "c"%char
  | EmptyString => True
  end.

(** A key of a submission that waits for the choice of its author. *)
Definition isStagingKey (k : string) : Prop :=
  ∃ x, k = "temp_" +:+ x ∨ k = "choice_" +:+ x.

Definition setMap (s : BotState) (pm : gmap string PendingMessage) : BotState :=
  mkState (currentMessageIndex s) pm (messageQueue s).

(** The keys under which an update can stage a submission: only a message
    stages, under the two keys built from its sender and its id. *)
Definition stagedBy (upd : Update) (k : string) : Prop :=
  match upd with
  | UpdMessage (Some user) _ message _ =>
      k = tempKeyOf (id user) (Some (message_id message))
      ∨ k = choiceKeyOf (Some (message_id message))
  | _ => False
  end.

Section Vocabulary.

Context (cfg : Config).

(** A call as the trace records it in state [s]. *)
Definition event (s : BotState) (c : Call) : Event := mkEvent s c (transport cfg c).

(** The review post [sendMessageToAdmin] issues for a record, if any. *)
Definition reviewPost (m : PendingMessage) : option Call :=
  match media m with
  | Some md =>
      Some (Send (sendKind (type md)) (ChatNum (adminId cfg)) (fileId md)
                 (mkExtra (Some (formatMessageCaption cfg m)) (Some "HTML")
                          (Some adminActionButtons)))
  | None =>
      if JS.truthy (text m)
      then Some (Send KMessage (ChatNum (adminId cfg)) (formatMessageCaption cfg m)
                      (mkExtra None (Some "HTML") (Some adminActionButtons)))
      else None
  end.

(** The destination post [publishToChannel] issues for a record, if any. *)
Definition channelPost (m : PendingMessage) : option Call :=
  let channelId := JS.strOrUndefined (CHANNEL_ID cfg) in
  match media m with
  | Some md =>
      Some (Send (sendKind (type md)) (ChatStr channelId) (fileId md)
                 (mkExtra (Some (escapeHTML (finalCaptionText cfg m).1))
                          (Some "HTML") None))
  | None =>
      if JS.truthy (text m)
      then Some (Send KMessage (ChatStr channelId) (escapeHTML (finalCaptionText cfg m).2)
                      (mkExtra None (Some "HTML") None))
      else None
  end.

Definition approvalNotice (m : PendingMessage) : Call :=
  Send KMessage (ChatNum (Some (userId m)))
       ("✅ Ваше сообщение было одобрено и опубликовано!"
        +:+ (if decide (publishType m = with_name)
             then " (с вашим именем)" else " (анонимно)"))
       noExtra.

Definition rejectionNotice (m : PendingMessage) : Call :=
  Send KMessage (ChatNum (Some (userId m))) "❌ Ваше сообщение было отклонено." noExtra.

Definition allDoneNotice : Call :=
  Send KMessage (ChatNum (adminId cfg)) "✅ Все сообщения обработаны!" noExtra.

Definition queueEmptyNotice : Call :=
  Send KMessage (ChatNum (adminId cfg)) "Очередь сообщений пуста." noExtra.

Definition notFoundAck : Call := AnswerCbQuery (Some "Сообщение не найдено.").

Definition staleChoiceAck : Call :=
  AnswerCbQuery (Some "Сообщение не найдено или время ожидания истекло.").

Definition noRightsAck : Call :=
  AnswerCbQuery (Some "У вас нет прав для этого действия.").

(** The state once [moveToNextMessage] has removed the record at index 0. *)
Definition afterRemoval (s : BotState) : BotState :=
  mkState 0%nat (delete "0" (pendingMessages s)) (tail (messageQueue s)).

(** What [moveToNextMessage] sends once the record is removed. *)
Definition presentHead (s : BotState) : list Event :=
  match messageQueue s with
  | [] => [event s allDoneNotice]
  | m :: _ =>
      match reviewPost m with
      | Some c => [event s c]
      | None => []
      end
  end.

Definition errorAck : Call := AnswerCbQuery (Some "Произошла ошибка.").

(** The end of [handleAdminCallback] after a known action: the review
    post is deleted and the callback answered; a rejected answer lands in
    the [catch], which answers once more. *)
Definition closeReview (hasMessage : bool) (s : BotState) : list Event :=
  (if hasMessage then [event s DeleteMessage] else [])
  ++ [event s (AnswerCbQuery None)]
  ++ match transport cfg (AnswerCbQuery None) with
     | Some _ => []
     | None => [event s errorAck]
     end.

(** The handler [handleAdminCallback] selects for an action token. *)
Definition decisionHandler (token : string) : M unit :=
  if String.eqb token "admin_approve" then handleApprove cfg
  else if String.eqb token "admin_reject" then handleReject cfg
  else handleSkip cfg.

(** The review post for the head of a queue. *)
Definition headPost (q : list PendingMessage) : list Call :=
  match q with
  | m :: _ => option_list (reviewPost m)
  | [] => []
  end.

(** What one update can do to the state: the new state, the review posts
    sent and the record appended to the queue.  [staged] holds of the keys
    the update may stage.  A resolution into an empty queue is followed by
    the review post of the new record, unless the acknowledgment of the
    choice is rejected first; a removal is followed by the review post of the
    new head. *)
Inductive effect (staged : string → Prop) (s : BotState) :
    BotState → list Call → option PendingMessage → Prop :=
| eff_none :
    effect staged s s [] None
| eff_stage1 k v :
    staged k →
    effect staged s (setMap s (<[k := v]> (pendingMessages s))) [] None
| eff_stage2 k1 v1 k2 v2 :
    staged k1 → staged k2 →
    effect staged s (setMap s (<[k2 := v2]> (<[k1 := v1]> (pendingMessages s)))) [] None
| eff_cancel k1 k2 :
    isStagingKey k1 → isStagingKey k2 →
    effect staged s (setMap s (delete k2 (delete k1 (pendingMessages s)))) [] None
| eff_resolve k1 k2 m posts :
    isStagingKey k1 → isStagingKey k2 →
    posts = [] ∨ (messageQueue s = [] ∧ posts = headPost [m]) →
    (accepting cfg → messageQueue s = [] → posts = headPost [m]) →
    effect staged s
      (mkState (currentMessageIndex s)
         (delete k2 (delete k1
            (<[JS.numToString (Z.of_nat (length (messageQueue s))) := m]>
               (pendingMessages s))))
         (messageQueue s ++ [m]))
      posts (Some m)
| eff_remove :
    effect staged s (afterRemoval s) (headPost (tail (messageQueue s))) None.

End Vocabulary.

(** A post to the destination channel: the only calls addressed by a string
    chat id are those of [publishToChannel]. *)
Definition isChannelPost (c : Call) : bool :=
  match c with
  | Send _ (ChatStr _) _ _ => true
  | _ => false
  end.

(** The body of a text post, the caption of a media post. *)
Definition postContent (c : Call) : option string :=
  match c with
  | Send KMessage _ body _ => Some body
  | Send _ _ _ extra => extra_caption extra
  | _ => None
  end.

Definition channelPosts (t : list Event) : list Call :=
  List.filter isChannelPost (map ev_call t).

(** A status message to a submitter: what [notifyUser] sends in
    [handleApprove] and [handleReject]. *)
Definition isSubmitterNotice (c : Call) : bool :=
  match c with
  | Send KMessage (ChatNum (Some _)) body (mkExtra None None None) =>
      JS.startsWith "✅ Ваше сообщение было одобрено и опубликовано!" body
      || String.eqb body "❌ Ваше сообщение было отклонено."
  | _ => false
  end.

Definition submitterNotices (t : list Event) : list Call :=
  List.filter isSubmitterNotice (map ev_call t).

(** The messages of a trace: the calls that send something to a chat, as
    opposed to the answers to a callback and to the edits and deletions of
    the message a callback came from. *)
Definition isMessage (c : Call) : bool :=
  match c with
  | Send _ _ _ _ | Reply _ _ => true
  | _ => false
  end.

Definition messagesSent (t : list Event) : list Call :=
  List.filter isMessage (map ev_call t).

(** What [moveToNextMessage] sends the administrator once the head has left
    and [rest] is the queue: the review post of the new head, or the notice
    that all messages are processed. *)
Definition nextForReview (cfg : Config) (rest : list PendingMessage) : list Call :=
  match rest with
  | [] => [allDoneNotice cfg]
  | m :: _ => option_list (reviewPost cfg m)
  end.


(** A review post: a message to a numeric chat that carries the three
    decision buttons. *)
Definition isReviewPost (c : Call) : bool :=
  match c with
  | Send _ (ChatNum _) _ (mkExtra _ _ (Some _)) => true
  | _ => false
  end.

Definition reviewPosts (t : list Event) : list Call :=
  List.filter isReviewPost (map ev_call t).

(** The text [publishToChannel] composes from the submission, before the
    signature: the caption of a media post, the body of a text post. *)
Definition userPart (m : PendingMessage) : string :=
  match media m with
  | Some _ => (composeContent m).1
  | None => (composeContent m).2
  end.

(** A decision of the administrator arriving as an update. *)
Definition decision (from : option User) (token : string) (hasMessage : bool) : Update :=
  UpdCallback from (Some token) hasMessage.

(** The records a run appends to the queue, in the order of their
    resolution. *)
Fixpoint arrivals (cfg : Config) (upds : list Update) (s : BotState) : list PendingMessage :=
  match upds with
  | [] => []
  | u :: rest => option_list (resolution u s) ++ arrivals cfg rest (dispatch cfg u s).1
  end.

(** The review post [c] shows the record that arrived at rank [k]. *)
Definition shows (cfg : Config) (arrived : list PendingMessage) (c : Call) (k : nat) : Prop :=
  ∃ m, arrived !! k = Some m ∧ reviewPost cfg m = Some c.

(** The number of records that have left the queue by the end of a run from
    the initial state: those that arrived and are not queued any more. *)
Definition removals (cfg : Config) (upds : list Update) : nat :=
  (length (arrivals cfg upds initialState)
   - length (messageQueue (exec cfg upds initialState).1))%nat.

(** ** Vocabulary of the further properties *)

(** *** Strings *)

(** Every character of [s] passes the test [p]. *)
Fixpoint allChars (p : ascii → bool) (s : string) : bool :=
  match s with
  | EmptyString => true
  | String c r => p c && allChars p r
  end.

Definition isDigit (c : ascii) : bool :=
  let n := nat_of_ascii c in ((48 <=? n) && (n <=? 57))%nat.

(** The characters of a printed integer. *)
Definition isNumeralChar (c : ascii) : bool := isDigit c || Ascii.eqb c "-".

(** What [escapeHTML] writes for one character. *)
Definition escapeChar (c : ascii) : string :=
  if Ascii.eqb c "&" then "&amp;"
  else if Ascii.eqb c "<" then "&lt;"
  else if Ascii.eqb c ">" then "&gt;"
  else String c "".

Definition isAngle (c : ascii) : bool := Ascii.eqb c "<" || Ascii.eqb c ">".

(** The literals of the types of [publishType] and of [media.type]. *)
Definition publishTypeName (p : PublishType) : string :=
  match p with
  | with_name => "with_name"
  | anonymous => "anonymous"
  | pending => "pending"
  end.

Definition mediaTypeName (t : MediaType) : string :=
  match t with
  | photo_t => "photo"
  | video_t => "video"
  | document_t => "document"
  | audio_t => "audio"
  end.

(** The callback data of a choice button:
    [`user_choice:${choice}:${messageId}`]. *)
Definition choiceData (choice : string) (messageId : Z) : string :=
  "user_choice:" +:+ choice +:+ ":" +:+ JS.numToString messageId.

(** *** The state after one update, in closed form *)

(** The object [tempMessage] that [handleUserMessage] builds. *)
Definition tempMessageOf (user : User) (chat : Z) (message : Message)
    (mediaData : option Media) (now : Z) : PendingMessage :=
  mkPending (id user) (first_name user) (tg_username user) (message_id message) chat
            (getMessageText message) (getMessageType message) mediaData now pending None.

(** What [getMediaData] returns: it neither reads the state nor calls
    Telegram. *)
Definition mediaOf (message : Message) : Outcome (option Media) :=
  (getMediaData message initialState).1.1.

(** The prompt with the three choice buttons. *)
Definition choicePrompt (message : Message) : Call :=
  Reply "Как вы хотите опубликовать сообщение?" (Some (choiceButtons (message_id message))).

(** The state [handleUserMessage] leaves: the entry of the submission, and
    the entry of its prompt when the prompt is accepted. *)
Definition stagedState (cfg : Config) (user : User) (chat : Z) (message : Message)
    (now : Z) (s : BotState) : BotState :=
  match mediaOf message with
  | Ok md =>
      let tm := tempMessageOf user chat message md now in
      let staged :=
        <[tempKeyOf (id user) (Some (message_id message)) := tm]> (pendingMessages s) in
      match transport cfg (choicePrompt message) with
      | Some k =>
          setMap s (<[choiceKeyOf (Some (message_id message)) := withChoiceMessageId tm k]>
                      staged)
      | None => setMap s staged
      end
  | Throw _ => s
  end.

(** The state [handleUserChoice] leaves for a [user_choice] callback. *)
Definition chosenState (cfg : Config) (user : User) (data : string) (s : BotState) : BotState :=
  let tk := tempKeyOf (id user) (originalMessageIdOf data) in
  let ck := choiceKeyOf (originalMessageIdOf data) in
  match pendingMessages s !! tk with
  | None => s
  | Some tm =>
      if choiceIs (choiceOf data) "cancel" then
        match transport cfg (EditMessageText "❌ Отправка отменена.") with
        | Some _ => setMap s (delete ck (delete tk (pendingMessages s)))
        | None => s
        end
      else if choiceIs (choiceOf data) "with_name" || choiceIs (choiceOf data) "anonymous" then
        let m := withPublishType tm (if choiceIs (choiceOf data) "with_name"
                                     then with_name else anonymous) in
        mkState (currentMessageIndex s)
          (delete ck (delete tk
             (<[JS.numToString (Z.of_nat (length (messageQueue s))) := m]> (pendingMessages s))))
          (messageQueue s ++ [m])
      else s
  end.

(** The state a decision of the administrator leaves, when the index is 0. *)
Definition decidedState (cfg : Config) (token : string) (s : BotState) : BotState :=
  match messageQueue s with
  | [] => if String.eqb token "admin_skip" then afterRemoval s else s
  | m :: _ =>
      if String.eqb token "admin_approve" then
        if JS.truthy (CHANNEL_ID cfg) then
          match channelPost cfg m with
          | Some c =>
              match transport cfg c with
              | Some _ => afterRemoval s
              | None => s
              end
          | None => afterRemoval s
          end
        else s
      else afterRemoval s
  end.

(** The state one update leaves, when the index is 0. *)
Definition nextState (cfg : Config) (u : Update) (s : BotState) : BotState :=
  match u with
  | UpdStart _ => s
  | UpdMessage (Some user) (Some chat) message now =>
      if isContent message then stagedState cfg user chat message now s else s
  | UpdMessage _ _ _ _ => s
  | UpdCallback (Some user) (Some data) _ =>
      if JS.startsWith "user_choice:" data then chosenState cfg user data s
      else if isAdminAction data && isAdmin cfg (Some user) then decidedState cfg data s
      else s
  | UpdCallback _ _ _ => s
  end.

(** A choice of the author [userId] on the submission [messageId]. *)
Definition choiceOn (userId messageId : Z) (u : Update) : Prop :=
  match u with
  | UpdCallback (Some user) (Some data) _ =>
      JS.startsWith "user_choice:" data = true
      ∧ id user = userId
      ∧ originalMessageIdOf data = Some messageId
  | _ => False
  end.

(** Two configurations with the same environment whose transports give the
    same answer to every choice prompt, accept the same edits of a choice
    prompt and accept the same posts to the destination channel.  They may
    differ on every other call: the messages to the submitters and to the
    administrator, the answers to callback queries, the deletions. *)
Definition sameOutcomes (cfg1 cfg2 : Config) : Prop :=
  BOT_USERNAME cfg1 = BOT_USERNAME cfg2
  ∧ ADMIN_ID cfg1 = ADMIN_ID cfg2
  ∧ CHANNEL_ID cfg1 = CHANNEL_ID cfg2
  ∧ (∀ body markup, transport cfg1 (Reply body markup) = transport cfg2 (Reply body markup))
  ∧ (∀ body, is_Some (transport cfg1 (EditMessageText body))
             ↔ is_Some (transport cfg2 (EditMessageText body)))
  ∧ (∀ c, isChannelPost c = true →
          is_Some (transport cfg1 c) ↔ is_Some (transport cfg2 c)).

(** *** Stored records and keys *)

(** The three shapes of the keys of [pendingMessages]. *)
Definition keyShape (k : string) : Prop :=
  (∃ userId messageId, k = tempKeyOf userId (Some messageId))
  ∨ (∃ messageId, k = choiceKeyOf (Some messageId))
  ∨ (∃ position : nat, k = JS.numToString (Z.of_nat position)).

(** A record whose content type fits what it carries: a record with media
    is of type "text" (the message had a text as well) or of the type of
    its media, a record without media is of type "text" and has a text. *)
Definition coherent (m : PendingMessage) : Prop :=
  match media m with
  | Some md => contentType m = "text" ∨ contentType m = mediaTypeName (type md)
  | None => contentType m = "text" ∧ is_Some (text m)
  end.

(** *** Calls *)

Definition isAnswer (c : Call) : bool :=
  match c with
  | AnswerCbQuery _ => true
  | _ => false
  end.

(** The inline keyboard a call shows, if any. *)
Definition markupOf (c : Call) : option Keyboard :=
  match c with
  | Reply _ markup => markup
  | Send _ _ _ extra => reply_markup extra
  | _ => None
  end.

(** The callback data the handlers of [setupHandlers] take up: the
    middleware [handleUserChoice] and the three [bot.action] triggers. *)
Definition isHandledData (data : string) : bool :=
  JS.startsWith "user_choice:" data || isAdminAction data.

(** Every call a computation makes, in whatever state it starts, passes [E]. *)
Definition emits {A} (E : Call → Prop) (m : M A) : Prop :=
  ∀ s, Forall (λ e, E (ev_call e)) (m s).2.

(** Everything the bot says to Telegram. *)
Inductive uttered (cfg : Config) : Call → Prop :=
| utt_greeting from :
    uttered cfg
      (Reply ("Привет, " +:+ JS.strOrUndefined (first_name <$> from)
              +:+ "! Отправь мне сообщение, и я перешлю его администратору на рассмотрение.")
             None)
| utt_prompt message : uttered cfg (choicePrompt message)
| utt_answer : uttered cfg (AnswerCbQuery None)
| utt_stale : uttered cfg staleChoiceAck
| utt_error : uttered cfg errorAck
| utt_noRights : uttered cfg noRightsAck
| utt_notFound : uttered cfg notFoundAck
| utt_cancelled : uttered cfg (EditMessageText "❌ Отправка отменена.")
| utt_named :
    uttered cfg
      (EditMessageText
         "✅ Сообщение отправлено администратору на рассмотрение (будет опубликовано с вашим именем)!")
| utt_anonymous :
    uttered cfg
      (EditMessageText
         "✅ Сообщение отправлено администратору на рассмотрение (будет опубликовано анонимно)!")
| utt_delete : uttered cfg DeleteMessage
| utt_review m c : reviewPost cfg m = Some c → uttered cfg c
| utt_approval m : uttered cfg (approvalNotice m)
| utt_rejection m : uttered cfg (rejectionNotice m)
| utt_allDone : uttered cfg (allDoneNotice cfg)
| utt_channel m c : channelPost cfg m = Some c → uttered cfg c.

(** What the bot says to anyone but the destination channel. *)
Definition quiet (cfg : Config) (c : Call) : Prop :=
  uttered cfg c ∧ isChannelPost c = false.

(** The destination post an update attempts: only an approval by the
    administrator, with the channel configured, of the record at the current
    index. *)
Definition published (cfg : Config) (u : Update) (s : BotState) : option Call :=
  match u with
  | UpdCallback from (Some data) _ =>
      if String.eqb data "admin_approve" && isAdmin cfg from && JS.truthy (CHANNEL_ID cfg)
      then (messageQueue s !! currentMessageIndex s) ≫= channelPost cfg
      else None
  | _ => None
  end.

(** The destination posts of a trace that Telegram accepted. *)
Definition publications (cfg : Config) (t : list Event) : list Call :=
  List.filter (λ c, bool_decide (is_Some (transport cfg c))) (channelPosts t).

(** ** Concrete configurations and records, for the examples *)

Module Scenario.

(** Every call is accepted; the sent message gets the id 500. *)
Definition cfg : Config :=
  mkConfig "predlozhka_bot" (Some "99") (Some "@channel")
           (fun _ => "01.01.2025, 12:00:00") (fun _ => Some 500).

(** The same bot with no destination channel configured. *)
Definition cfgNoChannel : Config :=
  mkConfig "predlozhka_bot" (Some "99") None
           (fun _ => "01.01.2025, 12:00:00") (fun _ => Some 500).

(** The same bot when Telegram rejects the edit of the choice prompt that
    confirms a cancellation. *)
Definition cfgEditFails : Config :=
  mkConfig "predlozhka_bot" (Some "99") (Some "@channel")
           (fun _ => "01.01.2025, 12:00:00")
           (fun c => match c with
                     | EditMessageText _ => None
                     | _ => Some 500
                     end).

Definition admin : User := mkUser 99 "Root" None.
Definition alice : User := mkUser 7 "Alice" None.
Definition bob : User := mkUser 8 "Bob" (Some "bobby").

Definition helloOf (u : User) (p : PublishType) (body : string) : PendingMessage :=
  mkPending (id u) (first_name u) (tg_username u) 42 (id u)
            (Some body) "text" None 1000 p None.

Definition hello : Message := mkMessage 42 (Some "Hello") None None None None None.
Definition hi : Message := mkMessage 43 (Some "Hi") None None None None None.

(** The queue holds one record and nothing else is staged. *)
Definition oneQueued (m : PendingMessage) : BotState :=
  mkState 0%nat {["0" := m]} [m].

(** A run that fills the queue and empties it again: [n] users submit a
    text message (each in a chat of their own, where it is message 1) and
    choose anonymous; then the administrator skips [n] times. *)
Definition submitter (i : nat) : User := mkUser (Z.of_nat i) "user" None.

Definition textMessage : Message := mkMessage 1 (Some "text") None None None None None.

Definition submission (i : nat) : list Update :=
  [ UpdMessage (Some (submitter i)) (Some (Z.of_nat i)) textMessage 0;
    UpdCallback (Some (submitter i)) (Some "user_choice:anonymous:1") false ].

Fixpoint submissions (n : nat) : list Update :=
  match n with
  | O => []
  | S k => submissions k ++ submission k
  end.

Definition skips (admin : User) (n : nat) : list Update :=
  replicate n (decision (Some admin) "admin_skip" false).

Definition fillAndDrain (admin : User) (n : nat) : list Update :=
  submissions n ++ skips admin n.

(** The same bot when [ADMIN_ID] is not a number. *)
Definition cfgNoAdmin : Config :=
  mkConfig "predlozhka_bot" (Some "admin") (Some "@channel")
           (fun _ => "01.01.2025, 12:00:00") (fun _ => Some 500).

(** The same bot when Telegram accepts the choice prompts, their edits and
    the posts to the channel, and rejects every other call. *)
Definition cfgMuted : Config :=
  mkConfig "predlozhka_bot" (Some "99") (Some "@channel")
           (fun _ => "01.01.2025, 12:00:00")
           (fun c => match c with
                     | Reply _ _ => Some 500
                     | EditMessageText _ => Some 500
                     | Send _ (ChatStr _) _ _ => Some 500
                     | _ => None
                     end).

End Scenario.

(** * Properties *)

(** ** Strings and keys *)

Lemma app_String x a b : String x a +:+ b = String x (a +:+ b).
Proof. reflexivity. Qed.

Lemma app_empty b : "" +:+ b = b.
Proof. reflexivity. Qed.

Lemma app_assoc_s a b c : (a +:+ b) +:+ c = a +:+ (b +:+ c).
Proof. induction a as [|x a IH]; [done|]. by rewrite !app_String, IH. Qed.

Lemma replaceAll_app c rep a b :
  JS.replaceAll c rep (a +:+ b) = JS.replaceAll c rep a +:+ JS.replaceAll c rep b.
Proof.
  induction a as [|x a IH]; [done|].
  rewrite app_String. simpl.
  destruct (Ascii.eqb x c); rewrite IH; [|done].
  by rewrite app_assoc_s.
Qed.

Lemma escapeHTML_app a b : escapeHTML (a +:+ b) = escapeHTML a +:+ escapeHTML b.
Proof. unfold escapeHTML. by rewrite !replaceAll_app. Qed.

Lemma prefix_app a b : String.prefix a (a +:+ b) = true.
Proof.
  induction a as [|x a IH]; [by destruct b|].
  rewrite app_String. simpl.
  destruct (ascii_dec x x); [done|congruence].
Qed.




Lemma pretty_N_go_numericHead x s : numericHead s → numericHead (pretty_N_go x s).
Proof.
  revert s. induction (N.lt_wf_0 x) as [x _ IH]; intros s Hs.
  destruct (decide (x = 0)%N) as [->|Hx]; [by rewrite pretty_N_go_0|].
  rewrite pretty_N_go_step by lia.
  apply IH; [apply N.div_lt; lia|].
  simpl. unfold pretty_N_char. by repeat case_match.
Qed.

Lemma numToString_numericHead z : numericHead (JS.numToString z).
Proof.
  unfold JS.numToString, pretty, pretty_Z.
  destruct z as [|p|p]; [done| |].
  - unfold pretty, pretty_positive, pretty, pretty_N.
    case_decide; [done|]. by apply pretty_N_go_numericHead.
  - done.
Qed.

Lemma numToString_ne_temp z x : JS.numToString z ≠ "temp_" +:+ x.
Proof. intros E. pose proof (numToString_numericHead z) as H. rewrite E in H. by destruct H. Qed.

Lemma numToString_ne_choice z x : JS.numToString z ≠ "choice_" +:+ x.
Proof. intros E. pose proof (numToString_numericHead z) as H. rewrite E in H. by destruct H. Qed.

Lemma numToString_inj a b : JS.numToString a = JS.numToString b → a = b.
Proof. apply pretty_Z_inj. Qed.

Lemma numToString_0 : JS.numToString 0 = "0".
Proof. reflexivity. Qed.

(** ** What each handler does *)

Arguments call : simpl never.
Arguments notifyUser : simpl never.
Arguments sendToAdmin : simpl never.
Arguments sendMessageToAdmin : simpl never.
Arguments showNextMessageToAdmin : simpl never.
Arguments moveToNextMessage : simpl never.
Arguments publishToChannel : simpl never.
Arguments handleApprove : simpl never.
Arguments handleReject : simpl never.
Arguments handleSkip : simpl never.
Arguments handleAdminCallback : simpl never.
Arguments handleUserChoice : simpl never.
Arguments handleUserMessage : simpl never.
Arguments formatMessageCaption : simpl never.
Arguments reviewPost : simpl never.
Arguments channelPost : simpl never.
Arguments event : simpl never.

Ltac unfold_m :=
  unfold mbind, M_bind, mret, M_ret, bind, ret, throw, try_catch,
    map_set, map_delete, queue_push, queue_splice, set_index, gets, modify.

Section Runs.

Context (cfg : Config).

Lemma call_run c s :
  call cfg c s =
  (match transport cfg c with
   | Some k => Ok k
   | None => Throw (TransportError c)
   end, s, [event cfg s c]).
Proof. unfold call, event. by destruct (transport cfg c). Qed.

Lemma notifyUser_run uid body s :
  notifyUser cfg uid body s =
  (Ok tt, s, [event cfg s (Send KMessage (ChatNum (Some uid)) body noExtra)]).
Proof.
  unfold notifyUser. unfold_m. rewrite call_run.
  by destruct (transport cfg _).
Qed.

Lemma sendToAdmin_run body s :
  sendToAdmin cfg body s =
  (Ok tt, s, [event cfg s (Send KMessage (ChatNum (adminId cfg)) body noExtra)]).
Proof.
  unfold sendToAdmin. unfold_m. rewrite call_run.
  by destruct (transport cfg _).
Qed.

Lemma sendMessageToAdmin_run m s :
  sendMessageToAdmin cfg m s =
  (Ok tt, s, match reviewPost cfg m with
             | Some c => [event cfg s c]
             | None => []
             end).
Proof.
  unfold sendMessageToAdmin, reviewPost. unfold_m.
  destruct (media m) as [md|].
  - rewrite call_run. by destruct (transport cfg _).
  - destruct (JS.truthy (text m)); [|done].
    rewrite call_run. by destruct (transport cfg _).
Qed.

Lemma showNextMessageToAdmin_run pm q :
  showNextMessageToAdmin cfg (mkState 0 pm q) =
  (Ok tt, mkState 0 pm q,
   match q with
   | [] => [event cfg (mkState 0 pm q) (queueEmptyNotice cfg)]
   | m :: _ =>
       match reviewPost cfg m with
       | Some c => [event cfg (mkState 0 pm q) c]
       | None => []
       end
   end).
Proof.
  unfold showNextMessageToAdmin. unfold_m. simpl.
  destruct q as [|m q]; simpl.
  - by rewrite sendToAdmin_run.
  - by rewrite sendMessageToAdmin_run.
Qed.

Lemma moveToNextMessage_run pm q :
  moveToNextMessage cfg (mkState 0 pm q) =
  (Ok tt, afterRemoval (mkState 0 pm q),
   presentHead cfg (afterRemoval (mkState 0 pm q))).
Proof.
  unfold moveToNextMessage, afterRemoval, presentHead. unfold_m. simpl.
  change (Z.of_nat 0) with 0. rewrite numToString_0.
  destruct q as [|m [|m' q]]; simpl.
  - by rewrite sendToAdmin_run.
  - by rewrite sendToAdmin_run.
  - by rewrite showNextMessageToAdmin_run.
Qed.

End Runs.

(** Runs the Telegram calls of a goal, one case per answer of the
    transport. *)
Ltac run_calls cfg :=
  repeat first
    [ rewrite call_run
    | progress simpl
    | match goal with
      | |- context [transport cfg ?c] => destruct (transport cfg c) eqn:?
      end ].

Section Publishing.

Context (cfg : Config).

Lemma truthy_Some_app a b : b ≠ "" → JS.truthy (Some (a +:+ b)) = true.
Proof. intros Hb. destruct a; [by destruct b|done]. Qed.

Lemma signature_nonempty : signature cfg ≠ "".
Proof. done. Qed.

Lemma or_signature a :
  (if JS.truthy (Some a) then a +:+ signature cfg else signature cfg)
  = a +:+ signature cfg.
Proof. by destruct a. Qed.

(** The caption of a media post and the body of a text post: the composed
    text followed by the signature. *)
Lemma finalCaptionText_media m md :
  media m = Some md →
  (finalCaptionText cfg m).1 = (composeContent m).1 +:+ signature cfg.
Proof.
  intros Hm. unfold finalCaptionText.
  destruct (composeContent m) as [fc ft]. rewrite Hm. simpl.
  apply or_signature.
Qed.

Lemma finalCaptionText_text m :
  media m = None →
  (finalCaptionText cfg m).2 = (composeContent m).2 +:+ signature cfg.
Proof.
  intros Hm. unfold finalCaptionText.
  destruct (composeContent m) as [fc ft]. rewrite Hm. simpl.
  apply or_signature.
Qed.

Lemma publishToChannel_run m s :
  publishToChannel cfg m s =
  if JS.truthy (CHANNEL_ID cfg) then
    match channelPost cfg m with
    | Some c =>
        (match transport cfg c with
         | Some _ => Ok tt
         | None => Throw (TransportError c)
         end, s, [event cfg s c])
    | None => (Ok tt, s, [])
    end
  else (Throw (ConfigurationError "CHANNEL_ID is not configured"), s, []).
Proof.
  unfold publishToChannel, channelPost.
  destruct (JS.truthy (CHANNEL_ID cfg)); [|done].
  unfold_m.
  destruct (media m) as [md|] eqn:Hm.
  - pose proof (finalCaptionText_media m md Hm) as Hfc.
    destruct (finalCaptionText cfg m) as [fc ft]. simpl in Hfc. subst fc.
    cbv beta iota. rewrite truthy_Some_app by apply signature_nonempty.
    rewrite call_run. by destruct (transport cfg _).
  - destruct (finalCaptionText cfg m) as [fc ft]. simpl.
    destruct (JS.truthy (text m)); [|done].
    rewrite call_run. by destruct (transport cfg _).
Qed.

End Publishing.

Section Decisions.

Context (cfg : Config).

Lemma handleApprove_empty s :
  currentMessageIndex s = 0%nat →
  messageQueue s = [] →
  handleApprove cfg s =
  (match transport cfg notFoundAck with
   | Some _ => Ok tt
   | None => Throw (TransportError notFoundAck)
   end, s, [event cfg s notFoundAck]).
Proof.
  destruct s as [i pm q]. simpl. intros -> ->.
  unfold handleApprove. unfold_m. simpl. rewrite call_run.
  by destruct (transport cfg _).
Qed.

Lemma handleReject_empty s :
  currentMessageIndex s = 0%nat →
  messageQueue s = [] →
  handleReject cfg s =
  (match transport cfg notFoundAck with
   | Some _ => Ok tt
   | None => Throw (TransportError notFoundAck)
   end, s, [event cfg s notFoundAck]).
Proof.
  destruct s as [i pm q]. simpl. intros -> ->.
  unfold handleReject. unfold_m. simpl. rewrite call_run.
  by destruct (transport cfg _).
Qed.

Lemma handleApprove_run s m rest :
  currentMessageIndex s = 0%nat →
  messageQueue s = m :: rest →
  handleApprove cfg s =
  match publishToChannel cfg m s with
  | (Ok _, _, t) =>
      (Ok tt, afterRemoval s,
       t ++ [event cfg s (approvalNotice m)] ++ presentHead cfg (afterRemoval s))
  | (Throw e, _, t) => (Throw e, s, t)
  end.
Proof.
  destruct s as [i pm q]. simpl. intros -> ->.
  unfold handleApprove. unfold_m. simpl.
  rewrite publishToChannel_run.
  destruct (JS.truthy (CHANNEL_ID cfg)); [|done].
  destruct (channelPost cfg m) as [c|].
  - destruct (transport cfg c); [|done].
    rewrite notifyUser_run. rewrite moveToNextMessage_run. done.
  - rewrite notifyUser_run. rewrite moveToNextMessage_run. done.
Qed.

Lemma handleReject_run s m rest :
  currentMessageIndex s = 0%nat →
  messageQueue s = m :: rest →
  handleReject cfg s =
  (Ok tt, afterRemoval s,
   [event cfg s (rejectionNotice m)] ++ presentHead cfg (afterRemoval s)).
Proof.
  destruct s as [i pm q]. simpl. intros -> ->.
  unfold handleReject. unfold_m. simpl.
  rewrite notifyUser_run.
  by rewrite moveToNextMessage_run.
Qed.

Lemma handleSkip_run s :
  currentMessageIndex s = 0%nat →
  handleSkip cfg s = (Ok tt, afterRemoval s, presentHead cfg (afterRemoval s)).
Proof.
  destruct s as [i pm q]. simpl. intros ->. apply moveToNextMessage_run.
Qed.

Lemma decisionHandler_approve : decisionHandler cfg "admin_approve" = handleApprove cfg.
Proof. reflexivity. Qed.

Lemma decisionHandler_reject : decisionHandler cfg "admin_reject" = handleReject cfg.
Proof. reflexivity. Qed.

Lemma decisionHandler_skip : decisionHandler cfg "admin_skip" = handleSkip cfg.
Proof. reflexivity. Qed.

Lemma isAdminAction_cases tok :
  isAdminAction tok = true →
  tok = "admin_approve" ∨ tok = "admin_reject" ∨ tok = "admin_skip".
Proof.
  unfold isAdminAction. rewrite !orb_true_iff, !String.eqb_eq. tauto.
Qed.

Lemma handleAdminCallback_admin from tok hm s :
  isAdmin cfg from = true →
  isAdminAction tok = true →
  handleAdminCallback cfg (decision from tok hm) s =
  match decisionHandler cfg tok s with
  | (Ok _, s', t) =>
      (match transport cfg (AnswerCbQuery None) with
       | Some _ => Ok tt
       | None =>
           match transport cfg errorAck with
           | Some _ => Ok tt
           | None => Throw (TransportError errorAck)
           end
       end, s', t ++ closeReview cfg hm s')
  | (Throw _, s', t) =>
      (match transport cfg errorAck with
       | Some _ => Ok tt
       | None => Throw (TransportError errorAck)
       end, s', t ++ [event cfg s' errorAck])
  end.
Proof.
  intros Ha Htok. unfold handleAdminCallback, decision, decisionHandler, closeReview.
  rewrite Ha. simpl negb. cbv iota.
  assert (∀ (h : M unit),
    try_catch
      (known ← (h;; mret true);
       if known : bool then
         (if hm then try_catch (call cfg DeleteMessage;; mret tt) (fun _ => mret tt)
          else mret tt);;
         call cfg (AnswerCbQuery None);; mret tt
       else mret tt)
      (fun _ => call cfg (AnswerCbQuery (Some "Произошла ошибка."));; mret tt) s =
    match h s with
    | (Ok _, s', t) =>
        (match transport cfg (AnswerCbQuery None) with
         | Some _ => Ok tt
         | None =>
             match transport cfg errorAck with
             | Some _ => Ok tt
             | None => Throw (TransportError errorAck)
             end
         end, s',
         t ++ (if hm then [event cfg s' DeleteMessage] else [])
           ++ [event cfg s' (AnswerCbQuery None)]
           ++ match transport cfg (AnswerCbQuery None) with
              | Some _ => []
              | None => [event cfg s' errorAck]
              end)
    | (Throw _, s', t) =>
        (match transport cfg errorAck with
         | Some _ => Ok tt
         | None => Throw (TransportError errorAck)
         end, s', t ++ [event cfg s' errorAck])
    end) as Hgen.
  { intros h. unfold_m. destruct (h s) as [[[[]|e] s1] t1].
    - unfold errorAck. destruct hm; run_calls cfg; by rewrite ?app_nil_r, <-?app_assoc.
    - unfold errorAck. by run_calls cfg. }
  destruct (isAdminAction_cases tok Htok) as [->|[->| ->]]; simpl; apply Hgen.
Qed.

Lemma dispatch_decision from tok hm s :
  isAdminAction tok = true →
  dispatch cfg (decision from tok hm) s =
  match handleAdminCallback cfg (decision from tok hm) s with
  | (_, s', t) => (s', t)
  end.
Proof.
  intros Htok. unfold dispatch, middleware, decision, handleUserChoice, adminActions.
  assert (JS.startsWith "user_choice:" tok = false) as Hp.
  { by destruct (isAdminAction_cases tok Htok) as [->|[->| ->]]. }
  assert (∀ (h : M unit), try_catch h (handleError) s =
            match h s with (r, s', t) =>
              (match r with Ok a => Ok a | Throw _ => Ok tt end, s', t) end) as Hc.
  { intros h. unfold try_catch, handleError. unfold_m.
    destruct (h s) as [[[[]|e] s1] t1]; by rewrite ?app_nil_r. }
  destruct from as [u|]; rewrite ?Hp, Htok, Hc;
    by destruct (handleAdminCallback _ _ _) as [[r s1] t1].
Qed.

(** A decision of the administrator, as one step of the bot. *)
Lemma dispatch_admin from tok hm s :
  isAdmin cfg from = true →
  isAdminAction tok = true →
  dispatch cfg (decision from tok hm) s =
  match decisionHandler cfg tok s with
  | (Ok _, s', t) => (s', t ++ closeReview cfg hm s')
  | (Throw _, s', t) => (s', t ++ [event cfg s' errorAck])
  end.
Proof.
  intros Ha Htok. rewrite dispatch_decision, handleAdminCallback_admin by done.
  by destruct (decisionHandler cfg tok s) as [[[[]|e] s1] t1].
Qed.

(** Anyone else is turned away. *)
Lemma dispatch_not_admin from tok hm s :
  isAdmin cfg from = false →
  isAdminAction tok = true →
  dispatch cfg (decision from tok hm) s = (s, [event cfg s noRightsAck]).
Proof.
  intros Ha Htok. rewrite dispatch_decision by done.
  unfold handleAdminCallback, decision. rewrite Ha.
  unfold_m. cbn [negb]. rewrite call_run. unfold noRightsAck.
  by destruct (transport cfg _).
Qed.

End Decisions.

(** ** The calls in a trace *)

Section Traces.

Context (cfg : Config).

Lemma channelPosts_app t1 t2 : channelPosts (t1 ++ t2) = channelPosts t1 ++ channelPosts t2.
Proof. unfold channelPosts. by rewrite map_app, List.filter_app. Qed.

Lemma submitterNotices_app t1 t2 :
  submitterNotices (t1 ++ t2) = submitterNotices t1 ++ submitterNotices t2.
Proof. unfold submitterNotices. by rewrite map_app, List.filter_app. Qed.

Lemma reviewPosts_app t1 t2 : reviewPosts (t1 ++ t2) = reviewPosts t1 ++ reviewPosts t2.
Proof. unfold reviewPosts. by rewrite map_app, List.filter_app. Qed.

Lemma channelPosts_event s c t :
  channelPosts (event cfg s c :: t)
  = if isChannelPost c then c :: channelPosts t else channelPosts t.
Proof. reflexivity. Qed.

Lemma submitterNotices_event s c t :
  submitterNotices (event cfg s c :: t)
  = if isSubmitterNotice c then c :: submitterNotices t else submitterNotices t.
Proof. reflexivity. Qed.

Lemma reviewPosts_event s c t :
  reviewPosts (event cfg s c :: t)
  = if isReviewPost c then c :: reviewPosts t else reviewPosts t.
Proof. reflexivity. Qed.

Lemma reviewPost_kind m c :
  reviewPost cfg m = Some c →
  isReviewPost c = true ∧ isChannelPost c = false ∧ isSubmitterNotice c = false.
Proof.
  unfold reviewPost. destruct (media m) as [md|].
  - intros [= <-]. simpl. by destruct (sendKind (type md)), (adminId cfg).
  - destruct (JS.truthy (text m)); [|done]. intros [= <-]. simpl.
    by destruct (adminId cfg).
Qed.

Lemma channelPost_kind m c :
  channelPost cfg m = Some c →
  isChannelPost c = true ∧ isReviewPost c = false ∧ isSubmitterNotice c = false.
Proof.
  unfold channelPost. destruct (media m) as [md|].
  - intros [= <-]. simpl. by destruct (sendKind (type md)).
  - destruct (JS.truthy (text m)); [|done]. by intros [= <-].
Qed.

Lemma approvalNotice_kind m :
  isSubmitterNotice (approvalNotice m) = true
  ∧ isChannelPost (approvalNotice m) = false
  ∧ isReviewPost (approvalNotice m) = false.
Proof.
  unfold approvalNotice. simpl. split; [|done].
  apply orb_true_iff. left. unfold JS.startsWith. apply prefix_app.
Qed.

Lemma rejectionNotice_kind m :
  isSubmitterNotice (rejectionNotice m) = true
  ∧ isChannelPost (rejectionNotice m) = false
  ∧ isReviewPost (rejectionNotice m) = false.
Proof. done. Qed.

Lemma presentHead_kinds s :
  channelPosts (presentHead cfg s) = [] ∧ submitterNotices (presentHead cfg s) = [].
Proof.
  unfold presentHead, channelPosts, submitterNotices.
  destruct (messageQueue s) as [|m q].
  - simpl. unfold allDoneNotice. by destruct (adminId cfg).
  - destruct (reviewPost cfg m) as [c|] eqn:Hc; [|done].
    apply reviewPost_kind in Hc as (_ & H1 & H2). simpl. by rewrite H1, H2.
Qed.

Lemma closeReview_kinds hm s :
  channelPosts (closeReview cfg hm s) = []
  ∧ submitterNotices (closeReview cfg hm s) = []
  ∧ reviewPosts (closeReview cfg hm s) = [].
Proof.
  unfold closeReview, channelPosts, submitterNotices, reviewPosts.
  by destruct hm, (transport cfg (AnswerCbQuery None)).
Qed.




(** What a destination post carries: the composed text and the signature,
    both run through [escapeHTML]. *)
Lemma channelPost_content m c :
  channelPost cfg m = Some c →
  postContent c = Some (escapeHTML (userPart m) +:+ escapeHTML (signature cfg)).
Proof.
  unfold channelPost, userPart. destruct (media m) as [md|] eqn:Hm.
  - intros [= <-]. rewrite (finalCaptionText_media cfg m md Hm), escapeHTML_app.
    by destruct (type md).
  - destruct (JS.truthy (text m)); [|done]. intros [= <-].
    by rewrite (finalCaptionText_text cfg m Hm), escapeHTML_app.
Qed.

Lemma escapeHTML_signature : escapeHTML (signature cfg) ≠ signature cfg.
Proof. unfold signature. cbv. congruence. Qed.

(** The messages among the calls. *)
Lemma messagesSent_app t1 t2 : messagesSent (t1 ++ t2) = messagesSent t1 ++ messagesSent t2.
Proof. unfold messagesSent. by rewrite map_app, List.filter_app. Qed.

Lemma messagesSent_event s c t :
  messagesSent (event cfg s c :: t)
  = if isMessage c then c :: messagesSent t else messagesSent t.
Proof. reflexivity. Qed.

Lemma reviewPost_message m c : reviewPost cfg m = Some c → isMessage c = true.
Proof.
  unfold reviewPost. destruct (media m) as [md|]; [by intros [= <-]|].
  destruct (JS.truthy (text m)); [|done]. by intros [= <-].
Qed.

Lemma channelPost_message m c : channelPost cfg m = Some c → isMessage c = true.
Proof.
  unfold channelPost. destruct (media m) as [md|]; [by intros [= <-]|].
  destruct (JS.truthy (text m)); [|done]. by intros [= <-].
Qed.

Lemma presentHead_messages s :
  messagesSent (presentHead cfg s) = nextForReview cfg (messageQueue s).
Proof.
  unfold presentHead, nextForReview. destruct (messageQueue s) as [|m q]; [done|].
  destruct (reviewPost cfg m) as [c|] eqn:Hc; [|done].
  cbn [option_list]. by rewrite messagesSent_event, (reviewPost_message m c Hc).
Qed.

Lemma closeReview_messages hm s : messagesSent (closeReview cfg hm s) = [].
Proof.
  unfold closeReview, messagesSent.
  by destruct hm, (transport cfg (AnswerCbQuery None)).
Qed.


End Traces.

(** ** What one update does *)

Section Steps.

Context (cfg : Config).

Lemma tempKeyOf_staging u i : isStagingKey (tempKeyOf u i).
Proof. eexists. left. reflexivity. Qed.

Lemma choiceKeyOf_staging i : isStagingKey (choiceKeyOf i).
Proof. eexists. right. reflexivity. Qed.

Lemma handleUserMessage_effect from chat message now s :
  effect cfg (stagedBy (UpdMessage from chat message now)) s
         (handleUserMessage cfg from chat (Some message) now s).1.2
         (reviewPosts (handleUserMessage cfg from chat (Some message) now s).2) None.
Proof.
  unfold handleUserMessage.
  destruct from as [user|]; try apply eff_none.
  unfold_m.
  destruct chat as [c|]; [|apply eff_none].
  destruct (getMediaData message s) as [[[md|e] s1] t1] eqn:Hmd.
  - assert (s1 = s ∧ t1 = []) as [-> ->].
    { revert Hmd. unfold getMediaData. unfold_m.
      destruct (photo message) as [l|]; [destruct (last l)|];
        destruct (video message), (document message), (audio message);
        by intros [= <- <-]. }
    cbv beta iota. rewrite call_run. cbn [app].
    destruct (transport cfg _); cbn [fst snd].
    + cbn [currentMessageIndex pendingMessages messageQueue].
      apply (eff_stage2 cfg _ s); [by left|by right].
    + apply (eff_stage1 cfg _ s). by left.
  - assert (s1 = s ∧ t1 = []) as [-> ->].
    { revert Hmd. unfold getMediaData. unfold_m.
      destruct (photo message) as [l|]; [destruct (last l)|];
        destruct (video message), (document message), (audio message);
        by intros [= <- <-]. }
    apply eff_none.
Qed.

Lemma choiceIs_exclusive choice a b :
  a ≠ b → choiceIs choice a = true → choiceIs choice b = false.
Proof.
  destruct choice as [c|]; [|done]. simpl.
  intros Hab ->%String.eqb_eq. by apply String.eqb_neq.
Qed.

Lemma handleUserChoice_stale user data hm next s :
  JS.startsWith "user_choice:" data = true →
  pendingMessages s !! tempKeyOf (id user) (originalMessageIdOf data) = None →
  handleUserChoice cfg (UpdCallback (Some user) (Some data) hm) next s =
  (match transport cfg staleChoiceAck with
   | Some _ => Ok tt
   | None => Throw (TransportError staleChoiceAck)
   end, s, [event cfg s staleChoiceAck]).
Proof.
  intros Hp Hl. unfold handleUserChoice. rewrite Hp. unfold_m. cbv beta iota.
  rewrite Hl, call_run. unfold staleChoiceAck. by destruct (transport cfg _).
Qed.

Lemma handleUserChoice_staged staged user data hm next s tm :
  currentMessageIndex s = 0%nat →
  JS.startsWith "user_choice:" data = true →
  pendingMessages s !! tempKeyOf (id user) (originalMessageIdOf data) = Some tm →
  effect cfg staged s
    (handleUserChoice cfg (UpdCallback (Some user) (Some data) hm) next s).1.2
    (reviewPosts (handleUserChoice cfg (UpdCallback (Some user) (Some data) hm) next s).2)
    (resolution (UpdCallback (Some user) (Some data) hm) s).
Proof.
  destruct s as [i pm q]. cbn [currentMessageIndex pendingMessages].
  intros -> Hp Hl. unfold handleUserChoice, resolution. rewrite Hp.
  cbn [pendingMessages]. rewrite Hl.
  set (tk := tempKeyOf (id user) (originalMessageIdOf data)) in *.
  set (ck := choiceKeyOf (originalMessageIdOf data)) in *.
  assert (isStagingKey tk) as Htk by apply tempKeyOf_staging.
  assert (isStagingKey ck) as Hck by apply choiceKeyOf_staging.
  clearbody tk ck.
  unfold_m. cbv beta iota. cbn [pendingMessages]. rewrite Hl.
  destruct (choiceIs (choiceOf data) "cancel") eqn:Hcancel.
  - rewrite (choiceIs_exclusive _ "cancel" "with_name") by done.
    rewrite (choiceIs_exclusive _ "cancel" "anonymous") by done.
    run_calls cfg;
      first [ by apply (eff_cancel cfg staged (mkState 0 pm q)) | apply eff_none ].
  - cbn [orb].
    destruct (choiceIs (choiceOf data) "with_name") eqn:Hwn;
      [|destruct (choiceIs (choiceOf data) "anonymous") eqn:Han].
    3: { run_calls cfg; apply eff_none. }
    all: cbn [orb]; cbv beta iota.
    all: cbn [currentMessageIndex pendingMessages messageQueue].
    all: rewrite !length_app; cbn [length].
    all: replace (length q + 1 - 1)%nat with (length q) by lia.
    all: destruct q as [|m0 q]; cbn [length Nat.eqb Nat.add app].
    all: repeat first
           [ rewrite call_run
           | rewrite showNextMessageToAdmin_run
           | rewrite length_app, Nat.add_1_r
           | progress simpl
           | match goal with
             | |- context [transport cfg ?c] => destruct (transport cfg c) eqn:?
             | |- context [reviewPost cfg ?m] => destruct (reviewPost cfg m) eqn:?
             end ].
    all: rewrite ?reviewPosts_event.
    all: repeat match goal with
           | H : reviewPost cfg _ = Some ?c |- context [isReviewPost ?c] =>
               rewrite (proj1 (reviewPost_kind cfg _ _ H))
           end.
    all: cbn [isReviewPost].
    all: first [ apply (eff_resolve cfg staged (mkState 0 pm [])); [done|done| |]
               | apply (eff_resolve cfg staged (mkState 0 pm (m0 :: q))); [done|done| |] ].
    all: unfold headPost.
    all: repeat match goal with
           | H : reviewPost cfg _ = _ |- _ => rewrite H
           end.
    all: first
           [ by left
           | by right
           | intros Hacc Hq0; first
               [ done
               | match goal with
                 | H : transport cfg ?c = None |- _ =>
                     destruct (Hacc c) as [? Hx]; congruence
                 end ] ].
Qed.

Lemma reviewPosts_presentHead s :
  reviewPosts (presentHead cfg s) = headPost cfg (messageQueue s).
Proof.
  unfold presentHead, headPost. destruct (messageQueue s) as [|m q].
  - rewrite reviewPosts_event. unfold allDoneNotice. by destruct (adminId cfg).
  - destruct (reviewPost cfg m) as [c|] eqn:Hc; [|done].
    rewrite reviewPosts_event. by rewrite (proj1 (reviewPost_kind cfg m c Hc)).
Qed.

Lemma removal_effect staged s t1 hm :
  reviewPosts t1 = [] →
  effect cfg staged s (afterRemoval s)
    (reviewPosts (t1 ++ presentHead cfg (afterRemoval s)
                     ++ closeReview cfg hm (afterRemoval s)))
    None.
Proof.
  intros Ht1. rewrite !reviewPosts_app, Ht1.
  rewrite (proj2 (proj2 (closeReview_kinds cfg hm (afterRemoval s)))), app_nil_r.
  rewrite reviewPosts_presentHead. apply eff_remove.
Qed.

Lemma handleAdminCallback_effect staged from tok hm s :
  currentMessageIndex s = 0%nat →
  isAdminAction tok = true →
  effect cfg staged s (handleAdminCallback cfg (decision from tok hm) s).1.2
         (reviewPosts (handleAdminCallback cfg (decision from tok hm) s).2) None.
Proof.
  intros Hi Htok.
  destruct (isAdmin cfg from) eqn:Ha.
  2: { pose proof (dispatch_not_admin cfg from tok hm s Ha Htok) as Hd.
       rewrite dispatch_decision in Hd by done.
       destruct (handleAdminCallback _ _ _) as [[r s1] t1].
       injection Hd as -> ->. apply eff_none. }
  rewrite handleAdminCallback_admin by done.
  pose proof (closeReview_kinds cfg hm s) as (_ & _ & Hcr).
  destruct (isAdminAction_cases tok Htok) as [->|[->| ->]].
  - rewrite decisionHandler_approve.
    destruct (messageQueue s) as [|m rest] eqn:Hq.
    + rewrite (handleApprove_empty cfg s Hi Hq).
      destruct (transport cfg notFoundAck); cbn [fst snd];
        rewrite ?reviewPosts_app, ?Hcr; apply eff_none.
    + rewrite (handleApprove_run cfg s m rest Hi Hq), publishToChannel_run.
      destruct (JS.truthy (CHANNEL_ID cfg)); [|apply eff_none].
      destruct (channelPost cfg m) as [c|] eqn:Hc.
      * pose proof (channelPost_kind cfg m c Hc) as (_ & Hr & _).
        destruct (transport cfg c); cbn [fst snd].
        -- rewrite <-!app_assoc.
           apply (removal_effect staged s [event cfg s c; event cfg s (approvalNotice m)]).
           by rewrite !reviewPosts_event, Hr.
        -- rewrite reviewPosts_app. cbn [app]. rewrite !reviewPosts_event, Hr.
           apply eff_none.
      * cbn [fst snd]. rewrite <-!app_assoc.
        by apply (removal_effect staged s [event cfg s (approvalNotice m)]).
  - rewrite decisionHandler_reject.
    destruct (messageQueue s) as [|m rest] eqn:Hq.
    + rewrite (handleReject_empty cfg s Hi Hq).
      destruct (transport cfg notFoundAck); cbn [fst snd];
        rewrite ?reviewPosts_app, ?Hcr; apply eff_none.
    + rewrite (handleReject_run cfg s m rest Hi Hq). cbn [fst snd].
      rewrite <-!app_assoc.
      by apply (removal_effect staged s [event cfg s (rejectionNotice m)]).
  - rewrite decisionHandler_skip, (handleSkip_run cfg s Hi). cbn [fst snd].
    by apply (removal_effect staged s []).
Qed.

Lemma dispatch_middleware u s :
  dispatch cfg u s = ((middleware cfg u s).1.2, (middleware cfg u s).2).
Proof.
  unfold dispatch, try_catch, handleError. unfold_m.
  destruct (middleware cfg u s) as [[[[]|e] s1] t1]; by rewrite ?app_nil_r.
Qed.

Lemma adminActions_effect staged u s :
  currentMessageIndex s = 0%nat →
  effect cfg staged s (adminActions cfg u s).1.2 (reviewPosts (adminActions cfg u s).2) None.
Proof.
  intros Hi. unfold adminActions.
  destruct u as [from|from chat message now|from [d|] hm]; try apply eff_none.
  destruct (isAdminAction d) eqn:Hd; [|apply eff_none].
  by apply handleAdminCallback_effect.
Qed.

(** Every update, on a state whose index is 0. *)
Lemma dispatch_effect u s :
  currentMessageIndex s = 0%nat →
  effect cfg (stagedBy u) s (dispatch cfg u s).1 (reviewPosts (dispatch cfg u s).2)
         (resolution u s).
Proof.
  intros Hi. rewrite dispatch_middleware. cbn [fst snd].
  pose proof (adminActions_effect (stagedBy u) u s Hi) as Hnext.
  destruct u as [from|from chat message now|from data hm]; unfold middleware.
  - unfold handleStart. unfold_m. rewrite call_run.
    destruct (transport cfg _); apply eff_none.
  - destruct (isContent message); [apply handleUserMessage_effect|].
    exact Hnext.
  - destruct from as [user|], data as [d|]; try exact Hnext.
    destruct (JS.startsWith "user_choice:" d) eqn:Hp.
    + destruct (pendingMessages s !! tempKeyOf (id user) (originalMessageIdOf d))
        as [tm|] eqn:Hl.
      * by apply (handleUserChoice_staged _ user d hm _ s tm).
      * rewrite handleUserChoice_stale by done.
        unfold resolution. rewrite Hp, Hl. apply eff_none.
    + unfold resolution. rewrite Hp.
      unfold handleUserChoice. rewrite Hp. exact Hnext.
Qed.

Lemma effect_index staged s s' posts arrival :
  currentMessageIndex s = 0%nat →
  effect cfg staged s s' posts arrival →
  currentMessageIndex s' = 0%nat.
Proof. intros Hi H. by destruct H. Qed.

Lemma reachable_index s : reachable cfg s → currentMessageIndex s = 0%nat.
Proof.
  induction 1 as [|s u _ IH]; [done|].
  eapply effect_index, dispatch_effect; done.
Qed.

(** The state a [user_choice] callback for a staged submission leaves. *)
Lemma handleUserChoice_staged_state user data hm next s tm :
  currentMessageIndex s = 0%nat →
  JS.startsWith "user_choice:" data = true →
  pendingMessages s !! tempKeyOf (id user) (originalMessageIdOf data) = Some tm →
  let tk := tempKeyOf (id user) (originalMessageIdOf data) in
  let ck := choiceKeyOf (originalMessageIdOf data) in
  (handleUserChoice cfg (UpdCallback (Some user) (Some data) hm) next s).1.2 =
  if choiceIs (choiceOf data) "cancel" then
    match transport cfg (EditMessageText "❌ Отправка отменена.") with
    | Some _ => setMap s (delete ck (delete tk (pendingMessages s)))
    | None => s
    end
  else if choiceIs (choiceOf data) "with_name" || choiceIs (choiceOf data) "anonymous" then
    let m := withPublishType tm (if choiceIs (choiceOf data) "with_name"
                                 then with_name else anonymous) in
    mkState 0
      (delete ck (delete tk
         (<[JS.numToString (Z.of_nat (length (messageQueue s))) := m]> (pendingMessages s))))
      (messageQueue s ++ [m])
  else s.
Proof.
  destruct s as [i pm q]. cbn [currentMessageIndex pendingMessages messageQueue].
  intros -> Hp Hl. cbv zeta. unfold handleUserChoice. rewrite Hp.
  set (tk := tempKeyOf (id user) (originalMessageIdOf data)) in *.
  set (ck := choiceKeyOf (originalMessageIdOf data)) in *.
  clearbody tk ck.
  unfold_m. cbv beta iota. cbn [pendingMessages]. rewrite Hl.
  destruct (choiceIs (choiceOf data) "cancel") eqn:Hcancel.
  - by run_calls cfg.
  - destruct (choiceIs (choiceOf data) "with_name") eqn:Hwn;
      [|destruct (choiceIs (choiceOf data) "anonymous") eqn:Han].
    3: { by run_calls cfg. }
    all: cbn [orb]; cbv beta iota zeta.
    all: cbn [currentMessageIndex pendingMessages messageQueue].
    all: rewrite !length_app; cbn [length].
    all: replace (length q + 1 - 1)%nat with (length q) by lia.
    all: destruct q as [|m0 q]; cbn [length Nat.eqb Nat.add app].
    all: repeat first
           [ rewrite call_run
           | rewrite showNextMessageToAdmin_run
           | rewrite length_app, Nat.add_1_r
           | progress simpl
           | match goal with
             | |- context [transport cfg ?c] => destruct (transport cfg c) eqn:?
             end ].
    all: reflexivity.
Qed.

Lemma reachable_exec us s : reachable cfg s → reachable cfg (exec cfg us s).1.
Proof.
  revert s. induction us as [|u us IH]; intros s Hs; [done|].
  cbn [exec]. pose proof (reachable_step cfg s u Hs) as H1.
  destruct (dispatch cfg u s) as [s1 t1]. specialize (IH s1 H1).
  by destruct (exec cfg us s1) as [s2 t2].
Qed.

Lemma stagedBy_staging u k : stagedBy u k → isStagingKey k.
Proof.
  destruct u as [from|[user|] chat message now|from data hm]; try done.
  intros [->| ->]; [apply tempKeyOf_staging|apply choiceKeyOf_staging].
Qed.

Lemma staging_ne_index k z : isStagingKey k → k ≠ JS.numToString z.
Proof.
  intros [x [->| ->]] E; symmetry in E;
    [by apply numToString_ne_temp in E|by apply numToString_ne_choice in E].
Qed.

(** A key nobody stages stays absent. *)
Lemma effect_absent staged s s' posts arrival k :
  effect cfg staged s s' posts arrival →
  isStagingKey k → ¬ staged k →
  pendingMessages s !! k = None →
  pendingMessages s' !! k = None.
Proof.
  intros H Hk Hn Hl.
  destruct H as [|k1 v Hs|k1 v1 k2 v2 Hs1 Hs2|k1 k2 _ _|k1 k2 m ps _ _ _ _|];
    cbn [pendingMessages setMap afterRemoval]; try done.
  - rewrite lookup_insert_ne; [done|]. by intros ->.
  - rewrite !lookup_insert_ne; [done|by intros ->|by intros ->].
  - rewrite !lookup_delete_None; auto.
  - rewrite !lookup_delete_None. right. right.
    rewrite lookup_insert_ne; [done|]. intros E. by eapply staging_ne_index.
  - rewrite lookup_delete_None; auto.
Qed.

(** The entry stored under a queue position other than 0 is never
    deleted. *)
Lemma effect_position_kept staged s s' posts arrival i :
  effect cfg staged s s' posts arrival →
  (∀ k, staged k → isStagingKey k) →
  i ≠ 0 →
  is_Some (pendingMessages s !! JS.numToString i) →
  is_Some (pendingMessages s' !! JS.numToString i).
Proof.
  intros H Hst Hi Hl.
  assert (∀ k, isStagingKey k → k ≠ JS.numToString i) as Hne.
  { intros k Hk. by apply staging_ne_index. }
  destruct H as [|k1 v Hs|k1 v1 k2 v2 Hs1 Hs2|k1 k2 H1 H2|k1 k2 m ps H1 H2 _ _|];
    cbn [pendingMessages setMap afterRemoval]; try done.
  - rewrite lookup_insert_is_Some'. by right.
  - rewrite !lookup_insert_is_Some'. by right; right.
  - rewrite !lookup_delete_is_Some. auto.
  - rewrite !lookup_delete_is_Some, lookup_insert_is_Some'. auto.
  - rewrite lookup_delete_is_Some. split; [|done].
    rewrite <-numToString_0. intros E%numToString_inj. done.
Qed.

(** The queue grows at the tail by the record the update resolves, or
    loses its head. *)
Lemma effect_queue staged s s' posts arrival :
  effect cfg staged s s' posts arrival →
  messageQueue s' = messageQueue s ++ option_list arrival
  ∨ (arrival = None ∧ messageQueue s' = tail (messageQueue s)).
Proof.
  intros H. destruct H; cbn [messageQueue setMap afterRemoval option_list];
    rewrite ?app_nil_r; auto.
Qed.

End Steps.

(** ** Runs *)

Section Growth.

Context (cfg : Config).

Lemma exec_app a b s : (exec cfg (a ++ b) s).1 = (exec cfg b (exec cfg a s).1).1.
Proof.
  revert s. induction a as [|u a IH]; intros s; [done|].
  cbn [app exec]. destruct (dispatch cfg u s) as [s1 t1]. specialize (IH s1).
  destruct (exec cfg (a ++ b) s1) as [s2 t2], (exec cfg a s1) as [s3 t3].
  cbn [fst] in *. by rewrite IH.
Qed.

Lemma exec_cons u us s : (exec cfg (u :: us) s).1 = (exec cfg us (dispatch cfg u s).1).1.
Proof.
  cbn [exec]. destruct (dispatch cfg u s) as [s1 t1]. cbn [fst].
  by destruct (exec cfg us s1) as [s2 t2].
Qed.

(** A position other than 0 keeps its entry through any run. *)
Lemma exec_position_kept us s i :
  reachable cfg s →
  i ≠ 0 →
  is_Some (pendingMessages s !! JS.numToString i) →
  is_Some (pendingMessages (exec cfg us s).1 !! JS.numToString i).
Proof.
  revert s. induction us as [|u us IH]; intros s Hr Hi Hl; [done|].
  rewrite exec_cons. apply IH; [by apply reachable_step|done|].
  eapply effect_position_kept;
    [apply dispatch_effect, (reachable_index cfg), Hr|apply stagedBy_staging|done|done].
Qed.

(** A resolution appends the record and stores it under its position. *)
Lemma resolution_stored u s m :
  currentMessageIndex s = 0%nat →
  resolution u s = Some m →
  pendingMessages (dispatch cfg u s).1
    !! JS.numToString (Z.of_nat (length (messageQueue s))) = Some m
  ∧ messageQueue (dispatch cfg u s).1 = messageQueue s ++ [m].
Proof.
  intros Hi Hres. pose proof (dispatch_effect cfg u s Hi) as He.
  rewrite Hres in He.
  inversion He as [| | | |k1 k2 m' ps H1 H2 _ _ Hs Hp Hm|]; subst.
  cbn [pendingMessages messageQueue]. split; [|done].
  rewrite !lookup_delete_ne, lookup_insert_eq; [done|..];
    by apply staging_ne_index.
Qed.

(** A decision of the administrator leaves the staging map alone or deletes the key
    of position 0. *)
Lemma decision_state from tok hm s :
  currentMessageIndex s = 0%nat →
  isAdminAction tok = true →
  (dispatch cfg (decision from tok hm) s).1 = s
  ∨ (dispatch cfg (decision from tok hm) s).1 = afterRemoval s.
Proof.
  intros Hi Htok.
  destruct (isAdmin cfg from) eqn:Ha.
  2: { rewrite dispatch_not_admin by done. by left. }
  rewrite dispatch_admin by done.
  destruct (isAdminAction_cases tok Htok) as [->|[->| ->]].
  - rewrite decisionHandler_approve.
    destruct (messageQueue s) as [|m rest] eqn:Hq.
    + rewrite (handleApprove_empty cfg s Hi Hq). left.
      by destruct (transport cfg notFoundAck).
    + rewrite (handleApprove_run cfg s m rest Hi Hq), publishToChannel_run.
      destruct (JS.truthy (CHANNEL_ID cfg)); [|by left].
      destruct (channelPost cfg m) as [c|]; [|by right].
      destruct (transport cfg c); [by right|by left].
  - rewrite decisionHandler_reject.
    destruct (messageQueue s) as [|m rest] eqn:Hq.
    + rewrite (handleReject_empty cfg s Hi Hq). left.
      by destruct (transport cfg notFoundAck).
    + rewrite (handleReject_run cfg s m rest Hi Hq). by right.
  - rewrite decisionHandler_skip, (handleSkip_run cfg s Hi). by right.
Qed.

Lemma skip_state admin hm s :
  currentMessageIndex s = 0%nat →
  isAdmin cfg (Some admin) = true →
  (dispatch cfg (decision (Some admin) "admin_skip" hm) s).1 = afterRemoval s.
Proof.
  intros Hi Ha. rewrite dispatch_admin by done.
  by rewrite decisionHandler_skip, (handleSkip_run cfg s Hi).
Qed.

Lemma skips_drain admin n s :
  reachable cfg s →
  isAdmin cfg (Some admin) = true →
  (length (messageQueue s) ≤ n)%nat →
  messageQueue (exec cfg (Scenario.skips admin n) s).1 = [].
Proof.
  intros Hr Ha. revert s Hr. induction n as [|n IH]; intros s Hr Hlen.
  - cbn. destruct (messageQueue s); [done|simpl in Hlen; lia].
  - unfold Scenario.skips. cbn [replicate]. rewrite exec_cons.
    apply IH; [by apply reachable_step|].
    rewrite skip_state; [|by apply (reachable_index cfg)|done].
    cbn [afterRemoval messageQueue].
    destruct (messageQueue s); simpl in *; lia.
Qed.

(** A text message stages its key, whatever the transport answers. *)
Lemma text_message_staged user chat mid body now s :
  let s1 := (dispatch cfg (UpdMessage (Some user) (Some chat)
               (mkMessage mid (Some body) None None None None None) now) s).1 in
  messageQueue s1 = messageQueue s
  ∧ is_Some (pendingMessages s1 !! tempKeyOf (id user) (Some mid)).
Proof.
  cbv zeta. rewrite dispatch_middleware. cbn [fst snd middleware].
  change (isContent _) with true. cbv iota.
  unfold handleUserMessage, getMediaData. unfold_m. cbv beta iota.
  cbn [photo video document audio message_id].
  rewrite call_run. destruct (transport cfg _); cbn [fst snd messageQueue pendingMessages].
  - split; [done|]. rewrite lookup_insert_ne, lookup_insert_eq; [by eexists|].
    unfold tempKeyOf, choiceKeyOf. intros E. by apply (f_equal (λ x, String.get 0 x)) in E.
  - split; [done|]. rewrite lookup_insert_eq. by eexists.
Qed.

Lemma submission_round i s :
  reachable cfg s →
  let s2 := (exec cfg (Scenario.submission i) s).1 in
  length (messageQueue s2) = S (length (messageQueue s))
  ∧ is_Some (pendingMessages s2 !! JS.numToString (Z.of_nat (length (messageQueue s)))).
Proof.
  intros Hr. cbv zeta. unfold Scenario.submission. rewrite !exec_cons.
  cbn [exec fst].
  pose proof (text_message_staged (Scenario.submitter i) (Z.of_nat i) 1 "text" 0 s)
    as [Hq [tm Htm]].
  fold Scenario.textMessage in Hq, Htm.
  set (s1 := (dispatch cfg (UpdMessage _ _ _ _) s).1) in *.
  assert (reachable cfg s1) as Hr1 by (by apply reachable_step).
  destruct (resolution_stored
              (UpdCallback (Some (Scenario.submitter i)) (Some "user_choice:anonymous:1") false)
              s1 (withPublishType tm anonymous)) as [Hk Hq2].
  { by apply (reachable_index cfg). }
  { unfold resolution.
    change (JS.startsWith _ _) with true. cbv iota.
    change (originalMessageIdOf "user_choice:anonymous:1") with (Some 1).
    rewrite Htm.
    change (choiceIs _ "with_name") with false.
    by change (choiceIs _ "anonymous") with true. }
  rewrite Hq2, length_app, Hq. cbn [length]. split; [lia|].
  rewrite <-Hq, Hk. by eexists.
Qed.

Lemma submissions_state n :
  let s := (exec cfg (Scenario.submissions n) initialState).1 in
  reachable cfg s
  ∧ length (messageQueue s) = n
  ∧ ∀ j, (1 ≤ j < n)%nat →
         is_Some (pendingMessages s !! JS.numToString (Z.of_nat j)).
Proof.
  induction n as [|n (Hr & Hlen & Hkeys)]; cbv zeta.
  - split; [apply reachable_init|]. split; [done|]. intros j Hj. lia.
  - cbn [Scenario.submissions]. rewrite exec_app.
    set (s := (exec cfg (Scenario.submissions n) initialState).1) in *.
    destruct (submission_round n s Hr) as [Hlen2 Hk].
    split; [by apply reachable_exec|]. split; [lia|].
    intros j Hj. destruct (decide (j = n)) as [->|Hne].
    + by rewrite Hlen in Hk.
    + apply exec_position_kept; [done|lia|]. apply Hkeys. lia.
Qed.

Lemma positions_size (pm : gmap string PendingMessage) n :
  (∀ j, (1 ≤ j ≤ n)%nat → is_Some (pm !! JS.numToString (Z.of_nat j))) →
  (n ≤ size pm)%nat.
Proof.
  intros Hkeys.
  set (keys := (λ j, JS.numToString (Z.of_nat j)) <$> seq 1 n).
  assert (NoDup keys) as Hnd.
  { apply NoDup_fmap_2; [|apply NoDup_seq].
    intros a b E%numToString_inj. lia. }
  assert ((list_to_set keys : gset string) ⊆ dom pm) as Hsub.
  { intros k Hk%elem_of_list_to_set. apply elem_of_dom.
    apply list_elem_of_fmap in Hk as (j & -> & Hj%elem_of_seq).
    apply Hkeys. lia. }
  apply subseteq_size in Hsub.
  rewrite size_list_to_set, size_dom in Hsub by done.
  unfold keys in Hsub. by rewrite length_fmap, length_seq in Hsub.
Qed.

(** When the queue is empty, nothing is stored under position 0. *)
Lemma reachable_empty_queue s :
  reachable cfg s → messageQueue s = [] → pendingMessages s !! "0" = None.
Proof.
  induction 1 as [|s u Hr IH]; [done|].
  pose proof (dispatch_effect cfg u s (reachable_index cfg s Hr)) as He.
  assert (∀ k, stagedBy u k → k ≠ "0") as Hne.
  { intros k Hk%stagedBy_staging. rewrite <-numToString_0. by apply staging_ne_index. }
  destruct He as [|k v Hs|k1 v1 k2 v2 Hs1 Hs2|k1 k2 H1 H2|k1 k2 m ps H1 H2 _ _|];
    cbn [pendingMessages messageQueue setMap afterRemoval]; intros Hq.
  - by apply IH.
  - rewrite lookup_insert_ne by (by apply Hne). by apply IH.
  - rewrite !lookup_insert_ne by (by apply Hne). by apply IH.
  - rewrite !lookup_delete_None. right. right. by apply IH.
  - by destruct (messageQueue s).
  - apply lookup_delete_eq.
Qed.

(** Decisions without a head, in any reachable state: publish and reject
    answer "Сообщение не найдено." and skip tells the administrator that all
    messages are processed; the state is the same afterwards. *)
Lemma decisions_without_head from hm s :
  reachable cfg s →
  messageQueue s = [] →
  isAdmin cfg from = true →
  (dispatch cfg (decision from "admin_approve" hm) s).1 = s
  ∧ (dispatch cfg (decision from "admin_reject" hm) s).1 = s
  ∧ dispatch cfg (decision from "admin_skip" hm) s
    = (s, event cfg s (allDoneNotice cfg) :: closeReview cfg hm s)
  ∧ (∃ t, (dispatch cfg (decision from "admin_approve" hm) s).2
          = event cfg s notFoundAck :: t)
  ∧ (∃ t, (dispatch cfg (decision from "admin_reject" hm) s).2
          = event cfg s notFoundAck :: t).
Proof.
  intros Hr Hq Ha. pose proof (reachable_index cfg s Hr) as Hi.
  rewrite !dispatch_admin by done.
  rewrite decisionHandler_approve, decisionHandler_reject, decisionHandler_skip.
  rewrite (handleApprove_empty cfg s Hi Hq), (handleReject_empty cfg s Hi Hq),
    (handleSkip_run cfg s Hi).
  assert (afterRemoval s = s) as ->.
  { destruct s as [i pm q]. cbn in Hi, Hq. subst. unfold afterRemoval. cbn.
    f_equal. apply delete_id. by apply (reachable_empty_queue _ Hr). }
  unfold presentHead. rewrite Hq.
  destruct (transport cfg notFoundAck); cbn [fst snd app]; repeat split; by eexists.
Qed.

End Growth.

(** ** First in, first out *)

Section Fifo.

Context (cfg : Config).

Lemma exec_snoc us u s :
  exec cfg (us ++ [u]) s =
  ((dispatch cfg u (exec cfg us s).1).1,
   (exec cfg us s).2 ++ (dispatch cfg u (exec cfg us s).1).2).
Proof.
  revert s. induction us as [|u0 us IH]; intros s.
  - cbn [app exec fst snd]. destruct (dispatch cfg u s) as [s1 t1].
    cbn [fst snd]. by rewrite app_nil_r.
  - cbn [app exec]. destruct (dispatch cfg u0 s) as [s1 t1]. rewrite IH.
    destruct (exec cfg us s1) as [s2 t2]. cbn [fst snd].
    by rewrite app_assoc.
Qed.

Lemma arrivals_snoc us u s :
  arrivals cfg (us ++ [u]) s =
  arrivals cfg us s ++ option_list (resolution u (exec cfg us s).1).
Proof.
  revert s. induction us as [|u0 us IH]; intros s.
  - cbn [app arrivals exec fst]. by rewrite app_nil_r.
  - cbn [app arrivals]. rewrite IH, exec_cons. by rewrite app_assoc.
Qed.

Lemma shows_app arrived more c k : shows cfg arrived c k → shows cfg (arrived ++ more) c k.
Proof. intros (m & Hm & Hc). exists m. split; [by apply lookup_app_l_Some|done]. Qed.

Lemma sorted_snoc (ranks : list nat) r :
  StronglySorted lt ranks → Forall (λ k, k < r)%nat ranks →
  StronglySorted lt (ranks ++ [r]).
Proof.
  intros Hs Hb. apply StronglySorted_app_2; [|done|repeat constructor].
  intros x y Hx Hy%list_elem_of_singleton. subst y.
  by apply (proj1 (Forall_forall _ _) Hb).
Qed.

Lemma tail_drop {A} (l : list A) n : tail (drop n l) = drop (S n) l.
Proof. revert n. induction l as [|x l IH]; intros [|n]; simpl; auto using drop_0. Qed.

Lemma head_drop {A} (l : list A) n : head (drop n l) = l !! n.
Proof. revert n. induction l as [|x l IH]; intros [|n]; simpl; auto. Qed.

Lemma seq_snoc n : seq 0 (S n) = seq 0 n ++ [n].
Proof. by rewrite seq_S. Qed.

(** The state of the queue and of the review posts after a run from the
    initial state: [served] records have left the queue, [ranks] are the
    arrival ranks of the records shown so far.  When the transport accepts
    every call and every resolved record has a review post, the records
    shown are all those that have reached the head of the queue. *)
Lemma fifo_invariant upds :
  ∃ served ranks,
    (served ≤ length (arrivals cfg upds initialState))%nat
    ∧ messageQueue (exec cfg upds initialState).1
      = drop served (arrivals cfg upds initialState)
    ∧ Forall2 (shows cfg (arrivals cfg upds initialState))
              (reviewPosts (exec cfg upds initialState).2) ranks
    ∧ StronglySorted lt ranks
    ∧ Forall (λ k, k ≤ served ∧ k < length (arrivals cfg upds initialState))%nat ranks
    ∧ (accepting cfg →
       Forall (λ m, is_Some (reviewPost cfg m)) (arrivals cfg upds initialState) →
       ranks = seq 0 (S served `min` length (arrivals cfg upds initialState))).
Proof.
  induction upds as [|u us IH] using rev_ind.
  - exists 0%nat, []. cbn. repeat split; constructor.
  - destruct IH as (served & ranks & Hle & Hq & Hshow & Hsorted & Hbound & Hall).
    rewrite exec_snoc, arrivals_snoc. cbn [fst snd].
    assert (reachable cfg (exec cfg us initialState).1) as Hr
      by apply reachable_exec, reachable_init.
    pose proof (dispatch_effect cfg u _ (reachable_index cfg _ Hr)) as He.
    set (s1 := (exec cfg us initialState).1) in *.
    set (t1 := (exec cfg us initialState).2) in *.
    set (A := arrivals cfg us initialState) in *.
    rewrite reviewPosts_app.
    destruct He as [|k v Hs|k1 v1 k2 v2 Hs1 Hs2|k1 k2 H1 H2|k1 k2 m ps H1 H2 Hps Hacc|];
      cbn [option_list messageQueue setMap afterRemoval].
    1-4: exists served, ranks; rewrite !app_nil_r; by repeat split.
    + (* a resolution *)
      change (option_list (Some m)) with [m].
      assert (drop served (A ++ [m]) = messageQueue s1 ++ [m]) as Hq'.
      { by rewrite drop_app_le, Hq. }
      rewrite length_app. cbn [length].
      destruct (messageQueue s1) as [|m0 rest] eqn:Hq0.
      * (* into an empty queue *)
        assert (served = length A) as ->.
        { symmetry in Hq. apply drop_nil_inv in Hq. lia. }
        assert (ps = [] ∨ ∃ c, reviewPost cfg m = Some c ∧ ps = [c]) as [->|(c & Hc & ->)].
        { destruct Hps as [->|[_ ->]]; [by left|].
          unfold headPost. destruct (reviewPost cfg m) as [c|]; [right; by exists c|by left]. }
        -- exists (length A), ranks. rewrite app_nil_r.
           repeat split; [lia|done| |done| |].
           ++ eapply Forall2_impl; [exact Hshow|]. intros ? ?. apply shows_app.
           ++ eapply Forall_impl; [exact Hbound|]. cbv beta. lia.
           ++ intros Ha [_ Hm%Forall_inv]%Forall_app.
              specialize (Hacc Ha eq_refl). unfold headPost in Hacc.
              cbv beta in Hm. destruct Hm as [c Hc]. by rewrite Hc in Hacc.
        -- exists (length A), (ranks ++ [length A]).
           repeat split; [lia|done| | | |].
           ++ apply Forall2_app.
              ** eapply Forall2_impl; [exact Hshow|]. intros ? ?. apply shows_app.
              ** repeat constructor. exists m. split; [|done].
                 by rewrite lookup_app_r, Nat.sub_diag.
           ++ apply sorted_snoc; [done|].
              eapply Forall_impl; [exact Hbound|]. cbv beta. lia.
           ++ apply Forall_app. split.
              ** eapply Forall_impl; [exact Hbound|]. cbv beta. lia.
              ** apply Forall_singleton. lia.
           ++ intros Ha [HA _]%Forall_app. rewrite (Hall Ha HA).
              replace (S (length A) `min` length A)%nat with (length A) by lia.
              replace (S (length A) `min` (length A + 1))%nat with (S (length A)) by lia.
              by rewrite seq_snoc.
      * (* behind other records *)
        assert (served < length A)%nat as Hlt.
        { destruct (decide (served < length A)%nat); [done|].
          rewrite drop_ge in Hq by lia. done. }
        assert (ps = []) as ->.
        { by destruct Hps as [->|[? _]]. }
        exists served, ranks. rewrite app_nil_r.
        repeat split; [lia|done| |done| |].
        -- eapply Forall2_impl; [exact Hshow|]. intros ? ?. apply shows_app.
        -- eapply Forall_impl; [exact Hbound|]. cbv beta. lia.
        -- intros Ha [HA _]%Forall_app. rewrite (Hall Ha HA). f_equal. lia.
    + (* a removal *)
      rewrite app_nil_r.
      destruct (messageQueue s1) as [|m0 rest] eqn:Hq0.
      * exists served, ranks. cbn [tail headPost]. rewrite app_nil_r. by repeat split.
      * assert (served < length A)%nat as Hlt.
        { destruct (decide (served < length A)%nat); [done|].
          rewrite drop_ge in Hq by lia. done. }
        assert (rest = drop (S served) A) as Hrest.
        { by rewrite <-tail_drop, <-Hq. }
        cbn [tail].
        destruct rest as [|m rest'] eqn:Hrest0.
        -- (* the queue is empty now *)
           assert (length A = S served) as HlenA.
           { symmetry in Hrest. apply drop_nil_inv in Hrest. lia. }
           exists (S served), ranks. cbn [headPost]. rewrite app_nil_r.
           repeat split; [lia|done|done|done| |].
           ++ eapply Forall_impl; [exact Hbound|]. cbv beta. lia.
           ++ intros Ha HA. rewrite (Hall Ha HA). f_equal. lia.
        -- (* a new head *)
           assert (A !! S served = Some m) as Hm.
           { by rewrite <-head_drop, <-Hrest. }
           pose proof (lookup_lt_Some _ _ _ Hm) as Hlt'.
           cbn [headPost]. destruct (reviewPost cfg m) as [c|] eqn:Hc; cbn [option_list].
           ++ exists (S served), (ranks ++ [S served]).
              repeat split; [lia|done| | | |].
              ** apply Forall2_app; [done|]. repeat constructor. by exists m.
              ** apply sorted_snoc; [done|].
                 eapply Forall_impl; [exact Hbound|]. cbv beta. lia.
              ** apply Forall_app. split.
                 --- eapply Forall_impl; [exact Hbound|]. cbv beta. lia.
                 --- apply Forall_singleton. lia.
              ** intros Ha HA. rewrite (Hall Ha HA).
                 replace (S served `min` length A)%nat with (S served) by lia.
                 replace (S (S served) `min` length A)%nat with (S (S served)) by lia.
                 by rewrite (seq_snoc (S served)).
           ++ exists (S served), ranks. rewrite app_nil_r.
              repeat split; [lia|done|done|done| |].
              ** eapply Forall_impl; [exact Hbound|]. cbv beta. lia.
              ** intros Ha HA. exfalso.
                 pose proof (proj1 (Forall_lookup _ _) HA _ _ Hm) as Hp.
                 cbv beta in Hp. destruct Hp as [c' Hc']. congruence.
Qed.

(** The queue is what is left of the arrivals once the records that have
    left are dropped. *)
Lemma removals_spec upds :
  (removals cfg upds ≤ length (arrivals cfg upds initialState))%nat
  ∧ messageQueue (exec cfg upds initialState).1
    = drop (removals cfg upds) (arrivals cfg upds initialState).
Proof.
  destruct (fifo_invariant upds) as (served & ranks & Hle & Hq & _).
  assert (removals cfg upds = served) as ->; [|done].
  unfold removals. rewrite Hq, length_drop. lia.
Qed.

Lemma removals_head upds :
  head (messageQueue (exec cfg upds initialState).1)
  = arrivals cfg upds initialState !! removals cfg upds.
Proof. rewrite (proj2 (removals_spec upds)). apply head_drop. Qed.

(** One more update: the number of records that have left stays, or the
    head leaves. *)
Lemma removals_snoc us u :
  let s := (exec cfg us initialState).1 in
  removals cfg (us ++ [u]) = removals cfg us
  ∨ (removals cfg (us ++ [u]) = S (removals cfg us)
     ∧ resolution u s = None
     ∧ ∃ m, messageQueue s = m :: messageQueue (dispatch cfg u s).1).
Proof.
  cbv zeta. destruct (removals_spec us) as [Hle Hq].
  assert (reachable cfg (exec cfg us initialState).1) as Hr
    by apply reachable_exec, reachable_init.
  pose proof (effect_queue cfg _ _ _ _ _
                (dispatch_effect cfg u _ (reachable_index cfg _ Hr))) as Hstep.
  apply (f_equal length) in Hq. rewrite length_drop in Hq.
  unfold removals in *. rewrite exec_snoc, arrivals_snoc. cbn [fst].
  destruct Hstep as [->|[-> ->]].
  - left. rewrite !length_app. lia.
  - cbn [option_list]. rewrite app_nil_r.
    destruct (messageQueue (exec cfg us initialState).1) as [|m q] eqn:Hq0.
    + by left.
    + right. cbn [tail length] in *. split; [lia|]. split; [done|]. by exists m.
Qed.

Lemma removals_mono us more : (removals cfg us ≤ removals cfg (us ++ more))%nat.
Proof.
  induction more as [|u more IH] using rev_ind; [by rewrite app_nil_r|].
  rewrite app_assoc.
  destruct (removals_snoc (us ++ more) u) as [->|[-> _]]; lia.
Qed.


End Fifo.

(** * The properties of the specification *)

(** ** Authorization *)

(** C8. An administrator action token sent by anyone but the administrator
    is answered with the authorization error and nothing else happens: the
    state (index, staging map, queue) is the same afterwards and the trace
    holds the one refusal, so there is no destination post and no message to
    a submitter. *)
Theorem unauthorized_decision_refused cfg from token hasMessage s :
  isAdminAction token = true →
  isAdmin cfg from = false →
  dispatch cfg (decision from token hasMessage) s
  = (s, [mkEvent s (AnswerCbQuery (Some "У вас нет прав для этого действия."))
                 (transport cfg (AnswerCbQuery (Some "У вас нет прав для этого действия.")))]).
Proof. intros Htok Hfrom. by apply dispatch_not_admin. Qed.

Lemma unauthorized_decision_refused_witness :
  isAdminAction "admin_approve" = true ∧
  isAdmin Scenario.cfg (Some Scenario.alice) = false ∧
  dispatch Scenario.cfg (decision (Some Scenario.alice) "admin_approve" true)
           (Scenario.oneQueued (Scenario.helloOf Scenario.bob with_name "Hi"))
  = (Scenario.oneQueued (Scenario.helloOf Scenario.bob with_name "Hi"),
     [mkEvent (Scenario.oneQueued (Scenario.helloOf Scenario.bob with_name "Hi"))
              (AnswerCbQuery (Some "У вас нет прав для этого действия."))
              (Some 500)]).
Proof.
  split; [reflexivity|]. split; [reflexivity|].
  apply (unauthorized_decision_refused Scenario.cfg); reflexivity.
Defined.

(** ** Decisions without a head *)

(** C2.  A decision of the administrator (publish, reject or skip) that arrives
    when the queue is empty, in any state the bot can reach, changes nothing:
    the state (index, staging map and queue) is the same afterwards.  The
    first call of the handler is the acknowledgment that there is nothing to
    review: publish and reject answer the callback with "Сообщение не
    найдено.", skip tells the administrator "✅ Все сообщения обработаны!".
    That notice to the administrator is the only message sent: nothing goes
    to a submitter or to the destination channel. *)
Theorem decision_without_head_is_a_no_op cfg from token hasMessage s :
  reachable cfg s →
  messageQueue s = [] →
  isAdmin cfg from = true →
  isAdminAction token = true →
  let run := dispatch cfg (decision from token hasMessage) s in
  run.1 = s
  ∧ (∃ t, run.2
          = event cfg s (if String.eqb token "admin_skip"
                         then allDoneNotice cfg else notFoundAck) :: t)
  ∧ messagesSent run.2
    = (if String.eqb token "admin_skip" then [allDoneNotice cfg] else [])
  ∧ submitterNotices run.2 = []
  ∧ channelPosts run.2 = [].
Proof.
  intros Hr Hq Ha Htok. cbv zeta.
  pose proof (reachable_index cfg s Hr) as Hi.
  pose proof (closeReview_kinds cfg hasMessage s) as (Hc1 & Hc2 & _).
  pose proof (closeReview_messages cfg hasMessage s) as Hc3.
  rewrite dispatch_admin by done.
  assert (afterRemoval s = s) as Hsame.
  { destruct s as [i pm q]. cbn in Hi, Hq. subst. unfold afterRemoval. cbn.
    f_equal. apply delete_id. by apply (reachable_empty_queue cfg _ Hr). }
  destruct (isAdminAction_cases token Htok) as [->|[->| ->]].
  - rewrite decisionHandler_approve, (handleApprove_empty cfg s Hi Hq).
    change ("admin_approve" =? "admin_skip")%string with false. cbv iota.
    destruct (transport cfg notFoundAck); cbn [fst snd app];
      (split; [done|]); (split; [by eexists|]);
      rewrite messagesSent_event, submitterNotices_event, channelPosts_event;
      cbn [isMessage isSubmitterNotice isChannelPost notFoundAck errorAck];
      rewrite ?messagesSent_event, ?submitterNotices_event, ?channelPosts_event;
      by rewrite ?Hc1, ?Hc2, ?Hc3.
  - rewrite decisionHandler_reject, (handleReject_empty cfg s Hi Hq).
    change ("admin_reject" =? "admin_skip")%string with false. cbv iota.
    destruct (transport cfg notFoundAck); cbn [fst snd app];
      (split; [done|]); (split; [by eexists|]);
      rewrite messagesSent_event, submitterNotices_event, channelPosts_event;
      cbn [isMessage isSubmitterNotice isChannelPost notFoundAck errorAck];
      rewrite ?messagesSent_event, ?submitterNotices_event, ?channelPosts_event;
      by rewrite ?Hc1, ?Hc2, ?Hc3.
  - rewrite decisionHandler_skip, (handleSkip_run cfg s Hi), Hsame.
    change ("admin_skip" =? "admin_skip")%string with true. cbv iota.
    unfold presentHead. rewrite Hq. cbn [fst snd app].
    split; [done|]. split; [by eexists|].
    rewrite messagesSent_event, submitterNotices_event, channelPosts_event.
    rewrite Hc1, Hc2, Hc3. unfold allDoneNotice. cbn [isMessage isChannelPost].
    split; [done|]. split; [|done]. by destruct (adminId cfg).
Qed.

(** At the start: the administrator presses skip while nothing is queued. *)
Lemma decision_without_head_is_a_no_op_witness :
  let run := dispatch Scenario.cfg (decision (Some Scenario.admin) "admin_skip" true)
                      initialState in
  messageQueue initialState = []
  ∧ run.1 = initialState
  ∧ messagesSent run.2 = [allDoneNotice Scenario.cfg]
  ∧ submitterNotices run.2 = []
  ∧ channelPosts run.2 = [].
Proof.
  intros run. split; [reflexivity|].
  destruct (decision_without_head_is_a_no_op Scenario.cfg (Some Scenario.admin)
              "admin_skip" true initialState)
    as (H1 & _ & H2 & H3 & H4);
    [apply reachable_init|reflexivity|reflexivity|reflexivity|].
  split; [exact H1|]. split; [exact H2|]. split; [exact H3|exact H4].
Defined.

(** The three traces at the start, when Telegram accepts every call: the
    acknowledgment, then the review post is deleted and the callback
    answered. *)
Example decisions_without_head_at_start :
  dispatch Scenario.cfg (decision (Some Scenario.admin) "admin_skip" true) initialState
  = (initialState,
     [mkEvent initialState
        (Send KMessage (ChatNum (Some 99)) "✅ Все сообщения обработаны!" noExtra) (Some 500);
      mkEvent initialState DeleteMessage (Some 500);
      mkEvent initialState (AnswerCbQuery None) (Some 500)])
  ∧ dispatch Scenario.cfg (decision (Some Scenario.admin) "admin_approve" true) initialState
  = (initialState,
     [mkEvent initialState (AnswerCbQuery (Some "Сообщение не найдено.")) (Some 500);
      mkEvent initialState DeleteMessage (Some 500);
      mkEvent initialState (AnswerCbQuery None) (Some 500)])
  ∧ dispatch Scenario.cfg (decision (Some Scenario.admin) "admin_reject" true) initialState
  = (initialState,
     [mkEvent initialState (AnswerCbQuery (Some "Сообщение не найдено.")) (Some 500);
      mkEvent initialState DeleteMessage (Some 500);
      mkEvent initialState (AnswerCbQuery None) (Some 500)]).
Proof. repeat split; vm_compute; reflexivity. Qed.

(** ** Publishing *)

(** C1, at the failing input: Alice (no handle) submits the text "Hello",
    chooses anonymous, and the administrator publishes.  The signature is added to
    [finalText] before [escapeHTML] runs, so the one destination post carries
    the signature with its markup escaped; it is not "Hello" followed by the
    signature. *)
Theorem signature_is_escaped_on_publish :
  let run :=
    exec Scenario.cfg
      [ UpdMessage (Some Scenario.alice) (Some 7) Scenario.hello 1000;
        UpdCallback (Some Scenario.alice) (Some "user_choice:anonymous:42") true;
        decision (Some Scenario.admin) "admin_approve" true ]
      initialState in
  postContent <$> channelPosts run.2
  = [Some ("Hello" +:+ JS.LF +:+ JS.LF +:+ "&lt;a href=" +:+ JS.DQ
           +:+ "https://t.me/predlozhka_bot" +:+ JS.DQ +:+ "&gt;Предложка&lt;/a&gt;")]
  ∧ signature Scenario.cfg
    = JS.LF +:+ JS.LF +:+ "<a href=" +:+ JS.DQ
      +:+ "https://t.me/predlozhka_bot" +:+ JS.DQ +:+ ">Предложка</a>"
  ∧ postContent <$> channelPosts run.2
    ≠ [Some (escapeHTML "Hello" +:+ signature Scenario.cfg)].
Proof.
  split; [by vm_compute|]. split; [by vm_compute|].
  intros H. vm_compute in H. congruence.
Qed.




(** ** The three decisions *)

(** C4, the counterexample: one record is queued, no destination channel is
    configured, and the administrator publishes.  [publishToChannel] throws before
    anything is sent: the head stays in the queue, the submitter gets no
    notice and there is no destination post. *)
Lemma publish_without_channel_keeps_head :
  let m := Scenario.helloOf Scenario.alice anonymous "Hello" in
  let run :=
    dispatch Scenario.cfgNoChannel (decision (Some Scenario.admin) "admin_approve" true)
             (Scenario.oneQueued m) in
  messageQueue (Scenario.oneQueued m) = [m]
  ∧ run.1 = Scenario.oneQueued m
  ∧ submitterNotices run.2 = []
  ∧ channelPosts run.2 = [].
Proof. by vm_compute. Qed.

(** C4, amended.  On a queue with head [m] and the records [rest] behind it:
    skip removes the head, and the only message it sends goes to the
    administrator (the review post of the next record, or the notice that all
    messages are processed), so no submitter is notified and nothing is
    posted; reject removes the head and sends, besides, exactly the rejection
    notice to the submitter of [m]; publish, when the destination channel is
    configured, the record yields a post (it carries media or a non-empty
    text) and the channel accepts it, removes the head and sends, besides,
    exactly that one destination post and the approval notice to the
    submitter of [m]. *)
Theorem decisions_on_head cfg from hasMessage s m rest :
  isAdmin cfg from = true →
  currentMessageIndex s = 0%nat →
  messageQueue s = m :: rest →
  let skip := dispatch cfg (decision from "admin_skip" hasMessage) s in
  let reject := dispatch cfg (decision from "admin_reject" hasMessage) s in
  let publish := dispatch cfg (decision from "admin_approve" hasMessage) s in
  (messageQueue skip.1 = rest
   ∧ messagesSent skip.2 = nextForReview cfg rest
   ∧ submitterNotices skip.2 = []
   ∧ channelPosts skip.2 = [])
  ∧ (messageQueue reject.1 = rest
     ∧ messagesSent reject.2 = rejectionNotice m :: nextForReview cfg rest
     ∧ submitterNotices reject.2 = [rejectionNotice m]
     ∧ channelPosts reject.2 = [])
  ∧ (∀ c, JS.truthy (CHANNEL_ID cfg) = true →
          channelPost cfg m = Some c →
          is_Some (transport cfg c) →
          messageQueue publish.1 = rest
          ∧ messagesSent publish.2 = c :: approvalNotice m :: nextForReview cfg rest
          ∧ submitterNotices publish.2 = [approvalNotice m]
          ∧ channelPosts publish.2 = [c]).
Proof.
  intros Ha Hi Hq. cbv zeta.
  pose proof (presentHead_kinds cfg (afterRemoval s)) as [Hp1 Hp2].
  pose proof (presentHead_messages cfg (afterRemoval s)) as Hp3.
  pose proof (closeReview_kinds cfg hasMessage (afterRemoval s)) as (Hc1 & Hc2 & _).
  pose proof (closeReview_messages cfg hasMessage (afterRemoval s)) as Hc3.
  assert (messageQueue (afterRemoval s) = rest) as Hrest.
  { unfold afterRemoval. cbn [messageQueue]. by rewrite Hq. }
  rewrite Hrest in Hp3.
  rewrite !dispatch_admin by done.
  rewrite decisionHandler_skip, decisionHandler_reject, decisionHandler_approve.
  rewrite (handleSkip_run cfg s Hi), (handleReject_run cfg s m rest Hi Hq),
    (handleApprove_run cfg s m rest Hi Hq), publishToChannel_run.
  destruct (approvalNotice_kind m) as (Ha1 & Ha2 & _).
  destruct (rejectionNotice_kind m) as (Hr1 & Hr2 & _).
  split; [|split].
  - cbn [fst snd]. rewrite Hrest, messagesSent_app, submitterNotices_app, channelPosts_app.
    rewrite Hp1, Hp2, Hp3, Hc1, Hc2, Hc3. by rewrite app_nil_r.
  - cbn [fst snd]. rewrite Hrest.
    rewrite messagesSent_app, submitterNotices_app, channelPosts_app.
    cbn [app]. rewrite messagesSent_event, submitterNotices_event, channelPosts_event, Hr1, Hr2.
    rewrite Hp1, Hp2, Hp3, Hc1, Hc2, Hc3. by rewrite app_nil_r.
  - intros c -> Hc [k Hk]. rewrite Hc, Hk.
    pose proof (channelPost_message cfg m c Hc) as Hk3.
    apply channelPost_kind in Hc as (Hk1 & _ & Hk2).
    cbn [fst snd]. rewrite Hrest.
    rewrite messagesSent_app, submitterNotices_app, channelPosts_app.
    cbn [app].
    rewrite !messagesSent_event, !submitterNotices_event, !channelPosts_event,
      Ha1, Ha2, Hk1, Hk2, Hk3.
    rewrite Hp1, Hp2, Hp3, Hc1, Hc2, Hc3. by rewrite app_nil_r.
Qed.

Lemma decisions_on_head_witness :
  let m := Scenario.helloOf Scenario.bob with_name "Hi" in
  let s := Scenario.oneQueued m in
  let skip := dispatch Scenario.cfg (decision (Some Scenario.admin) "admin_skip" true) s in
  let reject := dispatch Scenario.cfg (decision (Some Scenario.admin) "admin_reject" true) s in
  let publish := dispatch Scenario.cfg (decision (Some Scenario.admin) "admin_approve" true) s in
  (messageQueue skip.1 = []
   ∧ messagesSent skip.2 = [allDoneNotice Scenario.cfg]
   ∧ submitterNotices skip.2 = [] ∧ channelPosts skip.2 = [])
  ∧ (messageQueue reject.1 = []
     ∧ messagesSent reject.2 = [rejectionNotice m; allDoneNotice Scenario.cfg]
     ∧ submitterNotices reject.2 = [rejectionNotice m]
     ∧ channelPosts reject.2 = [])
  ∧ (∃ c, channelPost Scenario.cfg m = Some c
       ∧ messageQueue publish.1 = []
       ∧ messagesSent publish.2 = [c; approvalNotice m; allDoneNotice Scenario.cfg]
       ∧ submitterNotices publish.2 = [approvalNotice m]
       ∧ channelPosts publish.2 = [c]).
Proof.
  intros m s.
  destruct (decisions_on_head Scenario.cfg (Some Scenario.admin) true s m [])
    as (Hskip & Hreject & Hpublish); [reflexivity..|].
  split; [exact Hskip|]. split; [exact Hreject|].
  destruct (channelPost Scenario.cfg m) as [c|] eqn:Hc; [|by vm_compute in Hc].
  exists c. split; [reflexivity|].
  apply (Hpublish c); [reflexivity|reflexivity|by eexists].
Defined.

(** ** Attribution *)




(** ** The queue has one head *)

(** C7. In every reachable state the current-message index is 0, so the
    record the decision handlers read, [messageQueue[currentMessageIndex]],
    is the front of the queue (and there is none when the queue is empty);
    an administrator action leaves the queue as it is or removes exactly that
    front record. *)
Theorem one_record_under_review cfg s :
  reachable cfg s →
  currentMessageIndex s = 0%nat
  ∧ messageQueue s !! currentMessageIndex s = head (messageQueue s)
  ∧ ∀ from token hasMessage,
      isAdminAction token = true →
      messageQueue (dispatch cfg (decision from token hasMessage) s).1 = messageQueue s
      ∨ messageQueue (dispatch cfg (decision from token hasMessage) s).1
        = tail (messageQueue s).
Proof.
  intros Hr. pose proof (reachable_index cfg s Hr) as Hi.
  split; [exact Hi|]. split; [rewrite Hi; by destruct (messageQueue s)|].
  intros from token hm Htok.
  pose proof (dispatch_effect cfg (decision from token hm) s Hi) as He.
  apply effect_queue in He as [He|[_ He]]; [|by right].
  left. rewrite He.
  assert (resolution (decision from token hm) s = None) as ->; [|apply app_nil_r].
  unfold resolution, decision. destruct from as [u|]; [|done].
  by destruct (isAdminAction_cases token Htok) as [->|[->| ->]].
Qed.

Lemma one_record_under_review_witness :
  let s :=
    (exec Scenario.cfg
       [ UpdMessage (Some Scenario.alice) (Some 7) Scenario.hello 1000;
         UpdCallback (Some Scenario.alice) (Some "user_choice:anonymous:42") true;
         UpdMessage (Some Scenario.bob) (Some 8) Scenario.hi 2000;
         UpdCallback (Some Scenario.bob) (Some "user_choice:with_name:43") true ]
       initialState).1 in
  length (messageQueue s) = 2%nat
  ∧ currentMessageIndex s = 0%nat
  ∧ messageQueue s !! currentMessageIndex s = head (messageQueue s).
Proof.
  intros s. split; [reflexivity|].
  destruct (one_record_under_review Scenario.cfg s) as (H1 & H2 & _); [|by split].
  apply reachable_exec, reachable_init.
Defined.

(** ** Resolutions *)

(** C9, the counterexample: Alice stages the message 42 and presses cancel
    while Telegram rejects the edit of the choice prompt.  The [cancel]
    branch awaits that edit before it deletes the staged entry, so the
    exception skips the deletion: the entry is still there, and a later
    choice on the same key is not refused but queues the submission. *)
Lemma cancel_with_rejected_edit_keeps_entry :
  let staged :=
    (dispatch Scenario.cfgEditFails
       (UpdMessage (Some Scenario.alice) (Some 7) Scenario.hello 1000) initialState).1 in
  let cancelled :=
    (dispatch Scenario.cfgEditFails
       (UpdCallback (Some Scenario.alice) (Some "user_choice:cancel:42") true) staged).1 in
  let again :=
    dispatch Scenario.cfgEditFails
      (UpdCallback (Some Scenario.alice) (Some "user_choice:anonymous:42") true) cancelled in
  is_Some (pendingMessages staged !! tempKeyOf 7 (Some 42))
  ∧ cancelled = staged
  ∧ length (messageQueue again.1) = 1%nat
  ∧ again.2 ≠ [event Scenario.cfgEditFails cancelled staleChoiceAck].
Proof.
  cbv zeta. split; [by vm_compute; eexists|]. split; [by vm_compute|].
  split; [by vm_compute|]. intros H. vm_compute in H. congruence.
Qed.

(** C9, amended.  A choice [with_name] or [anonymous] on a staged key, and
    a choice [cancel] whose confirmation (the edit of the choice prompt) is
    accepted, remove the entry of that key from the staging map.  From then
    on, whatever updates arrive, as long as none of them is a message that
    stages the same key again, every choice on that key is answered with
    "Сообщение не найдено или время ожидания истекло." and changes
    nothing. *)
Theorem resolved_key_is_absent cfg user data hasMessage s tempMessage :
  reachable cfg s →
  JS.startsWith "user_choice:" data = true →
  pendingMessages s !! tempKeyOf (id user) (originalMessageIdOf data) = Some tempMessage →
  choiceIs (choiceOf data) "with_name" = true
  ∨ choiceIs (choiceOf data) "anonymous" = true
  ∨ (choiceIs (choiceOf data) "cancel" = true
     ∧ is_Some (transport cfg (EditMessageText "❌ Отправка отменена."))) →
  let key := tempKeyOf (id user) (originalMessageIdOf data) in
  let resolved := (dispatch cfg (UpdCallback (Some user) (Some data) hasMessage) s).1 in
  pendingMessages resolved !! key = None
  ∧ ∀ upds user' data' hasMessage',
      Forall (λ u, ¬ stagedBy u key) upds →
      JS.startsWith "user_choice:" data' = true →
      tempKeyOf (id user') (originalMessageIdOf data') = key →
      let later := (exec cfg upds resolved).1 in
      dispatch cfg (UpdCallback (Some user') (Some data') hasMessage') later
      = (later, [mkEvent later
                   (AnswerCbQuery (Some "Сообщение не найдено или время ожидания истекло."))
                   (transport cfg
                      (AnswerCbQuery (Some "Сообщение не найдено или время ожидания истекло.")))]).
Proof.
  intros Hr Hp Hl Hchoice key resolved.
  pose proof (reachable_index cfg s Hr) as Hi.
  assert (pendingMessages resolved !! key = None) as Habsent.
  { subst resolved. rewrite dispatch_middleware. cbn [fst snd middleware].
    rewrite (handleUserChoice_staged_state cfg user data hasMessage _ s tempMessage Hi Hp Hl).
    fold key.
    destruct Hchoice as [Hc|[Hc|[Hc [k Hk]]]].
    - rewrite (choiceIs_exclusive _ "with_name" "cancel") by done. rewrite Hc.
      cbn [orb pendingMessages]. rewrite !lookup_delete_None. auto.
    - rewrite (choiceIs_exclusive _ "anonymous" "cancel") by done. rewrite Hc, orb_true_r.
      cbn [pendingMessages]. rewrite !lookup_delete_None. auto.
    - rewrite Hc, Hk. cbn [pendingMessages setMap]. rewrite !lookup_delete_None. auto. }
  split; [exact Habsent|].
  intros upds user' data' hm' Hupds Hp' Hkey later.
  assert (reachable cfg resolved) as Hr1 by (by apply reachable_step).
  assert (pendingMessages later !! key = None) as Hlater.
  { subst later. clear Hkey Hp'. revert Habsent Hr1. generalize resolved.
    induction Hupds as [|u upds Hu _ IH]; intros s0 Ha0 Hr0; [done|].
    cbn [exec].
    pose proof (dispatch_effect cfg u s0 (reachable_index cfg s0 Hr0)) as He.
    pose proof (reachable_step cfg s0 u Hr0) as Hr0'.
    destruct (dispatch cfg u s0) as [s1 t1]. cbn [fst snd] in *.
    specialize (IH s1). destruct (exec cfg upds s1) as [s2 t2]. cbn [fst] in *.
    apply IH; [|done].
    eapply effect_absent; [exact He|apply tempKeyOf_staging|exact Hu|exact Ha0]. }
  rewrite dispatch_middleware. cbn [middleware].
  rewrite handleUserChoice_stale by (by rewrite ?Hkey).
  reflexivity.
Qed.

Lemma resolved_key_is_absent_witness :
  let staged :=
    (dispatch Scenario.cfg
       (UpdMessage (Some Scenario.alice) (Some 7) Scenario.hello 1000) initialState).1 in
  let resolved :=
    (dispatch Scenario.cfg
       (UpdCallback (Some Scenario.alice) (Some "user_choice:cancel:42") true) staged).1 in
  is_Some (pendingMessages staged !! tempKeyOf 7 (Some 42))
  ∧ pendingMessages resolved !! tempKeyOf 7 (Some 42) = None
  ∧ dispatch Scenario.cfg
      (UpdCallback (Some Scenario.alice) (Some "user_choice:with_name:42") true) resolved
    = (resolved,
       [mkEvent resolved
          (AnswerCbQuery (Some "Сообщение не найдено или время ожидания истекло."))
          (Some 500)]).
Proof.
  intros staged resolved.
  split; [by vm_compute; eexists|].
  edestruct (resolved_key_is_absent Scenario.cfg Scenario.alice "user_choice:cancel:42"
               true staged) as [H1 H2].
  - apply reachable_step, reachable_init.
  - reflexivity.
  - vm_compute. reflexivity.
  - right. right. split; [reflexivity|by eexists].
  - split; [exact H1|].
    apply (H2 [] Scenario.alice "user_choice:with_name:42" true);
      [constructor|reflexivity|reflexivity].
Defined.

(** ** Entries stored under queue positions *)

(** C10.  A resolution appends the record to the queue and stores it in the
    staging map under the position it takes, printed as a string.  A
    decision of the administrator leaves the staging map as it is or deletes the key "0"
    and nothing else.  So the entry of a record resolved while the queue is
    not empty (its position is not 0) is still present after any run of
    updates; a later resolution at the same position replaces the record
    stored there, no operation deletes the key.  And the staging map has no
    bound: when [n + 1] users submit and the administrator then skips [n + 1]
    times, the queue is empty again and the map still holds at least [n]
    entries. *)
Theorem position_entries_are_never_deleted cfg :
  (∀ s u m,
     reachable cfg s →
     resolution u s = Some m →
     pendingMessages (dispatch cfg u s).1
       !! JS.numToString (Z.of_nat (length (messageQueue s))) = Some m
     ∧ messageQueue (dispatch cfg u s).1 = messageQueue s ++ [m])
  ∧ (∀ s from token hasMessage,
       reachable cfg s →
       isAdminAction token = true →
       pendingMessages (dispatch cfg (decision from token hasMessage) s).1
         = pendingMessages s
       ∨ pendingMessages (dispatch cfg (decision from token hasMessage) s).1
         = delete "0" (pendingMessages s))
  ∧ (∀ s u m upds,
       reachable cfg s →
       resolution u s = Some m →
       messageQueue s ≠ [] →
       is_Some (pendingMessages (exec cfg upds (dispatch cfg u s).1).1
                  !! JS.numToString (Z.of_nat (length (messageQueue s)))))
  ∧ (∀ admin n,
       isAdmin cfg (Some admin) = true →
       messageQueue (exec cfg (Scenario.fillAndDrain admin (S n)) initialState).1 = []
       ∧ (n ≤ size (pendingMessages
                      (exec cfg (Scenario.fillAndDrain admin (S n)) initialState).1))%nat).
Proof.
  split; [|split; [|split]].
  - intros s u m Hr Hres. by apply resolution_stored; [apply (reachable_index cfg)|].
  - intros s from token hm Hr Htok.
    destruct (decision_state cfg from token hm s (reachable_index cfg s Hr) Htok)
      as [-> | ->]; [by left|by right].
  - intros s u m upds Hr Hres Hq.
    apply exec_position_kept; [by apply reachable_step| |].
    + destruct (messageQueue s); [done|simpl; lia].
    + destruct (resolution_stored cfg u s m (reachable_index cfg s Hr) Hres) as [-> _].
      by eexists.
  - intros admin n Ha. unfold Scenario.fillAndDrain. rewrite exec_app.
    destruct (submissions_state cfg (S n)) as (Hr & Hlen & Hkeys).
    set (s := (exec cfg (Scenario.submissions (S n)) initialState).1) in *.
    split; [apply skips_drain; [done|done|lia]|].
    apply positions_size. intros j Hj.
    apply exec_position_kept; [done|lia|]. apply Hkeys. lia.
Qed.

Lemma position_entries_are_never_deleted_witness :
  let s := (exec Scenario.cfg (Scenario.fillAndDrain Scenario.admin 3) initialState).1 in
  messageQueue s = [] ∧ (2 ≤ size (pendingMessages s))%nat.
Proof.
  intros s.
  destruct (position_entries_are_never_deleted Scenario.cfg) as (_ & _ & _ & Hgrow).
  apply (Hgrow Scenario.admin 2%nat). reflexivity.
Defined.

(** ** First in, first out *)




(** Two submissions, then a skip: the review posts show Alice's record, then
    Bob's. *)
Example fifo_two_submissions :
  let upds :=
    [ UpdMessage (Some Scenario.alice) (Some 7) Scenario.hello 1000;
      UpdCallback (Some Scenario.alice) (Some "user_choice:anonymous:42") true;
      UpdMessage (Some Scenario.bob) (Some 8) Scenario.hi 2000;
      UpdCallback (Some Scenario.bob) (Some "user_choice:with_name:43") true;
      decision (Some Scenario.admin) "admin_skip" true ] in
  Some <$> reviewPosts (exec Scenario.cfg upds initialState).2
  = reviewPost Scenario.cfg <$> arrivals Scenario.cfg upds initialState
  ∧ userName <$> arrivals Scenario.cfg upds initialState = ["Alice"; "Bob"]
  ∧ userName <$> messageQueue (exec Scenario.cfg upds initialState).1 = ["Bob"].
Proof. by vm_compute. Qed.

(** * Further properties of the code *)

(** ** Numbers and strings *)

Lemma allChars_app p a b : allChars p (a +:+ b) = allChars p a && allChars p b.
Proof.
  induction a as [|x a IH]; [done|].
  rewrite app_String. simpl. by rewrite IH, andb_assoc.
Qed.

Lemma allChars_impl (p q : ascii → bool) s :
  (∀ c, p c = true → q c = true) → allChars p s = true → allChars q s = true.
Proof.
  intros Hpq. induction s as [|x s IH]; [done|]. simpl.
  rewrite !andb_true_iff. intros [? ?]. auto.
Qed.

Lemma pretty_N_char_digit x :
  (x < 10)%N →
  isDigit (pretty_N_char x) = true ∧ JS.digitVal (pretty_N_char x) = Some (Z.of_N x).
Proof.
  intros Hx. destruct x as [|p]; [by vm_compute|].
  destruct p as [p|p|]; try destruct p as [p|p|]; try destruct p as [p|p|];
    try destruct p as [p|p|]; try lia; by vm_compute.
Qed.

Lemma pretty_N_go_digits x s :
  allChars isDigit s = true → allChars isDigit (pretty_N_go x s) = true.
Proof.
  revert s. induction (N.lt_wf_0 x) as [x _ IH]; intros s Hs.
  assert (x = 0 ∨ 0 < x)%N as [->|Hx] by lia; [by rewrite pretty_N_go_0|].
  rewrite pretty_N_go_step by done. apply IH; [by apply N.div_lt|].
  simpl. rewrite Hs, andb_true_r.
  apply pretty_N_char_digit, N.mod_lt. lia.
Qed.

Lemma pretty_N_go_nonempty x s : (0 < x)%N → pretty_N_go x s ≠ "".
Proof.
  revert s. induction (N.lt_wf_0 x) as [x _ IH]; intros s Hx.
  rewrite pretty_N_go_step by done.
  destruct (N.eq_0_gt_0_cases (x `div` 10)) as [->|Hd].
  - by rewrite pretty_N_go_0.
  - apply IH; [by apply N.div_lt|done].
Qed.

(** Reading back the digits [pretty_N_go] writes in front of [s]. *)
Lemma parseDigits_pretty_N_go x s acc :
  (0 < x)%N →
  ∃ k, 0 ≤ k ∧
    JS.parseDigits 10 (pretty_N_go x s) acc
    = JS.parseDigits 10 s (Some (10 ^ k * default 0 acc + Z.of_N x)).
Proof.
  revert s acc. induction (N.lt_wf_0 x) as [x _ IH]; intros s acc Hx.
  rewrite pretty_N_go_step by done.
  destruct (pretty_N_char_digit (x `mod` 10)) as [_ Hd]; [apply N.mod_lt; lia|].
  assert (Z.of_N (x `mod` 10) < 10) as Hlt.
  { pose proof (N.mod_lt x 10). lia. }
  assert (Z.of_N x = 10 * Z.of_N (x `div` 10) + Z.of_N (x `mod` 10)) as Hx10.
  { rewrite (N.div_mod x 10) at 1 by done. lia. }
  destruct (N.eq_0_gt_0_cases (x `div` 10)) as [H0|Hp].
  - rewrite H0, pretty_N_go_0. exists 1. split; [lia|].
    cbn [JS.parseDigits]. rewrite Hd.
    destruct (Z.ltb_spec (Z.of_N (x `mod` 10)) 10); [|lia].
    do 2 f_equal. rewrite H0 in Hx10. lia.
  - destruct (IH (x `div` 10)%N (N.div_lt x 10 Hx eq_refl)
                (String (pretty_N_char (x `mod` 10)) s) acc Hp) as (k & Hk & ->).
    exists (k + 1). split; [lia|].
    cbn [JS.parseDigits]. rewrite Hd.
    destruct (Z.ltb_spec (Z.of_N (x `mod` 10)) 10); [|lia].
    do 2 f_equal. cbn [default]. rewrite Z.pow_add_r, Hx10 by lia.
    change (10 ^ 1) with 10. unfold Datatypes.id. ring.
Qed.

Lemma fmap_mul_1 (o : option Z) : Z.mul 1 <$> o = o.
Proof. destruct o as [z|]; [|done]. simpl. f_equal. lia. Qed.

Lemma isDigit_cases c :
  isDigit c = true →
  c = "0"%char ∨ c = "1"%char ∨ c = "2"%char ∨ c = "3"%char ∨ c = "4"%char
  ∨ c = "5"%char ∨ c = "6"%char ∨ c = "7"%char ∨ c = "8"%char ∨ c = "9"%char.
Proof.
  destruct c as [[] [] [] [] [] [] [] []]; vm_compute; intros H;
    try discriminate H; tauto.
Qed.

(** [parseInt] skips the white space of the language, whatever its width in
    bytes, and nothing else: a no-break space (U+00A0), a byte order mark
    (U+FEFF) and a tab followed by an ideographic space (U+3000) are skipped,
    a zero-width space (U+200B) is not.  So the callback data
    "user_choice:cancel:" followed by a no-break space and "42" names the
    message 42. *)
Example parseInt_white_space :
  JS.parseInt (String "194"%char (String "160"%char "42")) = Some 42
  ∧ JS.parseInt (String "239"%char (String "187"%char (String "191"%char "0x1f")))
    = Some 31
  ∧ JS.parseInt
      (String "009"%char (String "227"%char (String "128"%char (String "128"%char "-7px"))))
    = Some (-7)
  ∧ JS.parseInt (String "226"%char (String "128"%char (String "139"%char "42"))) = None
  ∧ originalMessageIdOf ("user_choice:cancel:" +:+ String "194"%char (String "160"%char "42"))
    = Some 42.
Proof. repeat split; reflexivity. Qed.

(** [parseInt] on a string of digits reads all of them in base 10. *)
Lemma parseInt_digits s :
  allChars isDigit s = true → JS.parseInt s = JS.parseDigits 10 s None.
Proof.
  destruct s as [|c r]; [done|]. simpl. rewrite andb_true_iff. intros [Hc Hr].
  destruct r as [|x r'].
  - apply isDigit_cases in Hc.
    repeat destruct Hc as [->|Hc]; try subst c; by vm_compute.
  - simpl in Hr. apply andb_true_iff in Hr as [Hx _].
    apply isDigit_cases in Hc. apply isDigit_cases in Hx.
    repeat destruct Hc as [->|Hc]; try subst c;
      repeat destruct Hx as [->|Hx]; try subst x;
      unfold JS.parseInt; cbn [JS.skipWhite JS.isWhite]; simpl; apply fmap_mul_1.
Qed.

Lemma parseInt_neg_digits s :
  allChars isDigit s = true →
  JS.parseInt ("-" +:+ s) = Z.mul (-1) <$> JS.parseDigits 10 s None.
Proof.
  intros Hs. rewrite app_String, app_empty.
  destruct s as [|c r]; [done|]. simpl in Hs. apply andb_true_iff in Hs as [Hc Hr].
  destruct r as [|x r'].
  - apply isDigit_cases in Hc.
    repeat destruct Hc as [->|Hc]; try subst c; by vm_compute.
  - simpl in Hr. apply andb_true_iff in Hr as [Hx _].
    apply isDigit_cases in Hc. apply isDigit_cases in Hx.
    repeat destruct Hc as [->|Hc]; try subst c;
      repeat destruct Hx as [->|Hx]; try subst x;
      unfold JS.parseInt; cbn [JS.skipWhite JS.isWhite]; simpl; reflexivity.
Qed.

Lemma pretty_pos_digits p :
  allChars isDigit (pretty (N.pos p)) = true
  ∧ JS.parseDigits 10 (pretty (N.pos p)) None = Some (Z.pos p).
Proof.
  unfold pretty, pretty_N. rewrite decide_False by done. split.
  - by apply pretty_N_go_digits.
  - destruct (parseDigits_pretty_N_go (N.pos p) "" None) as (k & _ & ->); [done|].
    cbn [JS.parseDigits default]. f_equal. lia.
Qed.

(** Printing an integer and reading it back. *)
Lemma parseInt_numToString z : JS.parseInt (JS.numToString z) = Some z.
Proof.
  unfold JS.numToString. destruct z as [|p|p]; [done|..].
  - change (pretty (Z.pos p)) with (pretty (N.pos p)).
    destruct (pretty_pos_digits p) as [Hd Hp]. by rewrite parseInt_digits, Hp.
  - change (pretty (Z.neg p)) with ("-" +:+ pretty (N.pos p)).
    destruct (pretty_pos_digits p) as [Hd Hp]. by rewrite parseInt_neg_digits, Hp.
Qed.

Lemma isDigit_numeral c : isDigit c = true → isNumeralChar c = true.
Proof. unfold isNumeralChar. by intros ->. Qed.

Lemma numToString_numeral z : allChars isNumeralChar (JS.numToString z) = true.
Proof.
  unfold JS.numToString. destruct z as [|p|p]; [done|..].
  - change (pretty (Z.pos p)) with (pretty (N.pos p)).
    eapply allChars_impl; [apply isDigit_numeral|apply pretty_pos_digits].
  - change (pretty (Z.neg p)) with ("-" +:+ pretty (N.pos p)).
    rewrite allChars_app. apply andb_true_iff. split; [done|].
    eapply allChars_impl; [apply isDigit_numeral|apply pretty_pos_digits].
Qed.

(** [split] on a string that does not hold the separator, and on one that
    holds it after a first part that does not. *)
Lemma split_no_sep sep s :
  allChars (λ c, negb (Ascii.eqb c sep)) s = true → JS.split sep s = [s].
Proof.
  induction s as [|c r IH]; [done|]. simpl. rewrite andb_true_iff. intros [Hc Hr].
  apply negb_true_iff in Hc. by rewrite Hc, IH.
Qed.

Lemma split_app_sep sep a b :
  allChars (λ c, negb (Ascii.eqb c sep)) a = true →
  JS.split sep (a +:+ String sep b) = a :: JS.split sep b.
Proof.
  induction a as [|c r IH].
  - intros _. rewrite app_empty. simpl. by rewrite Ascii.eqb_refl.
  - intros H. simpl in H. apply andb_true_iff in H as [Hc Hr].
    apply negb_true_iff in Hc.
    rewrite app_String. cbn [JS.split]. by rewrite Hc, IH.
Qed.

Lemma numeral_no_colon c : isNumeralChar c = true → negb (Ascii.eqb c ":") = true.
Proof.
  destruct c as [[] [] [] [] [] [] [] []]; vm_compute; intros H;
    try discriminate H; reflexivity.
Qed.

(** The callback data [`user_choice:${choice}:${messageId}`], taken apart. *)
Lemma user_choice_data choice n :
  allChars (λ c, negb (Ascii.eqb c ":")) choice = true →
  let data := "user_choice:" +:+ choice +:+ ":" +:+ JS.numToString n in
  JS.startsWith "user_choice:" data = true
  ∧ choiceOf data = Some choice
  ∧ originalMessageIdOf data = Some n.
Proof.
  intros Hc data.
  assert (JS.split ":" data = ["user_choice"; choice; JS.numToString n]) as Hs.
  { subst data.
    change ("user_choice:" +:+ choice +:+ ":" +:+ JS.numToString n)
      with ("user_choice" +:+ String ":" (choice +:+ String ":" (JS.numToString n))).
    rewrite !split_app_sep by done. rewrite split_no_sep; [done|].
    eapply allChars_impl; [apply numeral_no_colon|apply numToString_numeral]. }
  split; [apply prefix_app|].
  unfold choiceOf, originalMessageIdOf. rewrite Hs. split; [done|].
  apply parseInt_numToString.
Qed.

(** ** Keys *)

Lemma numeral_no_underscore c : isNumeralChar c = true → c ≠ "_"%char.
Proof. intros H ->. by vm_compute in H. Qed.

(** Two numerals followed by an underscore and a rest: the underscore
    tells where the numeral ends. *)
Lemma numeral_sep_inj a a' b b' :
  allChars isNumeralChar a = true →
  allChars isNumeralChar a' = true →
  a +:+ String "_" b = a' +:+ String "_" b' →
  a = a' ∧ b = b'.
Proof.
  revert a'. induction a as [|c a IH]; intros [|c' a'] Ha Ha'.
  - rewrite !app_empty. by intros [= ->].
  - rewrite app_empty, app_String. intros [= <- _]. by simpl in Ha'.
  - rewrite app_empty, app_String. intros [= -> _]. by simpl in Ha.
  - rewrite !app_String. intros [= -> E].
    simpl in Ha, Ha'. apply andb_true_iff in Ha as [_ Ha].
    apply andb_true_iff in Ha' as [_ Ha'].
    destruct (IH a' Ha Ha' E) as [-> ->]. done.
Qed.

Lemma tempKeyOf_split u i :
  tempKeyOf u i = "temp_" +:+ (JS.numToString u +:+ String "_" (JS.numOrNaNToString i)).
Proof. reflexivity. Qed.

Lemma NaN_not_numeral z : JS.numToString z ≠ "NaN".
Proof.
  intros E. pose proof (numToString_numeral z) as H. rewrite E in H. by vm_compute in H.
Qed.

Lemma tempKeyOf_inj u i u' i' :
  tempKeyOf u i = tempKeyOf u' i' → u = u' ∧ i = i'.
Proof.
  rewrite !tempKeyOf_split. intros E.
  assert (JS.numToString u +:+ String "_" (JS.numOrNaNToString i)
          = JS.numToString u' +:+ String "_" (JS.numOrNaNToString i')) as E'.
  { by injection E. }
  apply numeral_sep_inj in E' as [Hu Hi]; [|apply numToString_numeral..].
  split; [by apply numToString_inj|].
  destruct i as [n|], i' as [n'|]; simpl in Hi.
  - f_equal. by apply numToString_inj.
  - by apply NaN_not_numeral in Hi.
  - symmetry in Hi. by apply NaN_not_numeral in Hi.
  - done.
Qed.

Lemma choiceKeyOf_inj i i' : choiceKeyOf i = choiceKeyOf i' → i = i'.
Proof.
  unfold choiceKeyOf. intros E.
  assert (JS.numOrNaNToString i = JS.numOrNaNToString i') as Hi by (by injection E).
  destruct i as [n|], i' as [n'|]; simpl in Hi.
  - f_equal. by apply numToString_inj.
  - by apply NaN_not_numeral in Hi.
  - symmetry in Hi. by apply NaN_not_numeral in Hi.
  - done.
Qed.

Lemma tempKeyOf_ne_choiceKeyOf u i j : tempKeyOf u i ≠ choiceKeyOf j.
Proof. unfold tempKeyOf, choiceKeyOf. intros E. by apply (f_equal (String.get 0)) in E. Qed.

(** ** [escapeHTML], character by character *)

Lemma escapeHTML_cons c s : escapeHTML (String c s) = escapeChar c +:+ escapeHTML s.
Proof.
  change (String c s) with (String c "" +:+ s). rewrite escapeHTML_app. f_equal.
  unfold escapeHTML, escapeChar. cbn [JS.replaceAll].
  destruct (Ascii.eqb_spec c "&") as [->|H1]; [done|].
  cbn [JS.replaceAll].
  destruct (Ascii.eqb_spec c "<") as [->|H2]; [done|].
  cbn [JS.replaceAll].
  destruct (Ascii.eqb_spec c ">") as [->|H3]; done.
Qed.

Lemma escapeHTML_nil : escapeHTML "" = "".
Proof. reflexivity. Qed.

Lemma escapeChar_cases c :
  (c = "&"%char ∧ escapeChar c = "&amp;")
  ∨ (c = "<"%char ∧ escapeChar c = "&lt;")
  ∨ (c = ">"%char ∧ escapeChar c = "&gt;")
  ∨ (c ≠ "&"%char ∧ c ≠ "<"%char ∧ c ≠ ">"%char ∧ escapeChar c = String c "").
Proof.
  unfold escapeChar.
  destruct (Ascii.eqb_spec c "&") as [->|H1]; [by left|].
  destruct (Ascii.eqb_spec c "<") as [->|H2]; [by right; left|].
  destruct (Ascii.eqb_spec c ">") as [->|H3]; [by right; right; left|].
  by right; right; right.
Qed.

Lemma escapeHTML_no_angle s : allChars (λ c, negb (isAngle c)) (escapeHTML s) = true.
Proof.
  induction s as [|c s IH]; [done|].
  rewrite escapeHTML_cons, allChars_app, IH, andb_true_r.
  destruct (escapeChar_cases c) as [[_ ->]|[[_ ->]|[[_ ->]|(H1 & H2 & H3 & ->)]]];
    try done.
  simpl. rewrite andb_true_r. unfold isAngle.
  apply negb_true_iff, orb_false_iff. split; by apply Ascii.eqb_neq.
Qed.

Lemma escapeHTML_inj a b : escapeHTML a = escapeHTML b → a = b.
Proof.
  revert b. induction a as [|x a IH]; intros [|y b].
  - done.
  - rewrite escapeHTML_cons, escapeHTML_nil.
    destruct (escapeChar_cases y) as [[_ ->]|[[_ ->]|[[_ ->]|(_ & _ & _ & ->)]]];
      by rewrite app_String.
  - rewrite escapeHTML_cons, escapeHTML_nil.
    destruct (escapeChar_cases x) as [[_ ->]|[[_ ->]|[[_ ->]|(_ & _ & _ & ->)]]];
      by rewrite app_String.
  - rewrite !escapeHTML_cons.
    destruct (escapeChar_cases x) as [[-> ->]|[[-> ->]|[[-> ->]|(X1 & X2 & X3 & ->)]]];
      destruct (escapeChar_cases y) as [[-> ->]|[[-> ->]|[[-> ->]|(Y1 & Y2 & Y3 & ->)]]];
      rewrite ?app_String, ?app_empty; intros E; try discriminate E;
      try (injection E as E; f_equal; by apply IH);
      injection E as E1 E2; first [congruence|subst; f_equal; by apply IH].
Qed.

Lemma escapeHTML_plain s :
  allChars (λ c, negb (isAngle c || Ascii.eqb c "&")) s = true → escapeHTML s = s.
Proof.
  induction s as [|c s IH]; [done|]. simpl. rewrite andb_true_iff. intros [Hc Hs].
  rewrite escapeHTML_cons, IH by done.
  apply negb_true_iff, orb_false_iff in Hc as [Hc H1].
  apply orb_false_iff in Hc as [H2 H3].
  unfold escapeChar. by rewrite H1, H2, H3.
Qed.

(** ** Substrings *)




(** ** The state after one update *)

Section Closed.

Context (cfg : Config).

Lemma getMediaData_run message s : getMediaData message s = (mediaOf message, s, []).
Proof.
  unfold mediaOf, getMediaData. unfold_m.
  destruct (photo message) as [l|]; [by destruct (last l)|].
  by destruct (video message), (document message), (audio message).
Qed.

Lemma handleUserMessage_state user chat message now s :
  (handleUserMessage cfg (Some user) (Some chat) (Some message) now s).1.2
  = stagedState cfg user chat message now s.
Proof.
  unfold handleUserMessage, stagedState, choicePrompt. unfold_m.
  rewrite getMediaData_run. destruct (mediaOf message) as [md|e]; [|done].
  cbv beta iota zeta. rewrite call_run. by destruct (transport cfg _).
Qed.

Lemma handleUserMessage_no_chat user message now s :
  (handleUserMessage cfg (Some user) None (Some message) now s).1.2 = s.
Proof. unfold handleUserMessage. by unfold_m. Qed.

Lemma adminActions_message from chat message now s :
  adminActions cfg (UpdMessage from chat message now) s = (Ok tt, s, []).
Proof. reflexivity. Qed.

(** A message, in any state. *)
Lemma dispatch_message_state from chat message now s :
  (dispatch cfg (UpdMessage from chat message now) s).1
  = nextState cfg (UpdMessage from chat message now) s.
Proof.
  rewrite dispatch_middleware. cbn [fst snd middleware nextState].
  destruct (isContent message).
  - destruct from as [user|]; [|done].
    destruct chat as [c|]; [apply handleUserMessage_state|apply handleUserMessage_no_chat].
  - unfold handleUserChoice. rewrite adminActions_message.
    by destruct from as [user|], chat as [c|].
Qed.

Lemma handleUserChoice_state user data hm next s :
  currentMessageIndex s = 0%nat →
  JS.startsWith "user_choice:" data = true →
  (handleUserChoice cfg (UpdCallback (Some user) (Some data) hm) next s).1.2
  = chosenState cfg user data s.
Proof.
  intros Hi Hp. unfold chosenState.
  destruct (pendingMessages s !! tempKeyOf (id user) (originalMessageIdOf data))
    as [tm|] eqn:Hl.
  - rewrite (handleUserChoice_staged_state cfg user data hm next s tm Hi Hp Hl).
    by rewrite Hi.
  - rewrite handleUserChoice_stale by done. by destruct (transport cfg _).
Qed.

Lemma decidedState_admin from tok hm s :
  currentMessageIndex s = 0%nat →
  isAdmin cfg from = true →
  isAdminAction tok = true →
  (dispatch cfg (decision from tok hm) s).1 = decidedState cfg tok s.
Proof.
  intros Hi Ha Htok. rewrite dispatch_admin by done. unfold decidedState.
  destruct (isAdminAction_cases tok Htok) as [->|[->| ->]].
  - rewrite decisionHandler_approve.
    destruct (messageQueue s) as [|m rest] eqn:Hq.
    + rewrite (handleApprove_empty cfg s Hi Hq). by destruct (transport cfg notFoundAck).
    + rewrite (handleApprove_run cfg s m rest Hi Hq), publishToChannel_run.
      change (String.eqb "admin_approve" "admin_approve") with true. cbv iota.
      destruct (JS.truthy (CHANNEL_ID cfg)); [|done].
      destruct (channelPost cfg m) as [c|]; [|done].
      by destruct (transport cfg c).
  - rewrite decisionHandler_reject.
    destruct (messageQueue s) as [|m rest] eqn:Hq.
    + rewrite (handleReject_empty cfg s Hi Hq). by destruct (transport cfg notFoundAck).
    + by rewrite (handleReject_run cfg s m rest Hi Hq).
  - rewrite decisionHandler_skip, (handleSkip_run cfg s Hi).
    by destruct (messageQueue s).
Qed.

(** Every update, on a state whose index is 0. *)
Lemma dispatch_state u s :
  currentMessageIndex s = 0%nat →
  (dispatch cfg u s).1 = nextState cfg u s.
Proof.
  intros Hi. destruct u as [from|from chat message now|from data hm].
  - rewrite dispatch_middleware. cbn [fst snd middleware nextState].
    unfold handleStart. unfold_m. rewrite call_run. by destruct (transport cfg _).
  - apply dispatch_message_state.
  - destruct data as [d|].
    2: { rewrite dispatch_middleware. cbn [fst snd middleware nextState].
         unfold handleUserChoice. by destruct from. }
    destruct from as [user|].
    2: { cbn [nextState].
         destruct (isAdminAction d) eqn:Hd.
         - change (UpdCallback None (Some d) hm) with (decision None d hm).
           by rewrite dispatch_not_admin.
         - rewrite dispatch_middleware. cbn [fst snd middleware].
           unfold handleUserChoice, adminActions. by rewrite Hd. }
    cbn [nextState].
    destruct (JS.startsWith "user_choice:" d) eqn:Hp.
    + rewrite dispatch_middleware. cbn [fst snd middleware].
      by apply handleUserChoice_state.
    + destruct (isAdminAction d) eqn:Hd; cbn [andb].
      * change (UpdCallback (Some user) (Some d) hm) with (decision (Some user) d hm).
        destruct (isAdmin cfg (Some user)) eqn:Ha.
        -- by apply decidedState_admin.
        -- by rewrite dispatch_not_admin.
      * rewrite dispatch_middleware. cbn [fst snd middleware].
        unfold handleUserChoice, adminActions. by rewrite Hp, Hd.
Qed.

End Closed.

Section Composition.

Context (cfg : Config).

Lemma choiceData_parts choice n :
  allChars (λ c, negb (Ascii.eqb c ":")) choice = true →
  JS.startsWith "user_choice:" (choiceData choice n) = true
  ∧ choiceOf (choiceData choice n) = Some choice
  ∧ originalMessageIdOf (choiceData choice n) = Some n.
Proof. apply user_choice_data. Qed.

Lemma choiceButtons_data n :
  snd <$> concat (choiceButtons n)
  = [choiceData "with_name" n; choiceData "anonymous" n; choiceData "cancel" n].
Proof. reflexivity. Qed.

Lemma stagedState_index user chat message now s :
  currentMessageIndex (stagedState cfg user chat message now s) = currentMessageIndex s.
Proof.
  unfold stagedState. destruct (mediaOf message); [|done].
  by destruct (transport cfg _).
Qed.

Lemma stagedState_queue user chat message now s :
  messageQueue (stagedState cfg user chat message now s) = messageQueue s.
Proof.
  unfold stagedState. destruct (mediaOf message); [|done].
  by destruct (transport cfg _).
Qed.

(** The entry of a submission right after [handleUserMessage]. *)
Lemma stagedState_lookup user chat message now md s :
  mediaOf message = Ok md →
  pendingMessages (stagedState cfg user chat message now s)
    !! tempKeyOf (id user) (Some (message_id message))
  = Some (tempMessageOf user chat message md now).
Proof.
  intros Hmd. unfold stagedState. rewrite Hmd. cbv zeta.
  destruct (transport cfg _); cbn [pendingMessages setMap].
  - rewrite lookup_insert_ne by (intros E; symmetry in E; by apply tempKeyOf_ne_choiceKeyOf in E).
    apply lookup_insert_eq.
  - apply lookup_insert_eq.
Qed.

(** The entries of other submissions are as they were. *)
Lemma stagedState_lookup_other user chat message now s u n :
  (u, n) ≠ (id user, message_id message) →
  pendingMessages (stagedState cfg user chat message now s) !! tempKeyOf u (Some n)
  = pendingMessages s !! tempKeyOf u (Some n).
Proof.
  intros Hne. unfold stagedState. destruct (mediaOf message); [|done]. cbv zeta.
  assert (tempKeyOf (id user) (Some (message_id message)) ≠ tempKeyOf u (Some n)) as H1.
  { intros [E1 E2]%tempKeyOf_inj. injection E2 as E2. congruence. }
  assert (choiceKeyOf (Some (message_id message)) ≠ tempKeyOf u (Some n)) as H2.
  { intros E. symmetry in E. by apply tempKeyOf_ne_choiceKeyOf in E. }
  destruct (transport cfg _); cbn [pendingMessages setMap];
    by rewrite ?lookup_insert_ne.
Qed.

End Composition.

Lemma nextState_index cfg u s :
  currentMessageIndex s = 0%nat → currentMessageIndex (nextState cfg u s) = 0%nat.
Proof.
  intros Hi. rewrite <-(dispatch_state cfg u s Hi).
  eapply effect_index, dispatch_effect; done.
Qed.

Lemma exec_state cfg upds s :
  currentMessageIndex s = 0%nat →
  (exec cfg upds s).1 = foldl (λ s u, nextState cfg u s) s upds.
Proof.
  revert s. induction upds as [|u upds IH]; intros s Hi; [done|].
  rewrite exec_cons, dispatch_state by done. cbn [foldl].
  apply IH. by apply nextState_index.
Qed.

Lemma channelPost_sameOutcomes cfg1 cfg2 m :
  sameOutcomes cfg1 cfg2 → channelPost cfg1 m = channelPost cfg2 m.
Proof.
  intros (Hb & _ & Hc & _).
  unfold channelPost, finalCaptionText, signature. by rewrite Hb, Hc.
Qed.

Lemma nextState_sameOutcomes cfg1 cfg2 u s :
  sameOutcomes cfg1 cfg2 → nextState cfg1 u s = nextState cfg2 u s.
Proof.
  intros Hsame. pose proof Hsame as (Hb & Ha & Hc & Hreply & Hedit & Hpost).
  destruct u as [from|[user|] [chat|] message now|[user|] [d|] hm]; try done.
  - cbn [nextState]. destruct (isContent message); [|done].
    unfold stagedState, choicePrompt. by rewrite Hreply.
  - cbn [nextState]. destruct (JS.startsWith "user_choice:" d).
    + unfold chosenState.
      destruct (pendingMessages s !! _); [|done].
      destruct (choiceIs (choiceOf d) "cancel"); [|done].
      specialize (Hedit "❌ Отправка отменена.").
      destruct (transport cfg1 (EditMessageText _)), (transport cfg2 (EditMessageText _));
        try done.
      * destruct Hedit as [H _]. by destruct H.
      * destruct Hedit as [_ H]. by destruct H.
    + assert (isAdmin cfg1 (Some user) = isAdmin cfg2 (Some user)) as ->.
      { unfold isAdmin, adminId. by rewrite Ha. }
      destruct (isAdminAction d && isAdmin cfg2 (Some user)); [|done].
      unfold decidedState. destruct (messageQueue s) as [|m q]; [done|].
      rewrite Hc, (channelPost_sameOutcomes cfg1 cfg2 m Hsame).
      destruct (String.eqb d "admin_approve"); [|done].
      destruct (JS.truthy (CHANNEL_ID cfg2)); [|done].
      destruct (channelPost cfg2 m) as [c|] eqn:Hcp; [|done].
      apply channelPost_kind in Hcp as (Hk & _).
      specialize (Hpost c Hk).
      destruct (transport cfg1 c), (transport cfg2 c); try done.
      * destruct Hpost as [H _]. by destruct H.
      * destruct Hpost as [_ H]. by destruct H.
Qed.

Section More.

Context (cfg : Config).

Lemma decidedState_cases tok s :
  decidedState cfg tok s = s ∨ decidedState cfg tok s = afterRemoval s.
Proof.
  unfold decidedState.
  destruct (messageQueue s), (String.eqb tok "admin_skip"),
    (String.eqb tok "admin_approve"), (JS.truthy (CHANNEL_ID cfg)); auto;
    destruct (channelPost cfg _) as [c|]; auto; destruct (transport cfg c); auto.
Qed.

(** The queue after one update: extended at the tail, or, for a decision
    of the administrator, without its head. *)
Lemma nextState_queue u s :
  messageQueue s `prefix_of` messageQueue (nextState cfg u s)
  ∨ (∃ from token hm,
       u = decision from token hm
       ∧ isAdminAction token = true
       ∧ isAdmin cfg from = true
       ∧ messageQueue (nextState cfg u s) = tail (messageQueue s)).
Proof.
  destruct u as [from|[user|] [chat|] message now|[user|] [d|] hm]; try by left.
  - left. cbn [nextState]. destruct (isContent message); [|done].
    by rewrite stagedState_queue.
  - cbn [nextState]. destruct (JS.startsWith "user_choice:" d).
    + left. unfold chosenState.
      destruct (pendingMessages s !! _); [|done].
      destruct (choiceIs (choiceOf d) "cancel").
      { by destruct (transport cfg _). }
      destruct (_ || _); [|done]. cbn [messageQueue]. by apply prefix_app_r.
    + destruct (isAdminAction d) eqn:Hd; [|by left].
      destruct (isAdmin cfg (Some user)) eqn:Ha; [|by left].
      cbn [andb]. destruct (decidedState_cases d s) as [-> | ->]; [by left|].
      right. by exists (Some user), d, hm.
Qed.

Lemma exec_trace u upds s :
  (exec cfg (u :: upds) s).2 = (dispatch cfg u s).2 ++ (exec cfg upds (dispatch cfg u s).1).2.
Proof.
  cbn [exec]. destruct (dispatch cfg u s) as [s1 t1]. cbn [fst snd].
  by destruct (exec cfg upds s1) as [s2 t2].
Qed.

Lemma isAdmin_NaN from : adminId cfg = None → isAdmin cfg from = false.
Proof. intros H. unfold isAdmin. rewrite H. by destruct from. Qed.

Lemma gets_bind_trace {A B} (f : BotState → A) (k : A → M B) s :
  ((gets f ≫= k) s).2 = (k (f s) s).2.
Proof. unfold_m. by destruct (k (f s) s) as [[r s1] t1]. Qed.

(** A handler that ends by answering the callback query, and answers it in
    its [catch] as well, makes at least one attempt to answer. *)
Lemma try_answer_run {A} (body : M A) c1 c2 s :
  Exists (λ e, isAnswer (ev_call e) = true)
    (try_catch (body;; call cfg (AnswerCbQuery c1);; mret tt)
               (λ _, call cfg (AnswerCbQuery c2);; mret tt) s).2.
Proof.
  unfold_m. destruct (body s) as [[[a|e] s1] t1].
  - rewrite call_run.
    destruct (transport cfg (AnswerCbQuery c1)); cbn [snd].
    + apply Exists_app. right. by constructor.
    + rewrite call_run. destruct (transport cfg (AnswerCbQuery c2)); cbn [snd];
        apply Exists_app; left; apply Exists_app; right; by constructor.
  - rewrite call_run. destruct (transport cfg (AnswerCbQuery c2)); cbn [snd];
      apply Exists_app; right; by constructor.
Qed.

End More.

Section Waiting.

Context (cfg : Config).

(** A staged entry is still there after any update but a choice of its
    author on it. *)
Lemma nextState_staged u s userId messageId :
  ¬ choiceOn userId messageId u →
  is_Some (pendingMessages s !! tempKeyOf userId (Some messageId)) →
  is_Some (pendingMessages (nextState cfg u s) !! tempKeyOf userId (Some messageId)).
Proof.
  intros Hu Hl. set (k := tempKeyOf userId (Some messageId)) in *.
  destruct u as [from|[user|] [chat|] message now|[user|] [d|] hm]; try done.
  - cbn [nextState]. destruct (isContent message); [|done].
    unfold stagedState. destruct (mediaOf message); [|done]. cbv zeta.
    destruct (transport cfg _); cbn [pendingMessages setMap];
      rewrite !lookup_insert_is_Some'; auto.
  - cbn [nextState]. destruct (JS.startsWith "user_choice:" d) eqn:Hp.
    + assert (tempKeyOf (id user) (originalMessageIdOf d) ≠ k) as H1.
      { intros [E1 E2]%tempKeyOf_inj. apply Hu. by repeat split. }
      assert (choiceKeyOf (originalMessageIdOf d) ≠ k) as H2.
      { intros E. symmetry in E. by apply tempKeyOf_ne_choiceKeyOf in E. }
      unfold chosenState. destruct (pendingMessages s !! tempKeyOf (id user) _); [|done].
      destruct (choiceIs (choiceOf d) "cancel").
      { destruct (transport cfg _); [|done]. cbn [pendingMessages setMap].
        by rewrite !lookup_delete_ne. }
      destruct (_ || _); [|done]. cbv zeta. cbn [pendingMessages].
      rewrite !lookup_delete_ne by done. rewrite lookup_insert_is_Some'. auto.
    + destruct (isAdminAction d && isAdmin cfg (Some user)); [|done].
      destruct (decidedState_cases cfg d s) as [-> | ->]; [done|].
      cbn [afterRemoval pendingMessages]. rewrite lookup_delete_ne; [done|].
      rewrite <-numToString_0. intros E. by apply numToString_ne_temp in E.
Qed.

End Waiting.

(** ** Keys and records of the reachable states *)

Section Invariants.

Context (cfg : Config).

Lemma stagedBy_shape u k : stagedBy u k → keyShape k.
Proof.
  destruct u as [from|[user|] chat message now|from data hm]; try done.
  intros [->| ->]; [left; by do 2 eexists|right; left; by eexists].
Qed.

(** Every key of the staging map has one of the three shapes. *)
Lemma reachable_keys s k :
  reachable cfg s → is_Some (pendingMessages s !! k) → keyShape k.
Proof.
  intros Hr. revert k. induction Hr as [|s u Hr IH]; intros k.
  { cbn [initialState pendingMessages]. rewrite lookup_empty. by intros [? ?]. }
  pose proof (dispatch_effect cfg u s (reachable_index cfg s Hr)) as He.
  destruct He as [|k1 v Hs|k1 v1 k2 v2 Hs1 Hs2|k1 k2 _ _|k1 k2 m ps _ _ _ _|];
    cbn [pendingMessages setMap afterRemoval].
  - apply IH.
  - rewrite lookup_insert_is_Some. intros [<-|[_ H]]; [by eapply stagedBy_shape|by apply IH].
  - rewrite !lookup_insert_is_Some.
    intros [<-|[_ [<-|[_ H]]]]; [by eapply stagedBy_shape..|by apply IH].
  - rewrite !lookup_delete_is_Some. intros (_ & _ & H). by apply IH.
  - rewrite !lookup_delete_is_Some, lookup_insert_is_Some.
    intros (_ & _ & [<-|[_ H]]); [|by apply IH].
    right. right. by eexists.
  - rewrite lookup_delete_is_Some. intros [_ H]. by apply IH.
Qed.

Lemma NaN_key_shape u : ¬ keyShape (tempKeyOf u None).
Proof.
  intros [(u' & n & E)|[(n & E)|(p & E)]].
  - by apply tempKeyOf_inj in E as [_ ?].
  - by apply tempKeyOf_ne_choiceKeyOf in E.
  - symmetry in E. by apply numToString_ne_temp in E.
Qed.

(** *** Records *)

Lemma getMessageType_content message :
  isContent message = true → getMessageType message ≠ "unknown".
Proof.
  unfold isContent, getMessageType.
  destruct (bool_decide (is_Some (msg_text message))); [done|].
  destruct (bool_decide (is_Some (photo message))); [done|].
  destruct (bool_decide (is_Some (video message))); [done|].
  destruct (bool_decide (is_Some (document message))); [done|].
  by destruct (bool_decide (is_Some (audio message))).
Qed.

Lemma tempMessageOf_coherent user chat message md now :
  isContent message = true →
  mediaOf message = Ok md →
  coherent (tempMessageOf user chat message md now).
Proof.
  unfold isContent, mediaOf, getMediaData, coherent, tempMessageOf, getMessageType,
    getMessageText.
  cbn [media contentType text]. unfold_m.
  destruct (msg_text message) as [t|].
  { intros _ _. destruct md; [by left|]. split; [done|by eexists]. }
  destruct (photo message) as [l|].
  { destruct (last l); [|done]. intros _ [= <-]. by right. }
  destruct (video message) as [v|].
  { intros _ [= <-]. by right. }
  destruct (document message) as [d|].
  { intros _ [= <-]. by right. }
  destruct (audio message) as [a|].
  { intros _ [= <-]. by right. }
  done.
Qed.

(** A property of records that holds of every [tempMessage] and that the
    two updates of a record keep holds of every stored record. *)
Lemma nextState_records (P : PendingMessage → Prop) u s :
  (∀ user chat message md now,
     isContent message = true → mediaOf message = Ok md →
     P (tempMessageOf user chat message md now)) →
  (∀ m k, P m → P (withChoiceMessageId m k)) →
  (∀ m p, P m → P (withPublishType m p)) →
  map_Forall (λ _, P) (pendingMessages s) →
  Forall P (messageQueue s) →
  map_Forall (λ _, P) (pendingMessages (nextState cfg u s))
  ∧ Forall P (messageQueue (nextState cfg u s)).
Proof.
  intros Hnew Hchoice Hpublish Hpm Hq.
  destruct u as [from|[user|] [chat|] message now|[user|] [d|] hm]; try done.
  - cbn [nextState]. destruct (isContent message) eqn:Hc; [|done].
    unfold stagedState. destruct (mediaOf message) as [md|e] eqn:Hmd; [|done].
    cbv zeta. specialize (Hnew user chat message md now Hc Hmd).
    destruct (transport cfg _); cbn [pendingMessages messageQueue setMap];
      (split; [|done]); repeat apply map_Forall_insert_2; auto.
  - cbn [nextState]. destruct (JS.startsWith "user_choice:" d).
    + unfold chosenState.
      destruct (pendingMessages s !! _) as [tm|] eqn:Hl; [|done].
      pose proof (Hpm _ _ Hl) as Htm. cbv beta in Htm.
      destruct (choiceIs (choiceOf d) "cancel").
      { destruct (transport cfg _); [|done]. cbn [pendingMessages messageQueue setMap].
        split; [|done]. by do 2 apply map_Forall_delete. }
      destruct (_ || _); [|done]. cbv zeta. cbn [pendingMessages messageQueue].
      split.
      * do 2 apply map_Forall_delete. apply map_Forall_insert_2; auto.
      * apply Forall_app. split; [done|]. repeat constructor. auto.
    + destruct (isAdminAction d && isAdmin cfg (Some user)); [|done].
      assert (decidedState cfg d s = s ∨ decidedState cfg d s = afterRemoval s) as [-> | ->].
      { unfold decidedState.
        destruct (messageQueue s), (String.eqb d "admin_skip"),
          (String.eqb d "admin_approve"), (JS.truthy (CHANNEL_ID cfg)); auto;
          destruct (channelPost cfg _) as [c|]; auto; destruct (transport cfg c); auto. }
      * done.
      * cbn [afterRemoval pendingMessages messageQueue]. split.
        -- by apply map_Forall_delete.
        -- destruct (messageQueue s); [done|]. by apply Forall_inv_tail in Hq.
Qed.

Lemma reachable_records (P : PendingMessage → Prop) s :
  (∀ user chat message md now,
     isContent message = true → mediaOf message = Ok md →
     P (tempMessageOf user chat message md now)) →
  (∀ m k, P m → P (withChoiceMessageId m k)) →
  (∀ m p, P m → P (withPublishType m p)) →
  reachable cfg s →
  map_Forall (λ _, P) (pendingMessages s) ∧ Forall P (messageQueue s).
Proof.
  intros Hnew Hchoice Hpublish. induction 1 as [|s u Hr [IH1 IH2]].
  - split; [apply map_Forall_empty|constructor].
  - rewrite dispatch_state by (by apply (reachable_index cfg)).
    by apply nextState_records.
Qed.

(** The records of the queue carry the choice of their author. *)
Lemma reachable_resolved s :
  reachable cfg s →
  Forall (λ m, publishType m = with_name ∨ publishType m = anonymous) (messageQueue s).
Proof.
  induction 1 as [|s u Hr IH]; [constructor|].
  pose proof (dispatch_effect cfg u s (reachable_index cfg s Hr)) as He.
  apply effect_queue in He as [-> | [_ ->]].
  - apply Forall_app. split; [done|].
    destruct (resolution u s) as [m|] eqn:Hres; [|constructor].
    constructor; [|constructor]. revert Hres. unfold resolution.
    destruct u as [| |[user|] [d|] hm]; try done.
    destruct (JS.startsWith _ _); [|done].
    destruct (pendingMessages s !! _); [|done].
    destruct (choiceIs _ "with_name"); [intros [= <-]; by left|].
    destruct (choiceIs _ "anonymous"); [intros [= <-]; by right|done].
  - destruct (messageQueue s); [done|]. by apply Forall_inv_tail in IH.
Qed.

End Invariants.

(** ** The calls of an update *)

Section Emits.

Context (cfg : Config) (E : Call → Prop).

Lemma emits_ret {A} (a : A) : emits E (mret a).
Proof. intros s. constructor. Qed.

Lemma emits_throw {A} e : emits E (throw e : M A).
Proof. intros s. constructor. Qed.

Lemma emits_gets {A} (f : BotState → A) : emits E (gets f).
Proof. intros s. constructor. Qed.

Lemma emits_modify f : emits E (modify f).
Proof. intros s. constructor. Qed.

Lemma emits_call c : E c → emits E (call cfg c).
Proof. intros Hc s. rewrite call_run. by repeat constructor. Qed.

Lemma emits_bind {A B} (m : M A) (f : A → M B) :
  emits E m → (∀ a, emits E (f a)) → emits E (m ≫= f).
Proof.
  intros Hm Hf s. unfold mbind, M_bind, bind. specialize (Hm s).
  destruct (m s) as [[[a|e] s1] t1]; [|done].
  specialize (Hf a s1). destruct (f a s1) as [[r s2] t2].
  apply Forall_app. by split.
Qed.

Lemma emits_try_catch {A} (m : M A) (h : Error → M A) :
  emits E m → (∀ e, emits E (h e)) → emits E (try_catch m h).
Proof.
  intros Hm Hh s. unfold try_catch. specialize (Hm s).
  destruct (m s) as [[[a|e] s1] t1]; [done|].
  specialize (Hh e s1). destruct (h e s1) as [[r s2] t2].
  apply Forall_app. by split.
Qed.

Lemma emits_getMediaData message : emits E (getMediaData message).
Proof. intros s. rewrite getMediaData_run. constructor. Qed.

Lemma emits_notifyUser uid body :
  E (Send KMessage (ChatNum (Some uid)) body noExtra) → emits E (notifyUser cfg uid body).
Proof. intros H s. rewrite notifyUser_run. by repeat constructor. Qed.

Lemma emits_sendToAdmin body :
  E (Send KMessage (ChatNum (adminId cfg)) body noExtra) → emits E (sendToAdmin cfg body).
Proof. intros H s. rewrite sendToAdmin_run. by repeat constructor. Qed.

Lemma emits_sendMessageToAdmin m :
  (∀ c, reviewPost cfg m = Some c → E c) → emits E (sendMessageToAdmin cfg m).
Proof.
  intros H s. rewrite sendMessageToAdmin_run.
  destruct (reviewPost cfg m) as [c|]; repeat constructor. by apply H.
Qed.

End Emits.

Ltac emits_step :=
  first
    [ apply emits_ret
    | apply emits_throw
    | apply emits_gets
    | apply emits_modify
    | apply emits_getMediaData
    | apply emits_bind; [|intros ?]
    | apply emits_try_catch; [|intros ?] ].

Section Said.

Context (cfg : Config) (E : Call → Prop).

Context (E_quiet : ∀ c, quiet cfg c → E c).

Lemma E_review m c : reviewPost cfg m = Some c → E c.
Proof.
  intros H. apply E_quiet. split; [by eapply utt_review|].
  by apply reviewPost_kind in H as (_ & ? & _).
Qed.

Lemma E_allDone : E (allDoneNotice cfg).
Proof.
  apply E_quiet. split; [apply utt_allDone|]. unfold allDoneNotice. by destruct (adminId cfg).
Qed.

(** With a record in the queue, [showNextMessageToAdmin] sends its review
    post or nothing. *)
Lemma showNextMessageToAdmin_emits s :
  messageQueue s ≠ [] →
  Forall (λ e, E (ev_call e)) (showNextMessageToAdmin cfg s).2.
Proof.
  intros Hq. unfold showNextMessageToAdmin. unfold_m. cbv beta iota.
  assert ((length (messageQueue s) =? 0)%nat = false) as ->.
  { by destruct (messageQueue s). }
  destruct (messageQueue s !! currentMessageIndex s) as [m|]; [|constructor].
  pose proof (emits_sendMessageToAdmin cfg E m (E_review m) s) as H.
  destruct (sendMessageToAdmin cfg m s) as [[r s1] t1]. by rewrite !app_nil_l.
Qed.

Lemma moveToNextMessage_emits : emits E (moveToNextMessage cfg).
Proof.
  intros s. unfold moveToNextMessage. unfold_m. cbv beta iota.
  cbn [messageQueue currentMessageIndex pendingMessages].
  set (s1 := mkState (currentMessageIndex s) _ (delete (currentMessageIndex s) (messageQueue s))).
  destruct (delete (currentMessageIndex s) (messageQueue s)) as [|m1 q1] eqn:Hd;
    cbn [length Nat.eqb].
  - pose proof (emits_sendToAdmin cfg E "✅ Все сообщения обработаны!" E_allDone) as H.
    match goal with |- context [sendToAdmin cfg ?b ?s0] => specialize (H s0);
      destruct (sendToAdmin cfg b s0) as [[r s2] t2] end.
    by rewrite !app_nil_l.
  - pose proof (showNextMessageToAdmin_emits s1) as H.
    specialize (H ltac:(unfold s1; done)).
    match goal with |- context [showNextMessageToAdmin cfg ?s0] =>
      destruct (showNextMessageToAdmin cfg s0) as [[r s2] t2] end.
    by rewrite !app_nil_l.
Qed.

Lemma handleStart_emits from : emits E (handleStart cfg from).
Proof.
  unfold handleStart. repeat emits_step. apply emits_call, E_quiet.
  split; [apply utt_greeting|done].
Qed.

Lemma handleUserMessage_emits from chat message now :
  emits E (handleUserMessage cfg from chat (Some message) now).
Proof.
  unfold handleUserMessage. destruct from as [user|]; [|apply emits_ret].
  unfold map_set.
  apply emits_bind; [destruct chat; emits_step|intros c].
  repeat emits_step.
  apply emits_call, E_quiet. split; [apply (utt_prompt cfg message)|done].
Qed.

Lemma handleReject_emits : emits E (handleReject cfg).
Proof.
  unfold handleReject. apply emits_bind; [emits_step|intros [m|]].
  - apply emits_bind; [|intros _; apply moveToNextMessage_emits].
    apply emits_notifyUser, E_quiet. split; [apply utt_rejection|done].
  - repeat emits_step. apply emits_call, E_quiet. split; [apply utt_notFound|done].
Qed.

Lemma handleSkip_emits : emits E (handleSkip cfg).
Proof. apply moveToNextMessage_emits. Qed.

(** The end of [handleUserChoice]: the review post of the first record. *)
Lemma presentFirst_emits :
  emits E (len ← gets (λ s, length (messageQueue s));
           if (len =? 1)%nat then showNextMessageToAdmin cfg else mret tt).
Proof.
  intros s. unfold_m. cbv beta.
  destruct (length (messageQueue s) =? 1)%nat eqn:Hlen; [|constructor].
  pose proof (showNextMessageToAdmin_emits s) as H.
  destruct (showNextMessageToAdmin cfg s) as [[r s1] t1]. rewrite app_nil_l.
  apply H. intros Hq. by rewrite Hq in Hlen.
Qed.

Lemma handleUserChoice_emits u next :
  emits E next → emits E (handleUserChoice cfg u next).
Proof.
  intros Hnext. unfold handleUserChoice.
  destruct u as [| |[user|] [d|] hm]; try done.
  destruct (JS.startsWith "user_choice:" d); [|done].
  cbv zeta. apply emits_bind; [emits_step|intros [tm|]].
  2: { repeat emits_step. apply emits_call, E_quiet. split; [apply utt_stale|done]. }
  apply emits_try_catch.
  2: { intros e. repeat emits_step. apply emits_call, E_quiet.
       split; [apply utt_error|done]. }
  apply emits_bind.
  2: { intros _. repeat emits_step. apply emits_call, E_quiet.
       split; [apply utt_answer|done]. }
  unfold map_set, map_delete, queue_push.
  destruct (choiceIs (choiceOf d) "cancel").
  { repeat emits_step. apply emits_call, E_quiet. split; [apply utt_cancelled|done]. }
  destruct (_ || _); [|emits_step].
  apply emits_bind; [emits_step|intros _].
  apply emits_bind; [emits_step|intros idx].
  apply emits_bind; [emits_step|intros _].
  apply emits_bind; [emits_step|intros _].
  apply emits_bind; [emits_step|intros _].
  apply emits_bind; [|intros _; apply presentFirst_emits].
  apply emits_call, E_quiet.
  destruct (choiceIs (choiceOf d) "with_name");
    (split; [first [apply utt_named|apply utt_anonymous]|done]).
Qed.

(** The calls that close a decision. *)
Lemma closeReview_emits hm s : Forall (λ e, E (ev_call e)) (closeReview cfg hm s).
Proof.
  unfold closeReview.
  assert (E DeleteMessage) as H1 by (apply E_quiet; split; [apply utt_delete|done]).
  assert (E (AnswerCbQuery None)) as H2 by (apply E_quiet; split; [apply utt_answer|done]).
  assert (E errorAck) as H3 by (apply E_quiet; split; [apply utt_error|done]).
  destruct hm, (transport cfg (AnswerCbQuery None)); by repeat constructor.
Qed.

(** A decision, as far as the handler of its token stays in [E]. *)
Lemma dispatch_decision_emits from tok hm s :
  isAdminAction tok = true →
  (isAdmin cfg from = true → Forall (λ e, E (ev_call e)) (decisionHandler cfg tok s).2) →
  Forall (λ e, E (ev_call e)) (dispatch cfg (decision from tok hm) s).2.
Proof.
  intros Htok Hh.
  assert (E errorAck) as H3 by (apply E_quiet; split; [apply utt_error|done]).
  destruct (isAdmin cfg from) eqn:Ha.
  - rewrite dispatch_admin by done. specialize (Hh eq_refl).
    destruct (decisionHandler cfg tok s) as [[[[]|e] s1] t1]; cbn [snd] in *.
    + apply Forall_app. split; [done|apply closeReview_emits].
    + apply Forall_app. split; [done|by repeat constructor].
  - rewrite dispatch_not_admin by done. repeat constructor.
    apply E_quiet. split; [apply utt_noRights|done].
Qed.

(** Every update but a decision. *)
Lemma dispatch_other_emits u s :
  (∀ from tok hm, u = decision from tok hm → isAdminAction tok = false) →
  Forall (λ e, E (ev_call e)) (dispatch cfg u s).2.
Proof.
  intros Hu. rewrite dispatch_middleware. cbn [snd].
  assert (emits E (adminActions cfg u)) as Hnext.
  { unfold adminActions. destruct u as [| |from [d|] hm]; try apply emits_ret.
    rewrite (Hu from d hm eq_refl). apply emits_ret. }
  destruct u as [from|from chat message now|from data hm]; unfold middleware.
  - apply handleStart_emits.
  - destruct (isContent message); [apply handleUserMessage_emits|].
    by apply handleUserChoice_emits.
  - by apply handleUserChoice_emits.
Qed.

End Said.

Section Channel.

Context (cfg : Config).

Lemma channelPosts_quiet t :
  Forall (λ e, quiet cfg (ev_call e)) t → channelPosts t = [].
Proof.
  induction 1 as [|e t [_ He] _ IH]; [done|].
  unfold channelPosts in *. cbn [map List.filter]. by rewrite He.
Qed.

Lemma quiet_quiet c : quiet cfg c → quiet cfg c.
Proof. done. Qed.

Lemma quiet_uttered c : quiet cfg c → uttered cfg c.
Proof. by intros [? _]. Qed.

(** The trace of [handleApprove], in any state. *)
Lemma handleApprove_trace s :
  (handleApprove cfg s).2 =
  match messageQueue s !! currentMessageIndex s with
  | None => [event cfg s notFoundAck]
  | Some m =>
      match publishToChannel cfg m s with
      | (Ok _, _, t) => t ++ event cfg s (approvalNotice m) :: (moveToNextMessage cfg s).2
      | (Throw _, _, t) => t
      end
  end.
Proof.
  unfold handleApprove. unfold_m. cbv beta.
  destruct (messageQueue s !! currentMessageIndex s) as [m|].
  - rewrite publishToChannel_run.
    destruct (JS.truthy (CHANNEL_ID cfg)); [|done].
    destruct (channelPost cfg m) as [c|].
    + destruct (transport cfg c).
      2: { reflexivity. }
      rewrite notifyUser_run.
      destruct (moveToNextMessage cfg s) as [[[[]|e] s1] t1];
        cbn [snd app]; by rewrite ?app_nil_r.
    + rewrite notifyUser_run.
      destruct (moveToNextMessage cfg s) as [[[[]|e] s1] t1];
        cbn [snd app]; by rewrite ?app_nil_r.
  - rewrite call_run. unfold notFoundAck. by destruct (transport cfg _).
Qed.

Lemma handleApprove_channelPosts s :
  channelPosts (handleApprove cfg s).2 =
  if JS.truthy (CHANNEL_ID cfg)
  then option_list ((messageQueue s !! currentMessageIndex s) ≫= channelPost cfg)
  else [].
Proof.
  rewrite handleApprove_trace.
  destruct (messageQueue s !! currentMessageIndex s) as [m|]; cbn [mbind option_bind].
  2: { by destruct (JS.truthy (CHANNEL_ID cfg)). }
  rewrite publishToChannel_run.
  pose proof (channelPosts_quiet _ (moveToNextMessage_emits cfg (quiet cfg) quiet_quiet s))
    as Hmove.
  destruct (approvalNotice_kind m) as (_ & Ha & _).
  destruct (JS.truthy (CHANNEL_ID cfg)); [|done].
  destruct (channelPost cfg m) as [c|] eqn:Hc; cbn [option_list].
  - apply channelPost_kind in Hc as (Hk & _).
    destruct (transport cfg c).
    + cbn [app]. by rewrite !channelPosts_event, Hk, Ha, Hmove.
    + by rewrite channelPosts_event, Hk.
  - cbn [app]. by rewrite channelPosts_event, Ha, Hmove.
Qed.

Lemma closeReview_channelPosts hm s : channelPosts (closeReview cfg hm s) = [].
Proof. apply closeReview_kinds. Qed.

(** The destination posts of one update, in any state. *)
Lemma dispatch_channelPosts u s :
  channelPosts (dispatch cfg u s).2 = option_list (published cfg u s).
Proof.
  assert (∀ from d hm, isAdminAction d = false →
            published cfg (UpdCallback from (Some d) hm) s = None) as Hnone.
  { intros from d hm Hd. unfold published.
    destruct (String.eqb_spec d "admin_approve") as [->|]; done. }
  assert (∀ u', (∀ from tok hm, u' = decision from tok hm → isAdminAction tok = false) →
            channelPosts (dispatch cfg u' s).2 = []) as Hother.
  { intros u' Hu. apply channelPosts_quiet, dispatch_other_emits; [apply quiet_quiet|done]. }
  destruct u as [from|from chat message now|from [d|] hm];
    try (rewrite Hother; [done|by intros ??? [=]]).
  destruct (isAdminAction d) eqn:Hd.
  2: { rewrite Hnone by done. apply Hother. by intros ??? [= _ <- _]. }
  change (UpdCallback from (Some d) hm) with (decision from d hm).
  destruct (isAdmin cfg from) eqn:Ha.
  2: { rewrite dispatch_not_admin by done. unfold published, decision. rewrite Ha.
       by rewrite andb_false_r. }
  rewrite dispatch_admin by done. unfold published, decision. rewrite Ha, andb_true_r.
  assert (channelPosts [event cfg s errorAck] = []) as Herr by done.
  destruct (isAdminAction_cases d Hd) as [->|[->| ->]].
  - rewrite decisionHandler_approve. cbn [String.eqb Ascii.eqb Bool.eqb andb].
    pose proof (handleApprove_channelPosts s) as Hp.
    destruct (handleApprove cfg s) as [[[[]|e] s1] t1]; cbn [snd] in *;
      rewrite channelPosts_app, Hp, ?closeReview_channelPosts, ?Herr, ?app_nil_r;
      by destruct (JS.truthy (CHANNEL_ID cfg)).
  - rewrite decisionHandler_reject. cbn [String.eqb Ascii.eqb Bool.eqb andb].
    pose proof (channelPosts_quiet _ (handleReject_emits cfg (quiet cfg) quiet_quiet s)) as Hp.
    destruct (handleReject cfg s) as [[[[]|e] s1] t1]; cbn [snd] in *;
      rewrite channelPosts_app, Hp, ?closeReview_channelPosts, ?Herr; done.
  - rewrite decisionHandler_skip. cbn [String.eqb Ascii.eqb Bool.eqb andb].
    pose proof (channelPosts_quiet _ (handleSkip_emits cfg (quiet cfg) quiet_quiet s)) as Hp.
    destruct (handleSkip cfg s) as [[[[]|e] s1] t1]; cbn [snd] in *;
      rewrite channelPosts_app, Hp, ?closeReview_channelPosts, ?Herr; done.
Qed.

(** Every call of every update is one the bot is known to make. *)
Lemma dispatch_uttered u s : Forall (λ e, uttered cfg (ev_call e)) (dispatch cfg u s).2.
Proof.
  assert (∀ u', (∀ from tok hm, u' = decision from tok hm → isAdminAction tok = false) →
            Forall (λ e, uttered cfg (ev_call e)) (dispatch cfg u' s).2) as Hother.
  { intros u' Hu. apply dispatch_other_emits; [apply quiet_uttered|done]. }
  destruct u as [from|from chat message now|from [d|] hm];
    try (apply Hother; by intros ??? [=]).
  destruct (isAdminAction d) eqn:Hd.
  2: { apply Hother. by intros ??? [= _ <- _]. }
  apply (dispatch_decision_emits cfg (uttered cfg) quiet_uttered from d hm s Hd).
  intros _.
  destruct (isAdminAction_cases d Hd) as [->|[->| ->]].
  - rewrite decisionHandler_approve, handleApprove_trace.
    destruct (messageQueue s !! currentMessageIndex s) as [m|].
    2: { repeat constructor. }
    rewrite publishToChannel_run.
    pose proof (moveToNextMessage_emits cfg (uttered cfg) quiet_uttered s) as Hmove.
    destruct (JS.truthy (CHANNEL_ID cfg)); [|constructor].
    destruct (channelPost cfg m) as [c|] eqn:Hc.
    + destruct (transport cfg c).
      * constructor; [by eapply utt_channel|]. constructor; [apply utt_approval|done].
      * constructor; [by eapply utt_channel|constructor].
    + constructor; [apply utt_approval|done].
  - rewrite decisionHandler_reject. apply handleReject_emits, quiet_uttered.
  - rewrite decisionHandler_skip. apply handleSkip_emits, quiet_uttered.
Qed.

End Channel.

(** ** Publications *)

Section Publications.

Context (cfg : Config).

Lemma publications_app t1 t2 :
  publications cfg (t1 ++ t2) = publications cfg t1 ++ publications cfg t2.
Proof. unfold publications. by rewrite channelPosts_app, List.filter_app. Qed.

(** An accepted post publishes the head of the queue and removes it. *)
Lemma publication_step u s :
  currentMessageIndex s = 0%nat →
  publications cfg (dispatch cfg u s).2 = []
  ∨ (∃ m c, head (messageQueue s) = Some m
            ∧ channelPost cfg m = Some c
            ∧ publications cfg (dispatch cfg u s).2 = [c]
            ∧ messageQueue (dispatch cfg u s).1 = tail (messageQueue s)
            ∧ resolution u s = None).
Proof.
  intros Hi. unfold publications. rewrite dispatch_channelPosts, dispatch_state by done.
  destruct (published cfg u s) as [c|] eqn:Hp; [|left; reflexivity].
  assert (List.filter (λ c, bool_decide (is_Some (transport cfg c))) (option_list (Some c))
          = if bool_decide (is_Some (transport cfg c)) then [c] else []) as -> by done.
  destruct (transport cfg c) as [r|] eqn:Ht.
  2: { left. rewrite bool_decide_eq_false_2; [done|]. by intros [? ?]. }
  rewrite bool_decide_eq_true_2 by (by eexists).
  right. revert Hp. unfold published.
  destruct u as [| |from [d|] hm]; try done.
  destruct (String.eqb_spec d "admin_approve") as [->|]; [|done].
  destruct (isAdmin cfg from) eqn:Ha; [|done].
  destruct (JS.truthy (CHANNEL_ID cfg)) eqn:Hc; [|done].
  cbn [andb]. rewrite Hi.
  destruct (messageQueue s) as [|m q] eqn:Hq; [done|].
  cbn [lookup list_lookup mbind option_bind]. intros Hm.
  exists m, c. split; [done|]. split; [done|]. split; [done|]. split.
  - destruct from as [user|]; [|done]. cbn [nextState].
    change (JS.startsWith "user_choice:" "admin_approve") with false.
    change (isAdminAction "admin_approve") with true. rewrite Ha. cbn [andb].
    unfold decidedState. rewrite Hq.
    change (String.eqb "admin_approve" "admin_approve") with true.
    cbv iota. rewrite Hc, Hm, Ht. cbn [afterRemoval messageQueue]. by rewrite Hq.
  - unfold resolution. by destruct from.
Qed.

(** An accepted destination post publishes the head of the queue, which
    leaves with it. *)
Lemma publication_rank us u :
  let s := (exec cfg us initialState).1 in
  let step := dispatch cfg u s in
  publications cfg step.2 = []
  ∨ ∃ m c,
      publications cfg step.2 = [c]
      ∧ channelPost cfg m = Some c
      ∧ arrivals cfg us initialState !! removals cfg us = Some m
      ∧ messageQueue s = m :: messageQueue step.1
      ∧ resolution u s = None
      ∧ removals cfg (us ++ [u]) = S (removals cfg us).
Proof.
  cbv zeta.
  assert (reachable cfg (exec cfg us initialState).1) as Hr
    by apply reachable_exec, reachable_init.
  pose proof (reachable_index cfg _ Hr) as Hi.
  destruct (publication_step u _ Hi) as [->|(m & c & Hhead & Hc & -> & Htail & Hres)];
    [by left|].
  right. exists m, c. rewrite <-removals_head, Hhead.
  destruct (messageQueue (exec cfg us initialState).1) as [|m0 q] eqn:Hq0; [done|].
  injection Hhead as ->. cbn [tail] in Htail.
  split; [done|]. split; [done|]. split; [reflexivity|].
  split; [by rewrite Htail|]. split; [done|].
  destruct (removals_snoc cfg us u) as [Heq|[Hs _]]; [|done].
  exfalso. destruct (removals_spec cfg us) as [Hle Hq], (removals_spec cfg (us ++ [u])) as [Hle' Hq'].
  rewrite exec_snoc in Hq'. cbn [fst] in Hq'. rewrite Htail, Heq in Hq'.
  rewrite arrivals_snoc, Hres in Hq'. cbn [option_list] in Hq'. rewrite app_nil_r in Hq'.
  rewrite <-Hq, Hq0 in Hq'. apply (f_equal length) in Hq'. cbn in Hq'. lia.
Qed.

(** The arrivals of a run stay, at their ranks, in every longer run. *)
Lemma arrivals_prefix us more :
  arrivals cfg us initialState `prefix_of` arrivals cfg (us ++ more) initialState.
Proof.
  induction more as [|u more IH] using rev_ind; [by rewrite app_nil_r|].
  rewrite app_assoc, arrivals_snoc. by apply prefix_app_r.
Qed.

End Publications.

(** ** The properties *)

(** X1.  The callback data of the three buttons of a choice prompt,
    [`user_choice:${choice}:${message_id}`], reads back as [handleUserChoice]
    takes it apart, for every message id: it starts with "user_choice:",
    [parts[1]] is the choice of the button and [parseInt(parts[2])] is the
    id of the message. *)
Theorem choice_buttons_round_trip (messageId : Z) :
  (λ b, (JS.startsWith "user_choice:" b.2, choiceOf b.2, originalMessageIdOf b.2))
    <$> concat (choiceButtons messageId)
  = [ (true, Some "with_name", Some messageId);
      (true, Some "anonymous", Some messageId);
      (true, Some "cancel", Some messageId) ].
Proof.
  destruct (choiceData_parts "with_name" messageId) as (H1 & H2 & H3); [done|].
  destruct (choiceData_parts "anonymous" messageId) as (H4 & H5 & H6); [done|].
  destruct (choiceData_parts "cancel" messageId) as (H7 & H8 & H9); [done|].
  change ([ (JS.startsWith "user_choice:" (choiceData "with_name" messageId),
             choiceOf (choiceData "with_name" messageId),
             originalMessageIdOf (choiceData "with_name" messageId));
            (JS.startsWith "user_choice:" (choiceData "anonymous" messageId),
             choiceOf (choiceData "anonymous" messageId),
             originalMessageIdOf (choiceData "anonymous" messageId));
            (JS.startsWith "user_choice:" (choiceData "cancel" messageId),
             choiceOf (choiceData "cancel" messageId),
             originalMessageIdOf (choiceData "cancel" messageId)) ]
          = [ (true, Some "with_name", Some messageId);
              (true, Some "anonymous", Some messageId);
              (true, Some "cancel", Some messageId) ]).
  by rewrite H1, H2, H3, H4, H5, H6, H7, H8, H9.
Qed.

(** X2.  The keys of the staging map do not collide.  The key
    [`temp_${userId}_${messageId}`] determines the user and the message (a
    message id that is [NaN] included), the key [`choice_${messageId}`]
    determines the message, and no key of one kind is a key of the other
    kind or a printed queue position. *)
Theorem staging_keys_do_not_collide :
  (∀ u i u' i', tempKeyOf u i = tempKeyOf u' i' ↔ u = u' ∧ i = i')
  ∧ (∀ i i', choiceKeyOf i = choiceKeyOf i' ↔ i = i')
  ∧ (∀ u i j, tempKeyOf u i ≠ choiceKeyOf j)
  ∧ (∀ u i (position : nat), tempKeyOf u i ≠ JS.numToString (Z.of_nat position))
  ∧ (∀ i (position : nat), choiceKeyOf i ≠ JS.numToString (Z.of_nat position)).
Proof.
  split; [|split; [|split; [|split]]].
  - intros u i u' i'. split; [apply tempKeyOf_inj|by intros [-> ->]].
  - intros i i'. split; [apply choiceKeyOf_inj|by intros ->].
  - apply tempKeyOf_ne_choiceKeyOf.
  - intros u i p. apply staging_ne_index, tempKeyOf_staging.
  - intros i p. apply staging_ne_index, choiceKeyOf_staging.
Qed.

(** X3.  In every reachable state, a [user_choice] callback whose third
    part is missing or does not read as a number (after the white space that
    [parseInt] skips comes no digit, so the result is [NaN]) is answered with
    "Сообщение не найдено или время ожидания истекло." and changes nothing:
    no entry is ever stored under a key that ends in [NaN]. *)
Theorem malformed_choice_is_stale cfg user data hm s :
  reachable cfg s →
  JS.startsWith "user_choice:" data = true →
  originalMessageIdOf data = None →
  dispatch cfg (UpdCallback (Some user) (Some data) hm) s
  = (s, [event cfg s staleChoiceAck]).
Proof.
  intros Hr Hp Ho.
  assert (pendingMessages s !! tempKeyOf (id user) (originalMessageIdOf data) = None) as Hl.
  { rewrite Ho. apply eq_None_not_Some. intros H%(reachable_keys cfg s _ Hr).
    by apply NaN_key_shape in H. }
  rewrite dispatch_middleware. cbn [middleware].
  rewrite handleUserChoice_stale by done.
  by destruct (transport cfg staleChoiceAck).
Qed.

Lemma malformed_choice_is_stale_witness :
  let s1 := (dispatch Scenario.cfg
               (UpdMessage (Some Scenario.alice) (Some 7) Scenario.hello 1000)
               initialState).1 in
  originalMessageIdOf "user_choice:cancel" = None
  ∧ originalMessageIdOf "user_choice:cancel:abc" = None
  ∧ dispatch Scenario.cfg
      (UpdCallback (Some Scenario.alice) (Some "user_choice:cancel:abc") true) s1
    = (s1, [event Scenario.cfg s1 staleChoiceAck]).
Proof.
  intros s1. split; [reflexivity|]. split; [reflexivity|].
  apply (malformed_choice_is_stale Scenario.cfg Scenario.alice "user_choice:cancel:abc"
           true s1); [|reflexivity|reflexivity].
  apply reachable_step, reachable_init.
Defined.

(** X4.  Only its author resolves a submission.  When someone else, who
    has staged no message with the same id, presses a button of the prompt
    of a message, the callback is answered with "Сообщение не найдено или
    время ожидания истекло." and the state stays as it is. *)
Theorem choice_of_another_user_is_stale cfg author other chat message now data hm s :
  id other ≠ id author →
  pendingMessages s !! tempKeyOf (id other) (Some (message_id message)) = None →
  data ∈ snd <$> concat (choiceButtons (message_id message)) →
  let s1 := (dispatch cfg (UpdMessage (Some author) chat message now) s).1 in
  dispatch cfg (UpdCallback (Some other) (Some data) hm) s1
  = (s1, [event cfg s1 staleChoiceAck]).
Proof.
  intros Hne Habsent Hdata. cbv zeta.
  assert (JS.startsWith "user_choice:" data = true
          ∧ originalMessageIdOf data = Some (message_id message)) as [Hp Ho].
  { rewrite choiceButtons_data in Hdata.
    destruct (choiceData_parts "with_name" (message_id message)) as (? & ? & ?); [done|].
    destruct (choiceData_parts "anonymous" (message_id message)) as (? & ? & ?); [done|].
    destruct (choiceData_parts "cancel" (message_id message)) as (? & ? & ?); [done|].
    repeat (apply elem_of_cons in Hdata as [->|Hdata]); [by split..|].
    by apply elem_of_nil in Hdata. }
  rewrite dispatch_message_state.
  set (s1 := nextState cfg _ s).
  assert (pendingMessages s1 !! tempKeyOf (id other) (Some (message_id message)) = None)
    as Hl.
  { unfold s1. cbn [nextState].
    destruct chat as [c|]; [|done].
    destruct (isContent message); [|done].
    rewrite stagedState_lookup_other; [done|congruence]. }
  rewrite dispatch_middleware. cbn [middleware].
  rewrite handleUserChoice_stale by (by rewrite ?Ho).
  by destruct (transport cfg staleChoiceAck).
Qed.

Lemma choice_of_another_user_is_stale_witness :
  let s1 := (dispatch Scenario.cfg
               (UpdMessage (Some Scenario.alice) (Some 7) Scenario.hello 1000)
               initialState).1 in
  is_Some (pendingMessages s1 !! tempKeyOf 7 (Some 42))
  ∧ dispatch Scenario.cfg
      (UpdCallback (Some Scenario.bob) (Some "user_choice:with_name:42") true) s1
    = (s1, [event Scenario.cfg s1 staleChoiceAck]).
Proof.
  intros s1. split; [by vm_compute; eexists|].
  apply (choice_of_another_user_is_stale Scenario.cfg Scenario.alice Scenario.bob
           (Some 7) Scenario.hello 1000 "user_choice:with_name:42" true initialState).
  - done.
  - reflexivity.
  - rewrite choiceButtons_data, !elem_of_cons. by left.
Defined.

(** X5.  A message that passes one of the content filters, followed by
    the [with_name] or [anonymous] choice of its author: the data of that
    choice is the data of a button of the prompt; the queue gains, at its
    tail, the record built from the message (sender, chat, text, content
    type, media, time) with the chosen publish type; the record is stored
    under its queue position; and the two staging entries of the message
    are gone.  This holds whatever Telegram answers to the calls of the two
    handlers. *)
Theorem submission_then_choice_is_queued cfg user chat message now md hm p s :
  currentMessageIndex s = 0%nat →
  isContent message = true →
  mediaOf message = Ok md →
  p = with_name ∨ p = anonymous →
  let data := choiceData (publishTypeName p) (message_id message) in
  let record := withPublishType (tempMessageOf user chat message md now) p in
  let s2 := (exec cfg [ UpdMessage (Some user) (Some chat) message now;
                        UpdCallback (Some user) (Some data) hm ] s).1 in
  data ∈ snd <$> concat (choiceButtons (message_id message))
  ∧ messageQueue s2 = messageQueue s ++ [record]
  ∧ pendingMessages s2 !! JS.numToString (Z.of_nat (length (messageQueue s))) = Some record
  ∧ pendingMessages s2 !! tempKeyOf (id user) (Some (message_id message)) = None
  ∧ pendingMessages s2 !! choiceKeyOf (Some (message_id message)) = None.
Proof.
  intros Hi Hc Hmd Hp. cbv zeta.
  split.
  { rewrite choiceButtons_data. destruct Hp as [-> | ->]; rewrite !elem_of_cons; auto. }
  rewrite !exec_cons. cbn [exec fst].
  rewrite dispatch_message_state. cbn [nextState]. rewrite Hc.
  rewrite dispatch_state by (by rewrite stagedState_index). cbn [nextState].
  destruct (choiceData_parts (publishTypeName p) (message_id message)) as (H1 & H2 & H3).
  { by destruct Hp as [-> | ->]. }
  rewrite H1. unfold chosenState. rewrite H2, H3.
  rewrite (stagedState_lookup cfg user chat message now md s Hmd).
  assert (choiceIs (Some (publishTypeName p)) "cancel" = false) as ->.
  { by destruct Hp as [-> | ->]. }
  assert (choiceIs (Some (publishTypeName p)) "with_name"
          || choiceIs (Some (publishTypeName p)) "anonymous" = true) as ->.
  { by destruct Hp as [-> | ->]. }
  assert ((if choiceIs (Some (publishTypeName p)) "with_name" then with_name else anonymous)
          = p) as ->.
  { by destruct Hp as [-> | ->]. }
  cbv zeta. cbn [messageQueue pendingMessages].
  rewrite stagedState_queue. split; [done|].
  split; [|split].
  - rewrite !lookup_delete_ne, lookup_insert_eq; [done|..];
      apply staging_ne_index; first [apply choiceKeyOf_staging|apply tempKeyOf_staging].
  - rewrite !lookup_delete_None. auto.
  - rewrite !lookup_delete_None. auto.
Qed.

Lemma submission_then_choice_is_queued_witness :
  let s2 := (exec Scenario.cfg
               [ UpdMessage (Some Scenario.bob) (Some 8) Scenario.hi 2000;
                 UpdCallback (Some Scenario.bob) (Some "user_choice:with_name:43") true ]
               initialState).1 in
  messageQueue s2
  = [mkPending 8 "Bob" (Some "bobby") 43 8 (Some "Hi") "text" None 2000 with_name None].
Proof.
  intros s2.
  destruct (submission_then_choice_is_queued Scenario.cfg Scenario.bob 8 Scenario.hi 2000
              None true with_name initialState) as (_ & Hq & _);
    [reflexivity|reflexivity|reflexivity|by left|].
  exact Hq.
Defined.

(** X6.  A message followed by the [cancel] choice of its author, when
    Telegram accepts the edit that confirms the cancellation and neither
    of the two keys of the message was in use: the state is what it was
    before the message. *)
Theorem submission_then_cancel_restores_state cfg user chat message now hm s :
  currentMessageIndex s = 0%nat →
  pendingMessages s !! tempKeyOf (id user) (Some (message_id message)) = None →
  pendingMessages s !! choiceKeyOf (Some (message_id message)) = None →
  is_Some (transport cfg (EditMessageText "❌ Отправка отменена.")) →
  (exec cfg [ UpdMessage (Some user) (Some chat) message now;
              UpdCallback (Some user)
                (Some (choiceData "cancel" (message_id message))) hm ] s).1 = s.
Proof.
  intros Hi Ht Hc [k Hk].
  rewrite !exec_cons. cbn [exec fst].
  rewrite dispatch_message_state. cbn [nextState].
  destruct (choiceData_parts "cancel" (message_id message)) as (H1 & H2 & H3); [done|].
  assert (∀ s', currentMessageIndex s' = 0%nat →
            pendingMessages s' = pendingMessages s →
            messageQueue s' = messageQueue s →
            (dispatch cfg (UpdCallback (Some user)
               (Some (choiceData "cancel" (message_id message))) hm) s').1 = s) as Hstale.
  { intros s' Hi' Hpm Hq. rewrite dispatch_state by done. cbn [nextState].
    rewrite H1. unfold chosenState. rewrite H3, Hpm, Ht.
    destruct s, s'; simpl in *; congruence. }
  destruct (isContent message); [|by apply Hstale].
  unfold stagedState.
  destruct (mediaOf message) as [md|e]; [|by apply Hstale].
  cbv zeta.
  set (tk := tempKeyOf (id user) (Some (message_id message))) in *.
  set (ck := choiceKeyOf (Some (message_id message))) in *.
  assert (tk ≠ ck) as Hne by apply tempKeyOf_ne_choiceKeyOf.
  destruct (transport cfg (choicePrompt message)) as [r|].
  - rewrite dispatch_state by done. cbn [nextState].
    rewrite H1. unfold chosenState. rewrite H2, H3. fold tk ck.
    cbn [pendingMessages setMap].
    rewrite lookup_insert_ne, lookup_insert_eq by done.
    change (choiceIs (Some "cancel") "cancel") with true. cbv iota. rewrite Hk.
    destruct s as [i pm q]. unfold setMap. cbn in *. f_equal.
    rewrite (delete_insert_ne _ tk ck) by done.
    rewrite (delete_insert_id pm tk) by done.
    by apply delete_insert_id.
  - rewrite dispatch_state by done. cbn [nextState].
    rewrite H1. unfold chosenState. rewrite H2, H3. fold tk ck.
    cbn [pendingMessages setMap]. rewrite lookup_insert_eq.
    change (choiceIs (Some "cancel") "cancel") with true. cbv iota. rewrite Hk.
    destruct s as [i pm q]. unfold setMap. cbn in *. f_equal.
    rewrite delete_insert_id by done. by apply delete_id.
Qed.

Lemma submission_then_cancel_restores_state_witness :
  (exec Scenario.cfg
     [ UpdMessage (Some Scenario.alice) (Some 7) Scenario.hello 1000;
       UpdCallback (Some Scenario.alice) (Some "user_choice:cancel:42") true ]
     initialState).1 = initialState.
Proof.
  apply (submission_then_cancel_restores_state Scenario.cfg Scenario.alice 7
           Scenario.hello 1000 true initialState);
    [reflexivity|reflexivity|reflexivity|by eexists].
Defined.

(** X7.  The [switch] of [handleUserChoice] has no [default]: a
    [user_choice] callback whose choice is none of [cancel], [with_name]
    and [anonymous] changes nothing, in any state, and the only calls made
    are answers to the callback query. *)
Theorem unknown_choice_changes_nothing cfg user data hm s :
  JS.startsWith "user_choice:" data = true →
  choiceIs (choiceOf data) "cancel" = false →
  choiceIs (choiceOf data) "with_name" = false →
  choiceIs (choiceOf data) "anonymous" = false →
  (dispatch cfg (UpdCallback (Some user) (Some data) hm) s).1 = s
  ∧ Forall (λ e, isAnswer (ev_call e) = true ∧ ev_state e = s)
           (dispatch cfg (UpdCallback (Some user) (Some data) hm) s).2.
Proof.
  intros Hp H1 H2 H3. rewrite dispatch_middleware. cbn [fst snd middleware].
  unfold handleUserChoice. rewrite Hp. unfold_m. cbv beta iota.
  destruct (pendingMessages s !! _) as [tm|].
  - rewrite H1, H2, H3. cbn [orb]. cbv beta iota.
    run_calls cfg; split; try done; by repeat constructor.
  - run_calls cfg; split; try done; by repeat constructor.
Qed.

Lemma unknown_choice_changes_nothing_witness :
  let s1 := (dispatch Scenario.cfg
               (UpdMessage (Some Scenario.alice) (Some 7) Scenario.hello 1000)
               initialState).1 in
  (dispatch Scenario.cfg
     (UpdCallback (Some Scenario.alice) (Some "user_choice:later:42") true) s1).1 = s1.
Proof.
  intros s1.
  apply (unknown_choice_changes_nothing Scenario.cfg Scenario.alice
           "user_choice:later:42" true s1); reflexivity.
Defined.

(** X8.  Every record in the queue of a reachable state carries the
    choice of its author, [with_name] or [anonymous], never [pending]; its
    content type is never "unknown"; and the content type fits what the
    record carries: with media it is "text" or the type of the media,
    without media it is "text" and the record has a text. *)
Theorem queued_records_are_well_formed cfg s :
  reachable cfg s →
  Forall (λ m, (publishType m = with_name ∨ publishType m = anonymous)
               ∧ contentType m ≠ "unknown"
               ∧ coherent m)
         (messageQueue s).
Proof.
  intros Hr.
  pose proof (reachable_resolved cfg s Hr) as H1.
  destruct (reachable_records cfg
              (λ m, contentType m ≠ "unknown" ∧ coherent m) s) as [_ H2]; try done.
  { intros user chat message md now Hc Hmd. split.
    - by apply getMessageType_content.
    - by apply tempMessageOf_coherent. }
  rewrite Forall_forall in H1, H2. apply Forall_forall. intros m Hm.
  split; [by apply H1|by apply H2].
Qed.

Lemma queued_records_are_well_formed_witness :
  let s := (exec Scenario.cfg
              [ UpdMessage (Some Scenario.alice) (Some 7) Scenario.hello 1000;
                UpdCallback (Some Scenario.alice) (Some "user_choice:anonymous:42") true ]
              initialState).1 in
  length (messageQueue s) = 1%nat
  ∧ Forall (λ m, (publishType m = with_name ∨ publishType m = anonymous)
                 ∧ contentType m ≠ "unknown"
                 ∧ coherent m)
           (messageQueue s).
Proof.
  intros s. split; [reflexivity|].
  apply (queued_records_are_well_formed Scenario.cfg s).
  apply reachable_exec, reachable_init.
Defined.

(** X9.  A staged submission waits for its author: whatever updates
    arrive, as long as none of them is a choice of the author on that
    submission, its entry stays in the staging map.  Nothing expires, and
    no decision of the administrator or choice of another user removes
    it. *)
Theorem staged_entry_waits_for_its_author cfg upds userId messageId :
  Forall (λ u, ¬ choiceOn userId messageId u) upds →
  ∀ s, currentMessageIndex s = 0%nat →
       is_Some (pendingMessages s !! tempKeyOf userId (Some messageId)) →
       is_Some (pendingMessages (exec cfg upds s).1 !! tempKeyOf userId (Some messageId)).
Proof.
  induction 1 as [|u upds Hu _ IH]; intros s Hi Hl; [done|].
  rewrite exec_cons, dispatch_state by done.
  apply IH; [by apply nextState_index|by apply nextState_staged].
Qed.

Lemma staged_entry_waits_for_its_author_witness :
  let upds :=
    [ UpdMessage (Some Scenario.alice) (Some 7) Scenario.hello 1000;
      UpdMessage (Some Scenario.bob) (Some 8) Scenario.hi 2000;
      UpdCallback (Some Scenario.bob) (Some "user_choice:with_name:43") true;
      UpdCallback (Some Scenario.bob) (Some "user_choice:cancel:42") true;
      decision (Some Scenario.admin) "admin_approve" true;
      decision (Some Scenario.admin) "admin_skip" true ] in
  is_Some (pendingMessages (exec Scenario.cfg upds initialState).1 !! tempKeyOf 7 (Some 42)).
Proof.
  intros upds.
  assert (is_Some (pendingMessages
            (exec Scenario.cfg [UpdMessage (Some Scenario.alice) (Some 7) Scenario.hello 1000]
                  initialState).1 !! tempKeyOf 7 (Some 42))) as H0.
  { vm_compute. by eexists. }
  change upds with ([UpdMessage (Some Scenario.alice) (Some 7) Scenario.hello 1000]
                    ++ tail upds).
  rewrite exec_app.
  apply (staged_entry_waits_for_its_author Scenario.cfg (tail upds) 7 42);
    [|reflexivity|exact H0].
  repeat constructor; cbn; intros H; try done; by destruct H as (_ & ? & _).
Defined.

(** X10.  One update extends the queue at its tail or leaves it as it
    is, unless it is one of the three action tokens sent by the
    administrator, which may remove the head. *)
Theorem only_decisions_shorten_the_queue cfg u s :
  currentMessageIndex s = 0%nat →
  messageQueue s `prefix_of` messageQueue (dispatch cfg u s).1
  ∨ (∃ from token hm,
       u = decision from token hm
       ∧ isAdminAction token = true
       ∧ isAdmin cfg from = true
       ∧ messageQueue (dispatch cfg u s).1 = tail (messageQueue s)).
Proof. intros Hi. rewrite dispatch_state by done. apply nextState_queue. Qed.

Lemma only_decisions_shorten_the_queue_witness :
  let s := Scenario.oneQueued (Scenario.helloOf Scenario.bob with_name "Hi") in
  messageQueue s
  `prefix_of` messageQueue (dispatch Scenario.cfg
                              (decision (Some Scenario.alice) "admin_skip" true) s).1.
Proof.
  intros s.
  destruct (only_decisions_shorten_the_queue Scenario.cfg
              (decision (Some Scenario.alice) "admin_skip" true) s)
    as [H|(from & token & hm & [= <- <- <-] & _ & Ha & _)]; [reflexivity|exact H|].
  by vm_compute in Ha.
Defined.

(** X11.  When [ADMIN_ID] is unset or does not start with a number,
    [parseInt] yields [NaN] and nobody is the administrator: in every run
    the queue only grows, and nothing is posted to the destination
    channel. *)
Theorem without_administrator_nothing_leaves_the_queue cfg upds s :
  adminId cfg = None →
  currentMessageIndex s = 0%nat →
  messageQueue s `prefix_of` messageQueue (exec cfg upds s).1
  ∧ channelPosts (exec cfg upds s).2 = [].
Proof.
  intros Hadmin. revert s. induction upds as [|u upds IH]; intros s Hi; [done|].
  rewrite exec_cons, exec_trace, channelPosts_app, dispatch_channelPosts.
  rewrite dispatch_state by done.
  destruct (IH (nextState cfg u s) (nextState_index cfg u s Hi)) as [IH1 IH2].
  split.
  - destruct (nextState_queue cfg u s) as [H|(from & tok & hm & _ & _ & Ha & _)].
    + by etrans.
    + by rewrite isAdmin_NaN in Ha.
  - rewrite IH2, app_nil_r.
    unfold published. destruct u as [| |from [d|] hm]; try done.
    by rewrite isAdmin_NaN, andb_false_r.
Qed.

Lemma without_administrator_nothing_leaves_the_queue_witness :
  let upds :=
    [ UpdMessage (Some Scenario.alice) (Some 7) Scenario.hello 1000;
      UpdCallback (Some Scenario.alice) (Some "user_choice:anonymous:42") true;
      decision (Some Scenario.admin) "admin_approve" true;
      decision (Some Scenario.admin) "admin_skip" true ] in
  adminId Scenario.cfgNoAdmin = None
  ∧ length (messageQueue (exec Scenario.cfgNoAdmin upds initialState).1) = 1%nat
  ∧ channelPosts (exec Scenario.cfgNoAdmin upds initialState).2 = [].
Proof.
  intros upds. split; [reflexivity|]. split; [reflexivity|].
  apply (without_administrator_nothing_leaves_the_queue Scenario.cfgNoAdmin upds initialState);
    reflexivity.
Defined.

(** X12.  The state after a run depends on the answers of Telegram only
    through the choice prompts, the edits of the choice prompts and the
    posts to the destination channel.  Whether the notices to the
    submitters, the messages and review posts to the administrator, the
    answers to callback queries and the deletions are accepted or rejected
    makes no difference to the state. *)
Theorem notifications_do_not_change_the_state cfg1 cfg2 upds :
  sameOutcomes cfg1 cfg2 →
  (exec cfg1 upds initialState).1 = (exec cfg2 upds initialState).1.
Proof.
  intros Hsame. rewrite !exec_state by done.
  generalize initialState. induction upds as [|u upds IH]; intros s; [done|].
  cbn [foldl]. by rewrite (nextState_sameOutcomes cfg1 cfg2 u s Hsame).
Qed.

Lemma notifications_do_not_change_the_state_witness :
  let upds :=
    [ UpdMessage (Some Scenario.alice) (Some 7) Scenario.hello 1000;
      UpdCallback (Some Scenario.alice) (Some "user_choice:anonymous:42") true;
      UpdMessage (Some Scenario.bob) (Some 8) Scenario.hi 2000;
      UpdCallback (Some Scenario.bob) (Some "user_choice:with_name:43") true;
      decision (Some Scenario.admin) "admin_approve" true ] in
  (exec Scenario.cfg upds initialState).1 = (exec Scenario.cfgMuted upds initialState).1
  ∧ (exec Scenario.cfg upds initialState).2 ≠ (exec Scenario.cfgMuted upds initialState).2.
Proof.
  intros upds. split.
  - apply (notifications_do_not_change_the_state Scenario.cfg Scenario.cfgMuted upds).
    unfold sameOutcomes. do 4 (split; [done|]). split.
    + intros body. split; intros _; by eexists.
    + intros c Hc. by destruct c as [| | | |k [n|ch] p x].
  - intros H. vm_compute in H. discriminate H.
Defined.

(** X13.  The posts to the destination channel that one update attempts,
    in any state: none, unless the update is the token [admin_approve] sent
    by the administrator while [CHANNEL_ID] is set; then it is the one post
    of the record at the current index, when there is such a record and it
    yields a post. *)
Theorem channel_posts_come_from_approvals cfg u s :
  channelPosts (dispatch cfg u s).2 = option_list (published cfg u s).
Proof. apply dispatch_channelPosts. Qed.

(** X14.  Every post to the destination channel has a content (the body
    of a text post, the caption of a media post), and that content holds
    neither "<" nor ">": all of it went through [escapeHTML], whatever the
    name, the handle, the text and the caption of the submission are. *)
Theorem channel_posts_carry_no_markup cfg u s :
  Forall (λ c, ∃ content,
            postContent c = Some content
            ∧ allChars (λ a, negb (isAngle a)) content = true)
         (channelPosts (dispatch cfg u s).2).
Proof.
  rewrite dispatch_channelPosts.
  destruct (published cfg u s) as [c|] eqn:Hp; constructor; [|constructor].
  assert (∃ m, channelPost cfg m = Some c) as [m Hm].
  { revert Hp. unfold published. destruct u as [| |from [d|] hm]; try done.
    destruct (_ && _); [|done].
    destruct (messageQueue s !! currentMessageIndex s) as [m|]; [|done].
    by exists m. }
  eexists. split; [by apply (channelPost_content cfg m)|].
  by rewrite allChars_app, !escapeHTML_no_angle.
Qed.

(** X15.  [escapeHTML] leaves no "<" and no ">" in its result, maps
    different texts to different results, distributes over concatenation,
    and is the identity on a text without "&", "<" and ">". *)
Theorem escapeHTML_is_faithful :
  (∀ s, allChars (λ c, negb (isAngle c)) (escapeHTML s) = true)
  ∧ (∀ a b, escapeHTML a = escapeHTML b → a = b)
  ∧ (∀ a b, escapeHTML (a +:+ b) = escapeHTML a +:+ escapeHTML b)
  ∧ (∀ s, allChars (λ c, negb (isAngle c || Ascii.eqb c "&")) s = true → escapeHTML s = s).
Proof.
  split; [apply escapeHTML_no_angle|].
  split; [apply escapeHTML_inj|].
  split; [apply escapeHTML_app|apply escapeHTML_plain].
Qed.

(** X16.  The queue is what is left of the resolved records once those that
    have left are dropped.  Every destination post that Telegram accepts
    publishes the record at the head of the queue, which is the record of
    arrival rank [k] when [k] records have left before it, in this run and
    in every longer one; the record leaves the queue in the
    same update, so [k + 1] records have left afterwards, and the number of
    records that have left never decreases later in the run.  So whatever is
    published later has a larger arrival rank: no resolved record is
    published twice, and records are published in the order of their
    resolution. *)
Theorem records_are_published_once_in_order cfg before u more :
  let s := (exec cfg before initialState).1 in
  let step := dispatch cfg u s in
  let later := (before ++ [u]) ++ more in
  messageQueue s = drop (removals cfg before) (arrivals cfg before initialState)
  ∧ (removals cfg (before ++ [u]) ≤ removals cfg later)%nat
  ∧ (publications cfg step.2 = []
     ∨ ∃ m c,
         publications cfg step.2 = [c]
         ∧ channelPost cfg m = Some c
         ∧ messageQueue s = m :: messageQueue step.1
         ∧ resolution u s = None
         ∧ arrivals cfg before initialState !! removals cfg before = Some m
         ∧ arrivals cfg later initialState !! removals cfg before = Some m
         ∧ removals cfg (before ++ [u]) = S (removals cfg before)
         ∧ (removals cfg before < removals cfg later)%nat).
Proof.
  cbv zeta. pose proof (removals_mono cfg (before ++ [u]) more) as Hmono.
  split; [apply removals_spec|]. split; [done|].
  destruct (publication_rank cfg before u) as [?|(m & c & Hp & Hc & Hm & Hq & Hres & Hs)];
    [by left|].
  right. exists m, c. repeat split; try done; [|lia].
  eapply prefix_lookup_Some; [exact Hm|].
  rewrite <-app_assoc. apply arrivals_prefix.
Qed.

(** Two submissions, then the administrator publishes twice: the first post
    publishes Alice's record, of rank 0. *)
Lemma records_are_published_once_in_order_witness :
  let before :=
    [ UpdMessage (Some Scenario.alice) (Some 7) Scenario.hello 1000;
      UpdCallback (Some Scenario.alice) (Some "user_choice:anonymous:42") true;
      UpdMessage (Some Scenario.bob) (Some 8) Scenario.hi 2000;
      UpdCallback (Some Scenario.bob) (Some "user_choice:with_name:43") true ] in
  let approve := decision (Some Scenario.admin) "admin_approve" true in
  ∃ m c,
    publications Scenario.cfg
      (dispatch Scenario.cfg approve (exec Scenario.cfg before initialState).1).2 = [c]
    ∧ channelPost Scenario.cfg m = Some c
    ∧ userName m = "Alice"
    ∧ removals Scenario.cfg before = 0%nat
    ∧ removals Scenario.cfg (before ++ [approve]) = 1%nat
    ∧ (0 < removals Scenario.cfg ((before ++ [approve]) ++ [approve]))%nat.
Proof.
  intros before approve.
  destruct (records_are_published_once_in_order Scenario.cfg before approve [approve])
    as (_ & _ & [Hnone|(m & c & Hp & Hc & _ & _ & Hm & _ & Hs & Hlt)]).
  - by vm_compute in Hnone.
  - assert (removals Scenario.cfg before = 0%nat) as H0 by (by vm_compute).
    rewrite H0 in Hm, Hs, Hlt.
    exists m, c. split; [exact Hp|]. split; [exact Hc|].
    split; [by vm_compute in Hm; injection Hm as <-|].
    split; [reflexivity|]. split; [exact Hs|exact Hlt].
Defined.

(** X17.  Every callback the bot handles is answered: for a
    [user_choice] callback with a sender and for each of the three action
    tokens, in any state and whatever Telegram accepts, the trace holds at
    least one call to [answerCbQuery]. *)
Theorem handled_callbacks_are_answered cfg from data hm s :
  (is_Some from ∧ JS.startsWith "user_choice:" data = true) ∨ isAdminAction data = true →
  Exists (λ e, isAnswer (ev_call e) = true)
         (dispatch cfg (UpdCallback from (Some data) hm) s).2.
Proof.
  intros [[[user ->] Hp]|Htok].
  - rewrite dispatch_middleware. cbn [snd middleware].
    unfold handleUserChoice. rewrite Hp. cbv zeta. rewrite gets_bind_trace.
    destruct (pendingMessages s !! _) as [tm|].
    + apply try_answer_run.
    + unfold_m. rewrite call_run. destruct (transport cfg _); by constructor.
  - change (UpdCallback from (Some data) hm) with (decision from data hm).
    destruct (isAdmin cfg from) eqn:Ha.
    + rewrite dispatch_admin by done.
      destruct (decisionHandler cfg data s) as [[[[]|e] s1] t1]; apply Exists_app; right.
      * unfold closeReview. apply Exists_app. right. by constructor.
      * by constructor.
    + rewrite dispatch_not_admin by done. by constructor.
Qed.

Lemma handled_callbacks_are_answered_witness :
  Exists (λ e, isAnswer (ev_call e) = true)
         (dispatch Scenario.cfgMuted (decision (Some Scenario.admin) "admin_reject" true)
                   (Scenario.oneQueued (Scenario.helloOf Scenario.bob with_name "Hi"))).2.
Proof.
  apply (handled_callbacks_are_answered Scenario.cfgMuted). by right.
Defined.

(** X18.  Every call of every update, in any state, is one of the calls
    listed by [uttered].  Two messages of the source are not among them and
    are never sent: "Очередь сообщений пуста." ([showNextMessageToAdmin] is
    only called with a record in the queue) and "Неизвестное действие."
    ([handleAdminCallback] is only registered for the three tokens it
    knows). *)
Theorem bot_vocabulary cfg :
  (∀ u s, Forall (λ e, uttered cfg (ev_call e)) (dispatch cfg u s).2)
  ∧ ¬ uttered cfg (queueEmptyNotice cfg)
  ∧ ¬ uttered cfg (AnswerCbQuery (Some "Неизвестное действие.")).
Proof.
  split; [apply dispatch_uttered|]. split.
  - intros H. inversion H as [| | | | | | | | | | |m c Hc|m|m| |m c Hc]; subst.
    + apply reviewPost_kind in Hc as [Hc _]. by destruct (adminId cfg).
    + apply channelPost_kind in Hc as [Hc _]. by destruct (adminId cfg).
  - intros H. inversion H as [| | | | | | | | | | |m c Hc|m|m| |m c Hc]; subst.
    + by apply reviewPost_kind in Hc as [Hc _].
    + by apply channelPost_kind in Hc as [Hc _].
Qed.


(** X20.  No button is dead: the callback data of every button of every
    inline keyboard the bot shows (the three choices under a prompt, the
    three decisions under a review post) is data that [setupHandlers]
    registers a handler for. *)
Theorem every_button_is_handled cfg c keyboard :
  uttered cfg c →
  markupOf c = Some keyboard →
  Forall (λ b, isHandledData b.2 = true) (concat keyboard).
Proof.
  intros H.
  destruct H as [from|message| | | | | | | | | |m c Hc|m|m| |m c Hc]; try done.
  - intros [= <-].
    destruct (choiceData_parts "with_name" (message_id message)) as (H1 & _); [done|].
    destruct (choiceData_parts "anonymous" (message_id message)) as (H2 & _); [done|].
    destruct (choiceData_parts "cancel" (message_id message)) as (H3 & _); [done|].
    unfold isHandledData.
    change (concat (choiceButtons (message_id message)))
      with [ ("📝 С моим именем", choiceData "with_name" (message_id message));
             ("👤 Анонимно", choiceData "anonymous" (message_id message));
             ("❌ Отменить отправку", choiceData "cancel" (message_id message)) ].
    repeat constructor; cbn [snd]; by rewrite ?H1, ?H2, ?H3.
  - revert Hc. unfold reviewPost. destruct (media m) as [md|].
    + intros [= <-] [= <-]. by repeat constructor.
    + destruct (JS.truthy (text m)); [|done]. intros [= <-] [= <-]. by repeat constructor.
  - revert Hc. unfold channelPost. destruct (media m) as [md|].
    + by intros [= <-].
    + destruct (JS.truthy (text m)); [|done]. by intros [= <-].
Qed.

Lemma every_button_is_handled_witness :
  Forall (λ b, isHandledData b.2 = true) (concat (choiceButtons 42)).
Proof.
  apply (every_button_is_handled Scenario.cfg (choicePrompt Scenario.hello)).
  - apply utt_prompt.
  - reflexivity.
Defined.
